(** * vertigo: the wire codec and the connection state machine

    A shallow embedding of [resultset.go] (result types, incoming
    messages, frame reader, byte decoders) and [connection.go]
    (Connect, Query, Close and their helpers), followed by the properties
    of the protocol engine.

    Conventions of the embedding.
    - A Go byte is a [byte]; a [[]byte] is a [list byte]; a Go string is a
      [string] (a sequence of bytes).  A [[]byte] that may be [nil], as the
      values of a data row are, is an [option (list byte)].
    - [uint16] and [uint32] are [Z] with the wrap-around written out
      ([uint16], [uint32]); [int] is the 64-bit signed integer ([int]).
    - A call either returns, or panics with a value, so every function
      yields an [outcome].  Loops without a bound in the source run on
      fuel computed from their input; [OutOfFuel] marks an exhausted
      budget and is shown never to happen.
    - The mutex of a connection and the traffic logger are not modelled:
      the embedding is sequential and the logger only prints. *)

From Stdlib Require Import ZArith List String Lia.
From Stdlib Require Import Strings.Byte.
From stdpp Require Import base option gmap strings list.
Import ListNotations.

Local Open Scope Z_scope.

(** ** Bytes and machine integers *)

#[global] Instance byte_eq_dec : EqDecision byte := Byte.byte_eq_dec.

#[global] Instance byte_countable : Countable byte :=
  inj_countable Byte.to_N Byte.of_N Byte.of_to_N.

Definition byteZ (b : byte) : Z := Z.of_N (Byte.to_N b).

Definition uint16 (z : Z) : Z := z mod 2 ^ 16.
Definition uint32 (z : Z) : Z := z mod 2 ^ 32.

(** Go's [int] on the 64-bit platforms: two's complement on 64 bits. *)
Definition int (z : Z) : Z := (z + 2 ^ 63) mod 2 ^ 64 - 2 ^ 63.

(** The Go runtime's bound on one allocation on 64-bit platforms
    (48 address bits): no slice is longer. *)
Definition maxAlloc : Z := 2 ^ 48.

Definition len {A} (p : list A) : Z := Z.of_nat (length p).

Definition strlen (s : string) : Z := Z.of_nat (String.length s).

(** ** Results and errors *)

Record Field := {
  Name : string;
  TableOID : Z;
  AttributeNumber : Z;
  DataTypeOID : Z;
  DataTypeSize : Z;
  TypeModifier : Z;
  FormatCode : Z
}.

Record Row := { Values : list (option (list byte)) }.

Record Resultset := {
  Fields : list Field;
  Rows : list Row;
  Result : string
}.

(** The zero value of [Field], as [make([]Field, n)] fills a slice. *)
Definition zeroField : Field :=
  {| Name := ""; TableOID := 0; AttributeNumber := 0; DataTypeOID := 0;
     DataTypeSize := 0; TypeModifier := 0; FormatCode := 0 |}.

(** [IncomingMessage] is [interface{}] in the source and is inspected by
    type switches only; here it is the sum of the message types. *)
Inductive IncomingMessage :=
| ErrorResponseMessage (fields : gmap byte string)
| EmptyQueryMessage
| AuthenticationRequestMessage (AuthCode : Z) (Salt : option (list byte))
| ReadyForQueryMessage (TransactionStatus : byte)
| ParameterStatusMessage (name value : string)
| BackendKeyDataMessage (Pid Key : Z)
| CommandCompleteMessage (result : string)
| RowDescriptionMessage (fields : list Field)
| DataRowMessage (values : list (option (list byte))).

Inductive RuntimeError :=
| NilDereference
| SliceBoundsOutOfRange
| IndexOutOfRange
| InterfaceConversion.

(** The error values the driver meets.  [AsError m] is a message used as
    an [error] ([msg.(error)]): only [ErrorResponseMessage] and
    [EmptyQueryMessage] have the methods. *)
Inductive error :=
| errors_New (text : string)
| io_EOF
| io_ErrUnexpectedEOF
| net_ErrClosed
| tls_HandshakeError
| runtime_Error (r : RuntimeError)
| AsError (m : IncomingMessage).

(** The strings the source panics with are built by [fmt.Sprintf]; they are
    kept symbolic.  What matters is that they are strings, not errors. *)
Inductive PanicText :=
| UnknownMessageType (messageType : byte)
| UnexpectedMessage (msg : option IncomingMessage).

Inductive PanicValue :=
| PanicError (e : error)
| PanicString (s : PanicText).

Inductive outcome (A : Type) :=
| Ret (a : A)
| Panic (p : PanicValue)
| OutOfFuel.
Arguments Ret {A} a.
Arguments Panic {A} p.
Arguments OutOfFuel {A}.

#[global] Instance outcome_ret : MRet outcome := @Ret.
#[global] Instance outcome_bind : MBind outcome := fun A B f m =>
  match m with
  | Ret a => f a
  | Panic p => Panic p
  | OutOfFuel => OutOfFuel
  end.

Definition runtimePanic {A} (r : RuntimeError) : outcome A :=
  Panic (PanicError (runtime_Error r)).

(** ** Slices *)

(** [p[lo:]] *)
Definition slice_from (p : list byte) (lo : Z) : outcome (list byte) :=
  if (0 <=? lo) && (lo <=? len p) then Ret (drop (Z.to_nat lo) p)
  else runtimePanic SliceBoundsOutOfRange.

(** [p[lo:hi]].  Go bounds [hi] by the capacity; the length is used, which
    is never larger, so the model panics wherever Go does. *)
Definition slice (p : list byte) (lo hi : Z) : outcome (list byte) :=
  if (0 <=? lo) && (lo <=? hi) && (hi <=? len p)
  then Ret (take (Z.to_nat (hi - lo)) (drop (Z.to_nat lo) p))
  else runtimePanic SliceBoundsOutOfRange.

(** [p[i]] *)
Definition index (p : list byte) (i : Z) : outcome byte :=
  if 0 <=? i then
    match p !! Z.to_nat i with
    | Some b => Ret b
    | None => runtimePanic IndexOutOfRange
    end
  else runtimePanic IndexOutOfRange.

(** ** Byte decoders *)

Fixpoint decodeCString_from (p : list byte) (todo : nat) (i : Z)
  : outcome (string * option error) :=
  match todo with
  | O => Ret (""%string, Some (errors_New "decodeCString: delimeter not found"))
  | S todo' =>
      b ← index p i;
      if Byte.eqb b x00 then
        s ← slice p 0 i; Ret (string_of_list_byte s, None)
      else decodeCString_from p todo' (i + 1)
  end.

(** [for i := 0; i < size; i++]: [size] iterations from [i = 0]. *)
Definition decodeCString (p : list byte) : outcome (string * option error) :=
  decodeCString_from p (length p) 0.

Fixpoint unpack_from (width : Z -> Z) (last : Z) (p : list byte)
  (todo : nat) (i : Z) (result : Z) : outcome Z :=
  match todo with
  | O => Ret result
  | S todo' =>
      b ← index p i;
      unpack_from width last p todo' (i + 1)
        (Z.lor result (width (Z.shiftl (byteZ b) (8 * (last - i)))))
  end.

Definition unpackUint32 (p : list byte) : outcome Z :=
  unpack_from uint32 3 p 4 0 (uint32 0).

Definition unpackUint16 (p : list byte) : outcome Z :=
  unpack_from uint16 1 p 2 0 (uint16 0).

(** The decoders write through a pointer and return an error; the
    embedding returns the pointee's new value with the error and takes its
    old value [v], left as it is on failure. *)
Definition decodeUint32 (p : list byte) (v : Z) : outcome (Z * option error) :=
  if len p <? 4 then
    Ret (v, Some (errors_New
      "decodeUint32: A buffer should be at least 4 bytes long"))
  else r ← unpackUint32 p; Ret (r, None).

Definition decodeUint16 (p : list byte) (v : Z) : outcome (Z * option error) :=
  if len p <? 2 then
    Ret (v, Some (errors_New
      "decodeUint16: A buffer should be at least 2 bytes long"))
  else r ← unpackUint16 p; Ret (r, None).

Definition decodeUint8 (p : list byte) (v : byte)
  : outcome (byte * option error) :=
  if len p <? 1 then
    Ret (v, Some (errors_New
      "decodeUint8: A buffer should be at least 1 bytes long"))
  else r ← index p 0; Ret (r, None).

(** ** Incoming messages: one parse function per message type

    A parse function returns the pair [(msg, err)] of the source: the
    message as far as it was filled, and the error or [None] for [nil]. *)

Definition parsed : Type := IncomingMessage * option error.

(** [for { ... }] of [parseErrorResponseMessage]; every round advances
    [offset], so [fuel] rounds with [fuel] above the body length do. *)
Fixpoint parseErrorResponse_loop (fuel : nat) (body : list byte)
  (fields : gmap byte string) (offset : Z) : outcome parsed :=
  match fuel with
  | O => OutOfFuel
  | S fuel' =>
      p ← slice_from body offset;
      '(fieldType, err) ← decodeUint8 p x00;
      match err with
      | Some e => Ret (ErrorResponseMessage fields, Some e)
      | None =>
          let offset := offset + 1 in
          if Byte.eqb fieldType x00 then Ret (ErrorResponseMessage fields, None)
          else
            p ← slice_from body offset;
            '(str, err) ← decodeCString p;
            match err with
            | Some e => Ret (ErrorResponseMessage fields, Some e)
            | None =>
                parseErrorResponse_loop fuel' body
                  (<[fieldType := str]> fields) (offset + (strlen str + 1))
            end
      end
  end.

Definition parseErrorResponseMessage (body : list byte) : outcome parsed :=
  parseErrorResponse_loop (S (length body)) body ∅ 0.

(** [msg.Fields[k]]: a missing key reads as the empty string. *)
Definition field_of (fields : gmap byte string) (k : byte) : string :=
  default ""%string (fields !! k).

Definition ErrorResponseMessage_Error (fields : gmap byte string) : string :=
  ("Vertica " ++ field_of fields "S"%byte ++ " " ++ field_of fields "C"%byte
     ++ ": " ++ field_of fields "M"%byte)%string.

Definition ErrorResponseMessage_Code (fields : gmap byte string) : string :=
  field_of fields "C"%byte.

Definition ErrorResponseMessage_Severity (fields : gmap byte string) : string :=
  field_of fields "S"%byte.

Definition parseEmptyQueryMessage (body : list byte) : outcome parsed :=
  Ret (EmptyQueryMessage, None).

Definition EmptyQueryMessage_Error : string :=
  "The provided SQL string was empty".

Definition EmptyQueryMessage_Code : string := "".

Definition EmptyQueryMessage_Severity : string := "ERROR".

Definition parseAuthenticationRequestMessage (body : list byte)
  : outcome parsed :=
  '(code, err) ← decodeUint32 body 0;
  Ret (AuthenticationRequestMessage code None, err).

Definition parseReadyForQueryMessage (body : list byte) : outcome parsed :=
  '(status, err) ← decodeUint8 body x00;
  Ret (ReadyForQueryMessage status, err).

Definition parseParameterStatusMessage (body : list byte) : outcome parsed :=
  let offset := 0 in
  p ← slice_from body offset;
  '(str, err) ← decodeCString p;
  match err with
  | Some e => Ret (ParameterStatusMessage "" "", Some e)
  | None =>
      let name := str in
      let offset := offset + (strlen str + 1) in
      p ← slice_from body offset;
      '(str, err) ← decodeCString p;
      match err with
      | Some e => Ret (ParameterStatusMessage name "", Some e)
      | None => Ret (ParameterStatusMessage name str, None)
      end
  end.

Definition parseBackendKeyDataMessage (body : list byte) : outcome parsed :=
  '(pid, err) ← decodeUint32 body 0;
  match err with
  | Some e => Ret (BackendKeyDataMessage pid 0, Some e)
  | None =>
      p ← slice_from body 4;
      '(key, err) ← decodeUint32 p 0;
      match err with
      | Some e => Ret (BackendKeyDataMessage pid key, Some e)
      | None => Ret (BackendKeyDataMessage pid key, None)
      end
  end.

Definition parseCommandCompleteMessage (body : list byte) : outcome parsed :=
  '(str, err) ← decodeCString body;
  match err with
  | Some e => Ret (CommandCompleteMessage "", Some e)
  | None => Ret (CommandCompleteMessage str, None)
  end.

(** [if err != nil { return msg, err }] after a decoder call. *)
Definition orReturn {A} (msg : IncomingMessage)
  (r : outcome (A * option error)) (k : A -> outcome parsed) : outcome parsed :=
  '(a, err) ← r;
  match err with
  | Some e => Ret (msg, Some e)
  | None => k a
  end.

Definition set_Name (v : string) (f : Field) : Field :=
  {| Name := v; TableOID := TableOID f; AttributeNumber := AttributeNumber f;
     DataTypeOID := DataTypeOID f; DataTypeSize := DataTypeSize f;
     TypeModifier := TypeModifier f; FormatCode := FormatCode f |}.
Definition set_TableOID (v : Z) (f : Field) : Field :=
  {| Name := Name f; TableOID := v; AttributeNumber := AttributeNumber f;
     DataTypeOID := DataTypeOID f; DataTypeSize := DataTypeSize f;
     TypeModifier := TypeModifier f; FormatCode := FormatCode f |}.
Definition set_AttributeNumber (v : Z) (f : Field) : Field :=
  {| Name := Name f; TableOID := TableOID f; AttributeNumber := v;
     DataTypeOID := DataTypeOID f; DataTypeSize := DataTypeSize f;
     TypeModifier := TypeModifier f; FormatCode := FormatCode f |}.
Definition set_DataTypeOID (v : Z) (f : Field) : Field :=
  {| Name := Name f; TableOID := TableOID f;
     AttributeNumber := AttributeNumber f;
     DataTypeOID := v; DataTypeSize := DataTypeSize f;
     TypeModifier := TypeModifier f; FormatCode := FormatCode f |}.
Definition set_DataTypeSize (v : Z) (f : Field) : Field :=
  {| Name := Name f; TableOID := TableOID f;
     AttributeNumber := AttributeNumber f;
     DataTypeOID := DataTypeOID f; DataTypeSize := v;
     TypeModifier := TypeModifier f; FormatCode := FormatCode f |}.
Definition set_TypeModifier (v : Z) (f : Field) : Field :=
  {| Name := Name f; TableOID := TableOID f;
     AttributeNumber := AttributeNumber f;
     DataTypeOID := DataTypeOID f; DataTypeSize := DataTypeSize f;
     TypeModifier := v; FormatCode := FormatCode f |}.
Definition set_FormatCode (v : Z) (f : Field) : Field :=
  {| Name := Name f; TableOID := TableOID f;
     AttributeNumber := AttributeNumber f;
     DataTypeOID := DataTypeOID f; DataTypeSize := DataTypeSize f;
     TypeModifier := TypeModifier f; FormatCode := v |}.

(** [for i := range msg.Fields]: [todo] holds the indices still to visit;
    [field := &msg.Fields[i]] is written in place, one member at a time. *)
Fixpoint parseRowDescription_loop (body : list byte) (todo : list nat)
  (fields : list Field) (offset : Z) : outcome parsed :=
  match todo with
  | [] => Ret (RowDescriptionMessage fields, None)
  | i :: todo' =>
      p ← slice_from body offset;
      orReturn (RowDescriptionMessage fields) (decodeCString p) (fun name =>
      let fields := alter (set_Name name) i fields in
      let offset := offset + (strlen name + 1) in
      p ← slice_from body offset;
      orReturn (RowDescriptionMessage fields) (decodeUint32 p 0) (fun v =>
      let fields := alter (set_TableOID v) i fields in
      let offset := offset + 4 in
      p ← slice_from body offset;
      orReturn (RowDescriptionMessage fields) (decodeUint16 p 0) (fun v =>
      let fields := alter (set_AttributeNumber v) i fields in
      let offset := offset + 2 in
      p ← slice_from body offset;
      orReturn (RowDescriptionMessage fields) (decodeUint32 p 0) (fun v =>
      let fields := alter (set_DataTypeOID v) i fields in
      let offset := offset + 4 in
      p ← slice_from body offset;
      orReturn (RowDescriptionMessage fields) (decodeUint16 p 0) (fun v =>
      let fields := alter (set_DataTypeSize v) i fields in
      let offset := offset + 2 in
      p ← slice_from body offset;
      orReturn (RowDescriptionMessage fields) (decodeUint32 p 0) (fun v =>
      let fields := alter (set_TypeModifier v) i fields in
      let offset := offset + 4 in
      p ← slice_from body offset;
      orReturn (RowDescriptionMessage fields) (decodeUint16 p 0) (fun v =>
      let fields := alter (set_FormatCode v) i fields in
      let offset := offset + 2 in
      parseRowDescription_loop body todo' fields offset)))))))
  end.

Definition parseRowDescriptionMessage (body : list byte) : outcome parsed :=
  orReturn (RowDescriptionMessage []) (decodeUint16 body 0) (fun numFields =>
  let offset := 2 in
  let fields := replicate (Z.to_nat numFields) zeroField in
  parseRowDescription_loop body (seq 0 (length fields)) fields offset).

(** [for i := range msg.Values] *)
Fixpoint parseDataRow_loop (body : list byte) (bodyLen : Z) (todo : list nat)
  (values : list (option (list byte))) (offset : Z) : outcome parsed :=
  match todo with
  | [] => Ret (DataRowMessage values, None)
  | i :: todo' =>
      p ← slice_from body offset;
      orReturn (DataRowMessage values) (decodeUint32 p 0) (fun size =>
      let offset := offset + 4 in
      if size =? 0xffffffff then
        parseDataRow_loop body bodyLen todo' (<[i := None]> values) offset
      else if int (offset + int size) >? bodyLen then
        Ret (DataRowMessage values,
             Some (errors_New "parseDataRowMessage: truncated message"))
      else
        v ← slice body offset (int (offset + int size));
        parseDataRow_loop body bodyLen todo' (<[i := Some v]> values)
          (int (offset + int size)))
  end.

Definition parseDataRowMessage (body : list byte) : outcome parsed :=
  orReturn (DataRowMessage []) (decodeUint16 body 0) (fun numValues =>
  let offset := 2 in
  let bodyLen := len body in
  let values := replicate (Z.to_nat numValues) None in
  parseDataRow_loop body bodyLen (seq 0 (length values)) values offset).

Definition messageFactoryMethod : Type := list byte -> outcome parsed.

Definition messageFactoryMethods : gmap byte messageFactoryMethod :=
  list_to_map [
    ("R"%byte, parseAuthenticationRequestMessage);
    ("Z"%byte, parseReadyForQueryMessage);
    ("E"%byte, parseErrorResponseMessage);
    ("I"%byte, parseEmptyQueryMessage);
    ("S"%byte, parseParameterStatusMessage);
    ("K"%byte, parseBackendKeyDataMessage);
    ("T"%byte, parseRowDescriptionMessage);
    ("C"%byte, parseCommandCompleteMessage);
    ("D"%byte, parseDataRowMessage)
  ].

(** ** Sockets and the frame reader

    A [net.Conn] is the bytes its peer delivers before it closes the
    stream ([inbound]), the messages written to it ([outbound]) and whether
    it was closed on this side.  [handshake] is what a TLS handshake over
    the socket ends with, and [secure] whether it was wrapped by
    [tls.Client].  A [nil] interface value is [None]. *)

Inductive OutgoingMessage :=
| SSLRequestMessage
| StartupMessage (User Database : string)
| PasswordMessage (Password : string) (AuthenticationMethod : Z)
| QueryMessage (SQL : string)
| TerminateMessage.

Record Socket := {
  closed : bool;
  inbound : list byte;
  outbound : list OutgoingMessage;
  secure : bool;
  handshake : option error
}.

Definition set_inbound (bs : list byte) (s : Socket) : Socket :=
  {| closed := closed s; inbound := bs; outbound := outbound s;
     secure := secure s; handshake := handshake s |}.
Definition set_outbound (ms : list OutgoingMessage) (s : Socket) : Socket :=
  {| closed := closed s; inbound := inbound s; outbound := ms;
     secure := secure s; handshake := handshake s |}.
Definition set_closed (b : bool) (s : Socket) : Socket :=
  {| closed := b; inbound := inbound s; outbound := outbound s;
     secure := secure s; handshake := handshake s |}.
Definition set_secure (b : bool) (s : Socket) : Socket :=
  {| closed := closed s; inbound := inbound s; outbound := outbound s;
     secure := b; handshake := handshake s |}.

(** Code that works on a state [S]: a call returns or panics and leaves a
    state either way. *)
Definition M (S A : Type) : Type := S -> outcome A * S.

#[global] Instance M_ret {S} : MRet (M S) := fun A a s => (Ret a, s).
#[global] Instance M_bind {S} : MBind (M S) := fun A B f m s =>
  match m s with
  | (Ret a, s') => f a s'
  | (Panic p, s') => (Panic p, s')
  | (OutOfFuel, s') => (OutOfFuel, s')
  end.

Definition pure {S A} (o : outcome A) : M S A := fun s => (o, s).
Definition panic {S A} (p : PanicValue) : M S A := fun s => (Panic p, s).

(** [io.ReadFull(r, buf)] and [io.ReadAtLeast(r, buf, len(buf))] with
    [len(buf) = n]: the buffer as it is afterwards, and the error. A short
    stream is [io.EOF] when nothing was read and [io.ErrUnexpectedEOF]
    otherwise; calling a method of a [nil] interface panics. *)
Definition io_ReadFull (n : Z) : M (option Socket) (list byte * option error) :=
  fun r =>
  match r with
  | None => (runtimePanic NilDereference, r)
  | Some s =>
      if closed s then
        (Ret (replicate (Z.to_nat n) x00, Some net_ErrClosed), r)
      else if n <=? len (inbound s) then
        (Ret (take (Z.to_nat n) (inbound s), None),
         Some (set_inbound (drop (Z.to_nat n) (inbound s)) s))
      else
        (Ret (inbound s ++ replicate (Z.to_nat n - length (inbound s)) x00,
              Some (match inbound s with
                    | [] => io_EOF
                    | _ => io_ErrUnexpectedEOF
                    end)),
         Some (set_inbound [] s))
  end.

Definition io_ReadAtLeast (n : Z) : M (option Socket) (list byte * option error) :=
  io_ReadFull n.

Definition received : Type := option IncomingMessage * option error.

Definition receiveMessage : M (option Socket) received :=
  '(header, err) ← io_ReadAtLeast 5;
  match err with
  | Some e => mret (None, Some e)
  | None =>
      messageType ← pure (index header 0);
      p ← pure (slice header 1 5);
      messageSize ← pure (unpackUint32 p);
      if 4 <=? messageSize then
        '(messageContent, err) ←
          (if 4 <? messageSize then io_ReadFull (uint32 (messageSize - 4))
           else mret (replicate (Z.to_nat (uint32 (messageSize - 4))) x00, None));
        match err with
        | Some e => mret (None, Some e)
        | None =>
            match messageFactoryMethods !! messageType with
            | None => panic (PanicString (UnknownMessageType messageType))
            | Some factoryMethod =>
                '(msg, err) ← pure (factoryMethod messageContent);
                mret (Some msg, err)
            end
        end
      else
        mret (None, Some (errors_New "A message should be at least 4 bytes long"))
  end.

(** Modelled from the spec: [ReadMessage], which [Connection.receiveMessage]
    calls, is declared outside the sources; it is the transport frame
    reader, which the sources have as [receiveMessage]. *)
Definition ReadMessage : M (option Socket) received := receiveMessage.

(** Modelled from the spec: [SendMessage] and the outgoing message types
    are declared outside the sources.  The frame writer hands the message
    to the socket; a closed socket refuses the write with an error. *)
Definition SendMessage (msg : OutgoingMessage) : M (option Socket) (option error) :=
  fun w =>
  match w with
  | None => (runtimePanic NilDereference, w)
  | Some s =>
      if closed s then (Ret (Some net_ErrClosed), w)
      else (Ret None, Some (set_outbound (outbound s ++ [msg]) s))
  end.

(** [socket.Close()]; the error of closing twice is dropped by the caller. *)
Definition Socket_Close (s : Socket) : Socket := set_closed true s.

(** ** The connection *)

Definition SslNotSupported : error :=
  errors_New "SSL not available on this server".
Definition AuthenticationMethodNotSupported : error :=
  errors_New "Authentication method not supported".

(** Modelled from the spec: the authentication codes are declared outside
    the sources; the spec names them OK and cleartext password, which the
    wire protocol numbers 0 and 3. *)
Definition AuthenticationOK : Z := 0.
Definition AuthenticationCleartextPassword : Z := 3.

(** [*tls.Config] is opaque to the driver. *)
Inductive tls_Config := TLSConfig.

Record ConnectionInfo := {
  Address : string;
  User : string;
  Database : string;
  Password : string;
  SslConfig : option tls_Config
}.

Record Connection := {
  socket : option Socket;
  parameters : gmap string string;
  backendPid : Z;
  backendKey : Z;
  transactionStatus : byte
}.

Definition set_socket (v : option Socket) (c : Connection) : Connection :=
  {| socket := v; parameters := parameters c; backendPid := backendPid c;
     backendKey := backendKey c; transactionStatus := transactionStatus c |}.
Definition set_parameters (v : gmap string string) (c : Connection)
  : Connection :=
  {| socket := socket c; parameters := v; backendPid := backendPid c;
     backendKey := backendKey c; transactionStatus := transactionStatus c |}.
Definition set_backendPid (v : Z) (c : Connection) : Connection :=
  {| socket := socket c; parameters := parameters c; backendPid := v;
     backendKey := backendKey c; transactionStatus := transactionStatus c |}.
Definition set_backendKey (v : Z) (c : Connection) : Connection :=
  {| socket := socket c; parameters := parameters c;
     backendPid := backendPid c;
     backendKey := v; transactionStatus := transactionStatus c |}.
Definition set_transactionStatus (v : byte) (c : Connection) : Connection :=
  {| socket := socket c; parameters := parameters c;
     backendPid := backendPid c;
     backendKey := backendKey c; transactionStatus := v |}.

(** [Connection{}].  The parameter map of the zero value is [nil]; Connect
    and resetConnection make a map before any message is handled, and no
    other code builds a connection, so the map is modelled as always made. *)
Definition zeroConnection : Connection :=
  {| socket := None; parameters := ∅; backendPid := 0; backendKey := 0;
     transactionStatus := x00 |}.

Definition modify {S} (f : S -> S) : M S unit := fun s => (Ret tt, f s).

(** Code that starts by looking at the state. *)
Definition reading {S A} (f : S -> M S A) : M S A := fun s => f s s.

(** Runs code of the socket on [c.socket]. *)
Definition on_socket {A} (m : M (option Socket) A) : M Connection A :=
  fun c => let '(r, w) := m (socket c) in (r, set_socket w c).

Definition sendMessage (msg : OutgoingMessage) : M Connection unit :=
  err ← on_socket (SendMessage msg);
  match err with
  | Some e => panic (PanicError e)
  | None => mret tt
  end.

Definition Connection_receiveMessage : M Connection (option IncomingMessage) :=
  '(msg, err) ← on_socket ReadMessage;
  match err with
  | Some e => panic (PanicError e)
  | None => mret msg
  end.

Definition handleStatelessMessage (msg : option IncomingMessage)
  : M Connection unit :=
  match msg with
  | Some (ParameterStatusMessage name value) =>
      modify (fun c => set_parameters (<[name := value]> (parameters c)) c)
  | Some (BackendKeyDataMessage pid key) =>
      modify (fun c => set_backendKey key (set_backendPid pid c))
  | _ => panic (PanicString (UnexpectedMessage msg))
  end.

Definition isReadyForQuery (msg : option IncomingMessage) : M Connection bool :=
  match msg with
  | Some (ReadyForQueryMessage status) =>
      _ ← modify (set_transactionStatus status); mret true
  | _ => mret false
  end.

(** The rounds a receive loop can make: every message read takes at least
    the five bytes of its header from the stream. *)
Definition rounds (c : Connection) : nat :=
  match socket c with
  | Some s => S (length (inbound s))
  | None => 1
  end.

(** [for msg := c.receiveMessage(); !c.isReadyForQuery(msg);
         msg = c.receiveMessage() { ... }] of initConnection *)
Fixpoint initConnection_loop (fuel : nat) (info : ConnectionInfo)
  : M Connection unit :=
  match fuel with
  | O => pure OutOfFuel
  | S fuel' =>
      msg ← Connection_receiveMessage;
      ready ← isReadyForQuery msg;
      if ready : bool then mret tt
      else
        _ ← match msg with
            | Some (AuthenticationRequestMessage code _) =>
                if code =? AuthenticationOK then mret tt
                else if code =? AuthenticationCleartextPassword then
                  sendMessage (PasswordMessage (Password info) code)
                else panic (PanicError AuthenticationMethodNotSupported)
            | Some (ErrorResponseMessage fields) =>
                panic (PanicError (AsError (ErrorResponseMessage fields)))
            | _ => handleStatelessMessage msg
            end;
        initConnection_loop fuel' info
  end.

Definition initConnection (info : ConnectionInfo) : M Connection unit :=
  _ ← sendMessage (StartupMessage (User info) (Database info));
  reading (fun c => initConnection_loop (rounds c) info).

Definition resetConnection : M Connection unit :=
  modify (fun c =>
    set_backendKey 0 (set_backendPid 0 (set_parameters ∅
      (set_socket (Socket_Close <$> socket c) c)))).

(** [r.(error)] in a recover handler: a string is not an error, and the
    failed assertion panics in its turn. *)
Definition asError (r : PanicValue) : outcome error :=
  match r with
  | PanicError e => Ret e
  | PanicString _ => runtimePanic InterfaceConversion
  end.

(** The deferred calls of Close run last-in first-out: the handler that
    turns a panic of sendMessage into [err], then resetConnection. *)
Definition Close : M Connection (option error) := fun c =>
  let '(r, c) := sendMessage TerminateMessage c in
  let err :=
    match r with
    | Ret _ => Ret None
    | Panic p => e ← asError p; Ret (Some e)
    | OutOfFuel => OutOfFuel
    end in
  let '(_, c) := resetConnection c in
  (err, c).

(** The named results of Query are locals of the call; they live next to
    the connection so that the recover handler finds them as the panic
    left them. *)
Record QueryVars := {
  resultset : option Resultset;
  queryError : option error
}.

Definition QueryState : Type := Connection * QueryVars.

Definition on_connection {A} (m : M Connection A) : M QueryState A :=
  fun st => let '(r, c) := m st.1 in (r, (c, st.2)).

Definition set_vars (f : QueryVars -> QueryVars) : M QueryState unit :=
  modify (fun st => (st.1, f st.2)).

Definition get_resultset : M QueryState (option Resultset) :=
  fun st => (Ret (resultset st.2), st).

(** The body of the receive loop of Query: the type switch. *)
Definition Query_switch (msg : option IncomingMessage) : M QueryState unit :=
  match msg with
  | Some EmptyQueryMessage =>
      set_vars (fun v =>
        {| resultset := resultset v;
           queryError := Some (AsError EmptyQueryMessage) |})
  | Some (ErrorResponseMessage fields) =>
      set_vars (fun v =>
        {| resultset := resultset v;
           queryError := Some (AsError (ErrorResponseMessage fields)) |})
  | Some (RowDescriptionMessage fields) =>
      set_vars (fun v =>
        {| resultset := Some {| Fields := fields; Rows := []; Result := "" |};
           queryError := queryError v |})
  | Some (DataRowMessage values) =>
      rs ← get_resultset;
      match rs with
      | None => pure (runtimePanic NilDereference)
      | Some rs =>
          set_vars (fun v =>
            {| resultset := Some {| Fields := Fields rs;
                                    Rows := Rows rs ++ [{| Values := values |}];
                                    Result := Result rs |};
               queryError := queryError v |})
      end
  | Some (CommandCompleteMessage result) =>
      rs ← get_resultset;
      match rs with
      | None => pure (runtimePanic NilDereference)
      | Some rs =>
          set_vars (fun v =>
            {| resultset := Some {| Fields := Fields rs; Rows := Rows rs;
                                    Result := result |};
               queryError := queryError v |})
      end
  | _ => on_connection (handleStatelessMessage msg)
  end.

Fixpoint Query_loop (fuel : nat) : M QueryState unit :=
  match fuel with
  | O => pure OutOfFuel
  | S fuel' =>
      msg ← on_connection Connection_receiveMessage;
      ready ← on_connection (isReadyForQuery msg);
      if ready : bool then mret tt
      else _ ← Query_switch msg; Query_loop fuel'
  end.

(** What Query returns: [(resultset, queryError)]. *)
Definition queried : Type := option Resultset * option error.

(** Query between its deferred handlers: the request and the loop. *)
Definition Query_body (sql : string) : M QueryState unit :=
  _ ← on_connection (sendMessage (QueryMessage sql));
  reading (fun st => Query_loop (rounds st.1)).

Definition noVars : QueryVars := {| resultset := None; queryError := None |}.

Definition Query (sql : string) : M Connection queried := fun c =>
  match Query_body sql (c, noVars) with
  | (Ret _, (c, v)) => (Ret (resultset v, queryError v), c)
  | (Panic r, (c, v)) =>
      (* recover: c.Close(); queryError = r.(error) *)
      match Close c with
      | (Ret _, c) => (e ← asError r; Ret (resultset v, Some e), c)
      | (Panic p, c) => (Panic p, c)
      | (OutOfFuel, c) => (OutOfFuel, c)
      end
  | (OutOfFuel, (c, v)) => (OutOfFuel, c)
  end.

(** [net.Dial("tcp", address)]: the network answers an address with a
    socket or with an error. *)
Definition Network : Type := string -> Socket + error.

Definition tls_Client (s : Socket) (config : tls_Config) : Socket :=
  set_secure true s.

(** The block of Connect under [if info.SslConfig != nil]. *)
Definition Connect_ssl (config : tls_Config) : M Connection unit :=
  _ ← sendMessage SSLRequestMessage;
  '(sslResponse, _) ← on_socket (io_ReadFull 1);
  b ← pure (index sslResponse 0);
  if Byte.eqb b "S"%byte then
    tlsError ← reading (fun c =>
      match socket c with
      | None => pure (runtimePanic NilDereference)
      | Some sock =>
          let tlsSocket := tls_Client sock config in
          _ ← modify (set_socket (Some tlsSocket));
          mret (handshake tlsSocket)
      end);
    match tlsError with
    | Some e => panic (PanicError e)
    | None => mret tt
    end
  else panic (PanicError SslNotSupported).

Definition Connect_body (net_Dial : Network) (info : ConnectionInfo)
  : M Connection unit :=
  _ ← match net_Dial (Address info) with
      | inr dialError => panic (PanicError dialError)
      | inl sock => modify (set_socket (Some sock))
      end;
  _ ← match SslConfig info with
      | None => mret tt
      | Some config => Connect_ssl config
      end;
  _ ← modify (set_parameters ∅);
  initConnection info.

Definition Connect (net_Dial : Network) (info : ConnectionInfo)
  : outcome (Connection * option error) :=
  match Connect_body net_Dial info zeroConnection with
  | (Ret _, connection) => Ret (connection, None)
  | (Panic r, connection) =>
      (* recover: connection.resetConnection(); connectionError = r.(error) *)
      let '(_, connection) := resetConnection connection in
      e ← asError r; Ret (connection, Some e)
  | (OutOfFuel, _) => OutOfFuel
  end.

(** * The vocabulary of the properties *)

(** The call returns: it neither panics nor runs out of fuel. *)
Definition returns {A} (o : outcome A) : Prop := exists a, o = Ret a.

(** The value of four, and of two, big-endian bytes as the loops of
    unpackUint32 and unpackUint16 build it. *)
Definition be32 (b0 b1 b2 b3 : byte) : Z :=
  Z.lor (Z.lor (Z.lor (Z.lor (uint32 0)
    (uint32 (Z.shiftl (byteZ b0) (8 * (3 - 0)))))
    (uint32 (Z.shiftl (byteZ b1) (8 * (3 - (0 + 1))))))
    (uint32 (Z.shiftl (byteZ b2) (8 * (3 - (0 + 1 + 1))))))
    (uint32 (Z.shiftl (byteZ b3) (8 * (3 - (0 + 1 + 1 + 1))))).

Definition be16 (b0 b1 : byte) : Z :=
  Z.lor (Z.lor (uint16 0)
    (uint16 (Z.shiftl (byteZ b0) (8 * (1 - 0)))))
    (uint16 (Z.shiftl (byteZ b1) (8 * (1 - (0 + 1))))).

(** The bytes of one value of a data row: the NULL sentinel, or a length
    field, read as unpackUint32 reads it, followed by that many bytes. *)
Inductive value_wire : option (list byte) -> list byte -> Prop :=
| wire_null : value_wire None [xff; xff; xff; xff]
| wire_present (lf d : list byte) :
    length lf = 4%nat -> unpackUint32 lf = Ret (len d) ->
    len d <> 0xffffffff -> value_wire (Some d) (lf ++ d).

(** The bytes of a run of values, one after the other. *)
Inductive values_wire : list (option (list byte)) -> list byte -> Prop :=
| wire_nil : values_wire [] []
| wire_cons v vs bv bvs :
    value_wire v bv -> values_wire vs bvs ->
    values_wire (v :: vs) (bv ++ bvs).

(** [values] with the values [vs] stored from index [k] on. *)
Fixpoint fill (k : nat) (vs values : list (option (list byte)))
  : list (option (list byte)) :=
  match vs with
  | [] => values
  | v :: vs' => fill (S k) vs' (<[k := v]> values)
  end.

(** What the reader hands on of a parse function's result. *)
Definition deliver (o : outcome parsed) : outcome received :=
  '(msg, err) ← o; Ret (Some msg, err).

(** The tags of the table. *)
Definition recognized : list byte :=
  ["R"; "Z"; "E"; "I"; "S"; "K"; "T"; "C"; "D"]%byte.

(** A socket that is open and holds [inp]. *)
Definition stream (inp : list byte) : Socket :=
  {| closed := false; inbound := inp; outbound := []; secure := false;
     handshake := None |}.

(** The frame reader takes the message [m] off the front of [inp] and
    leaves [rest]. *)
Definition reads (inp : list byte) (m : IncomingMessage) (rest : list byte)
  : Prop :=
  ReadMessage (Some (stream inp)) = (Ret (Some m, None), Some (stream rest)).

(** [inp] starts with the frames of the messages [ms], then goes on with
    [rest]. *)
Inductive frames : list byte -> list IncomingMessage -> list byte -> Prop :=
| frames_nil inp : frames inp [] inp
| frames_cons inp m mid ms rest :
    reads inp m mid -> frames mid ms rest -> frames inp (m :: ms) rest.

(** The connection after its socket [s] was read down to [rest]. *)
Definition on_rest (rest : list byte) (s : Socket) (c : Connection)
  : Connection :=
  set_socket (Some (set_inbound rest s)) c.

(** The message is ready-for-query. *)
Definition isReady (m : IncomingMessage) : bool :=
  match m with ReadyForQueryMessage _ => true | _ => false end.

(** The type switch applied to the messages [ms] in turn. *)
Fixpoint Query_switches (ms : list IncomingMessage) : M QueryState unit :=
  match ms with
  | [] => mret tt
  | m :: ms' => _ ← Query_switch (Some m); Query_switches ms'
  end.

(** Messages that only update the session. *)
Definition stateless (m : IncomingMessage) : bool :=
  match m with
  | ParameterStatusMessage _ _ | BackendKeyDataMessage _ _ => true
  | _ => false
  end.

(** An error response or the empty-query notice. *)
Definition errorLike (m : IncomingMessage) : bool :=
  match m with
  | ErrorResponseMessage _ | EmptyQueryMessage => true
  | _ => false
  end.

(** The session after one message, if it is a stateless one. *)
Definition merge1 (c : Connection) (m : IncomingMessage) : Connection :=
  match m with
  | ParameterStatusMessage name value =>
      set_parameters (<[name := value]> (parameters c)) c
  | BackendKeyDataMessage pid key => set_backendKey key (set_backendPid pid c)
  | _ => c
  end.

(** The session after the stateless messages of [ms], first to last. *)
Definition merge (ms : list IncomingMessage) (c : Connection) : Connection :=
  fold_left merge1 ms c.

(** The socket is closed or was never opened, and the parameters and the
    backend identifiers are reset. *)
Definition torn (c : Connection) : Prop :=
  match socket c with
  | Some s => closed s = true
  | None => True
  end /\ parameters c = ∅ /\ backendPid c = 0 /\ backendKey c = 0.

(** A message that neither opens a resultset nor needs one. *)
Definition quiet (m : IncomingMessage) : bool := stateless m || errorLike m.

(** The bytes the server has still to deliver. *)
Definition pending (c : Connection) : nat :=
  match socket c with
  | Some s => length (inbound s)
  | None => 0
  end.

(** The methods of the error interface on the messages that have them. *)
Definition message_Error (m : IncomingMessage) : option string :=
  match m with
  | ErrorResponseMessage fields => Some (ErrorResponseMessage_Error fields)
  | EmptyQueryMessage => Some EmptyQueryMessage_Error
  | _ => None
  end.

Definition message_Code (m : IncomingMessage) : option string :=
  match m with
  | ErrorResponseMessage fields => Some (ErrorResponseMessage_Code fields)
  | EmptyQueryMessage => Some EmptyQueryMessage_Code
  | _ => None
  end.

(** ** Sample traffic *)

(** The bytes of a string literal. *)
Definition bytes (s : string) : list byte := list_byte_of_string s.

(** The connection information of the repository's tests. *)
Definition defaultConnectionInfo : ConnectionInfo :=
  {| Address := "127.0.0.1:5437"; User := "dbadmin"; Database := "";
     Password := ""; SslConfig := None |}.

(** Frames as the server sends them: tag, length, body. *)
Definition frameAuthenticationOK : list byte :=
  ["R"%byte; x00; x00; x00; x08; x00; x00; x00; x00].

Definition frameParameterX1 : list byte :=
  ["S"%byte; x00; x00; x00; x08] ++ bytes "x" ++ [x00] ++ bytes "1" ++ [x00].

Definition frameBackendKey : list byte :=
  ["K"%byte; x00; x00; x00; x0c; x00; x00; x00; x2a; x00; x00; x00; x63].

Definition frameReadyIdle : list byte := ["Z"%byte; x00; x00; x00; x05; "I"%byte].

Definition frameSyntaxError : list byte :=
  ["E"%byte; x00; x00; x00; x21]
    ++ ["S"%byte] ++ bytes "ERROR" ++ [x00]
    ++ ["C"%byte] ++ bytes "42601" ++ [x00]
    ++ ["M"%byte] ++ bytes "syntax error" ++ [x00] ++ [x00].

Definition frameInsertComplete : list byte :=
  ["C"%byte; x00; x00; x00; x0d] ++ bytes "INSERT 1" ++ [x00].

Definition frameUnknown : list byte := ["X"%byte; x00; x00; x00; x04].

(** The answer to a startup request. *)
Definition handshake_script : list byte :=
  frameAuthenticationOK ++ frameParameterX1 ++ frameBackendKey
    ++ frameReadyIdle.

(** The message of [frameSyntaxError]. *)
Definition syntaxError : IncomingMessage :=
  ErrorResponseMessage
    (<["M"%byte := "syntax error"%string]>
       (<["C"%byte := "42601"%string]> (<["S"%byte := "ERROR"%string]> ∅))).

(** The connection a handshake leaves, with [inp] as what the server
    sends next. *)
Definition idle (inp : list byte) : Connection :=
  {| socket := Some (stream inp); parameters := <["x"%string := "1"%string]> ∅;
     backendPid := 42; backendKey := 99; transactionStatus := "I"%byte |}.

Definition frameRowDescriptionN : list byte :=
  ["T"%byte; x00; x00; x00; x1a; x00; x01] ++ bytes "n" ++ [x00]
    ++ [x00; x00; x00; x00; x00; x00; x00; x00; x00; x00; x00; x00; x00; x00;
        x00; x00; x00; x00].

Definition frameDataRow5 : list byte :=
  ["D"%byte; x00; x00; x00; x0b; x00; x01; x00; x00; x00; x01; "5"%byte].

Definition frameSelectComplete : list byte :=
  ["C"%byte; x00; x00; x00; x0d] ++ bytes "SELECT 1" ++ [x00].

(** The answer to a select of one row. *)
Definition select_script : list byte :=
  frameRowDescriptionN ++ frameDataRow5 ++ frameSelectComplete
    ++ frameReadyIdle.

(** A data row of two values, the second NULL. *)
Definition frameDataRowTwo : list byte :=
  ["D"%byte; x00; x00; x00; x0f; x00; x02; x00; x00; x00; x01; "5"%byte;
   xff; xff; xff; xff].

(** The field of [frameRowDescriptionN]. *)
Definition fieldN : Field :=
  {| Name := "n"; TableOID := 0; AttributeNumber := 0; DataTypeOID := 0;
     DataTypeSize := 0; TypeModifier := 0; FormatCode := 0 |}.

(** ** Big-endian values *)

(** The number four bytes stand for, the first byte the most significant. *)
Definition bigEndian32 (b0 b1 b2 b3 : byte) : Z :=
  byteZ b0 * 2 ^ 24 + byteZ b1 * 2 ^ 16 + byteZ b2 * 2 ^ 8 + byteZ b3.

(** The number two bytes stand for. *)
Definition bigEndian16 (b0 b1 : byte) : Z := byteZ b0 * 2 ^ 8 + byteZ b1.

(** ** Messages on the wire *)

(** The fields of an error response on the wire: each a type byte and a
    zero-terminated string. *)
Fixpoint errorFields_wire (fs : list (byte * list byte)) : list byte :=
  match fs with
  | [] => []
  | (t, s) :: fs' => t :: s ++ x00 :: errorFields_wire fs'
  end.

(** The map the fields build when stored first to last. *)
Definition errorFields_map (fs : list (byte * list byte))
  (fields : gmap byte string) : gmap byte string :=
  fold_left (fun m f => <[f.1 := string_of_list_byte f.2]> m) fs fields.

(** A field of a row description on the wire: the bytes of its name and
    the eighteen bytes of its six numbers. *)
Record FieldWire := {
  wName : list byte;
  wTableOID : byte * byte * byte * byte;
  wAttributeNumber : byte * byte;
  wDataTypeOID : byte * byte * byte * byte;
  wDataTypeSize : byte * byte;
  wTypeModifier : byte * byte * byte * byte;
  wFormatCode : byte * byte
}.

Definition bytes4 (q : byte * byte * byte * byte) : list byte :=
  let '(b0, b1, b2, b3) := q in [b0; b1; b2; b3].
Definition bytes2 (q : byte * byte) : list byte :=
  let '(b0, b1) := q in [b0; b1].
Definition value4 (q : byte * byte * byte * byte) : Z :=
  let '(b0, b1, b2, b3) := q in bigEndian32 b0 b1 b2 b3.
Definition value2 (q : byte * byte) : Z :=
  let '(b0, b1) := q in bigEndian16 b0 b1.

Definition field_wire (w : FieldWire) : list byte :=
  wName w ++ [x00] ++ bytes4 (wTableOID w) ++ bytes2 (wAttributeNumber w)
    ++ bytes4 (wDataTypeOID w) ++ bytes2 (wDataTypeSize w)
    ++ bytes4 (wTypeModifier w) ++ bytes2 (wFormatCode w).

Definition field_value (w : FieldWire) : Field :=
  {| Name := string_of_list_byte (wName w);
     TableOID := value4 (wTableOID w);
     AttributeNumber := value2 (wAttributeNumber w);
     DataTypeOID := value4 (wDataTypeOID w);
     DataTypeSize := value2 (wDataTypeSize w);
     TypeModifier := value4 (wTypeModifier w);
     FormatCode := value2 (wFormatCode w) |}.

Definition fields_wire (ws : list FieldWire) : list byte :=
  concat (map field_wire ws).

(** ** Connecting *)

(** The connection information without its TLS configuration. *)
Definition plain (info : ConnectionInfo) : ConnectionInfo :=
  {| Address := Address info; User := User info; Database := Database info;
     Password := Password info; SslConfig := None |}.

(** The socket after the SSL request was written, the one-byte answer was
    read and the socket was wrapped for TLS. *)
Definition upgraded (s : Socket) : Socket :=
  set_secure true
    (set_inbound (tail (inbound s))
       (set_outbound (outbound s ++ [SSLRequestMessage]) s)).

Definition sslConnectionInfo : ConnectionInfo :=
  {| Address := "127.0.0.1:5437"; User := "dbadmin"; Database := "";
     Password := ""; SslConfig := Some TLSConfig |}.

(** ** The handshake *)

(** A message the loop of initConnection goes past: a session update, or
    an authentication request that is satisfied or asks for the password
    in clear text. *)
Definition greeting (m : IncomingMessage) : bool :=
  match m with
  | AuthenticationRequestMessage code _ =>
      (code =? AuthenticationOK) || (code =? AuthenticationCleartextPassword)
  | _ => stateless m
  end.

(** The messages the loop of initConnection writes in answer to [ms]. *)
Fixpoint answers (info : ConnectionInfo) (ms : list IncomingMessage)
  : list OutgoingMessage :=
  match ms with
  | [] => []
  | AuthenticationRequestMessage code _ :: ms' =>
      if code =? AuthenticationCleartextPassword
      then PasswordMessage (Password info) code :: answers info ms'
      else answers info ms'
  | _ :: ms' => answers info ms'
  end.

(** The error with which the loop of initConnection gives up on [m]. *)
Definition refusal (m : IncomingMessage) : option error :=
  match m with
  | AuthenticationRequestMessage code _ =>
      if greeting m then None else Some AuthenticationMethodNotSupported
  | ErrorResponseMessage _ => Some (AsError m)
  | _ => None
  end.

(** A message neither loop has a case for. *)
Definition unexpected (m : IncomingMessage) : bool :=
  match m with
  | EmptyQueryMessage | CommandCompleteMessage _ | RowDescriptionMessage _
  | DataRowMessage _ => true
  | _ => false
  end.

(** The socket is there and open. *)
Definition open (c : Connection) : Prop :=
  exists s, socket c = Some s /\ closed s = false.

(** The socket [s] after the loop read it down to [rest] and wrote [out]. *)
Definition exchanged (out : list OutgoingMessage) (rest : list byte)
  (s : Socket) : Socket :=
  set_inbound rest (set_outbound (outbound s ++ out) s).

(** The connection Connect has built when the server sent [ms] in answer
    to the startup message and [rest] is still to read. *)
Definition greeted (info : ConnectionInfo) (ms : list IncomingMessage)
  (rest : list byte) (s : Socket) : Connection :=
  set_socket
    (Some (exchanged
             (StartupMessage (User info) (Database info) :: answers info ms)
             rest s))
    (merge ms zeroConnection).

(** The error of a read from a stream that ends. *)
Definition endOfStream (rest : list byte) : error :=
  match rest with
  | [] => io_EOF
  | _ => io_ErrUnexpectedEOF
  end.

(** ** More sample traffic *)

Definition frameAuthenticationCleartext : list byte :=
  ["R"%byte; x00; x00; x00; x08; x00; x00; x00; x03].

Definition frameAuthenticationMD5 : list byte :=
  ["R"%byte; x00; x00; x00; x08; x00; x00; x00; x05].

Definition passwordConnectionInfo : ConnectionInfo :=
  {| Address := "127.0.0.1:5437"; User := "dbadmin"; Database := "";
     Password := "secret"; SslConfig := None |}.

(** The messages of [frameAuthenticationCleartext ++ handshake_script]
    before ready-for-query. *)
Definition password_greeting : list IncomingMessage :=
  [AuthenticationRequestMessage 3 None; AuthenticationRequestMessage 0 None;
   ParameterStatusMessage "x" "1"; BackendKeyDataMessage 42 99].

(** The error recorded for a query is none, or one of the server's
    messages that are errors. *)
Definition serverError (err : option error) : Prop :=
  match err with
  | None => True
  | Some e => exists m, errorLike m = true /\ e = AsError m
  end.

(** ** The response to a query *)

(** The rows of the data-row messages of [ms], in order. *)
Definition rowsOf (ms : list IncomingMessage) : list Row :=
  omap (fun m => match m with
                 | DataRowMessage values => Some {| Values := values |}
                 | _ => None
                 end) ms.

(** The tags of the command-complete messages of [ms], in order. *)
Definition tagsOf (ms : list IncomingMessage) : list string :=
  omap (fun m => match m with
                 | CommandCompleteMessage result => Some result
                 | _ => None
                 end) ms.

(** The error responses and empty-query notices of [ms] as errors, in
    order, and the last of them. *)
Definition errorsOf (ms : list IncomingMessage) : list error :=
  omap (fun m => if errorLike m then Some (AsError m) else None) ms.

Definition lastError (ms : list IncomingMessage) : option error :=
  last (errorsOf ms).

(** A message that adds to the resultset in force or leaves it alone. *)
Definition continues (m : IncomingMessage) : bool :=
  match m with
  | DataRowMessage _ | CommandCompleteMessage _ => true
  | _ => quiet m
  end.

(** A response in which data rows and command tags come only after a row
    description, whatever the rows hold, and nothing comes but these,
    errors, notices and session updates.  [described] tells whether a row
    description came before. *)
Fixpoint orderly (described : bool) (ms : list IncomingMessage) : bool :=
  match ms with
  | [] => true
  | RowDescriptionMessage _ :: ms' => orderly true ms'
  | DataRowMessage _ :: ms' | CommandCompleteMessage _ :: ms' =>
      described && orderly described ms'
  | m :: ms' => quiet m && orderly described ms'
  end.

(** The connection after Query wrote [sql] to the socket [s], read the
    messages [ms] and ready-for-query with [status], and left [rest]. *)
Definition answered (sql : string) (ms : list IncomingMessage) (status : byte)
  (rest : list byte) (s : Socket) (c : Connection) : Connection :=
  set_transactionStatus status
    (on_rest rest (set_outbound (outbound s ++ [QueryMessage sql]) s)
       (merge ms c)).

(** The answer to two statements in one query: a select of one row, then
    a select whose row carries two values and whose tag is missing. *)
Definition two_selects_script : list byte :=
  frameRowDescriptionN ++ frameDataRow5 ++ frameSelectComplete
    ++ frameRowDescriptionN ++ frameDataRowTwo ++ frameReadyIdle.

Definition first_select : list IncomingMessage :=
  [RowDescriptionMessage [fieldN]; DataRowMessage [Some ["5"%byte]];
   CommandCompleteMessage "SELECT 1"].

(** ** Frames on the wire *)

(** The stream starts with frames of the given tags and bodies and goes
    on with [rest]: a frame is its tag, four bytes that give the length
    of the body plus four, and the body. *)
Inductive framed : list byte -> list (byte * list byte) -> list byte -> Prop :=
| framed_nil inp : framed inp [] inp
| framed_cons t lf body mid fs rest n :
    length lf = 4%nat -> unpackUint32 lf = Ret n -> len body = n - 4 ->
    framed mid fs rest ->
    framed (t :: lf ++ body ++ mid) ((t, body) :: fs) rest.

(** [body] is the body of a data row with the count bytes [c0 c1] that
    holds the values [vs], as many as the count bytes say. *)
Definition dataRow_wire (c0 c1 : byte) (vs : list (option (list byte)))
  (body : list byte) : Prop :=
  exists bvs,
    body = c0 :: c1 :: bvs /\ values_wire vs bvs /\ bigEndian16 c0 c1 = len vs.

(** A message that closes or annotates a result and adds no row. *)
Definition closing (m : IncomingMessage) : bool :=
  match m with
  | CommandCompleteMessage _ => true
  | _ => quiet m
  end.

(** The parse function of the tag [t] decodes [body] to [m] without an
    error. *)
Definition decodes (t : byte) (body : list byte) (m : IncomingMessage) : Prop :=
  exists factoryMethod,
    messageFactoryMethods !! t = Some factoryMethod /\
    factoryMethod body = Ret (m, None).

(** The field of [frameRowDescriptionN] on the wire. *)
Definition wireN : FieldWire :=
  {| wName := bytes "n"; wTableOID := (x00, x00, x00, x00);
     wAttributeNumber := (x00, x00); wDataTypeOID := (x00, x00, x00, x00);
     wDataTypeSize := (x00, x00); wTypeModifier := (x00, x00, x00, x00);
     wFormatCode := (x00, x00) |}.

(** * Properties *)

(** ** The decoders *)

Lemma bind_Ret {A B} (a : A) (f : A -> outcome B) : (Ret a ≫= f) = f a.
Proof. reflexivity. Qed.

Lemma len_nonneg {A} (p : list A) : 0 <= len p.
Proof. unfold len. lia. Qed.

Lemma len_app {A} (p q : list A) : len (p ++ q) = len p + len q.
Proof. unfold len. rewrite length_app. lia. Qed.

Lemma len_cons {A} (a : A) (p : list A) : len (a :: p) = 1 + len p.
Proof. unfold len. simpl length. lia. Qed.

Lemma index_Ret (p : list byte) (i : Z) :
  0 <= i < len p -> exists b, index p i = Ret b /\ p !! Z.to_nat i = Some b.
Proof.
  intros Hi. unfold index.
  destruct (Z.leb_spec 0 i) as [_|]; [|lia].
  destruct (p !! Z.to_nat i) as [b|] eqn:E; [eauto|].
  apply lookup_ge_None in E. unfold len in Hi. lia.
Qed.

Lemma slice_from_Ret (p : list byte) (lo : Z) :
  0 <= lo <= len p -> slice_from p lo = Ret (drop (Z.to_nat lo) p).
Proof.
  intros H. unfold slice_from.
  destruct (Z.leb_spec 0 lo); [|lia].
  destruct (Z.leb_spec lo (len p)); [|lia]. reflexivity.
Qed.

Lemma slice_Ret (p : list byte) (lo hi : Z) :
  0 <= lo <= hi -> hi <= len p ->
  slice p lo hi = Ret (take (Z.to_nat (hi - lo)) (drop (Z.to_nat lo) p)).
Proof.
  intros H1 H2. unfold slice.
  destruct (Z.leb_spec 0 lo); [|lia].
  destruct (Z.leb_spec lo hi); [|lia].
  destruct (Z.leb_spec hi (len p)); [|lia]. reflexivity.
Qed.

Lemma len_drop (p : list byte) (n : Z) :
  0 <= n <= len p -> len (drop (Z.to_nat n) p) = len p - n.
Proof. intros H. unfold len in *. rewrite length_drop. lia. Qed.

Lemma strlen_string_of_list_byte (l : list byte) :
  strlen (string_of_list_byte l) = len l.
Proof.
  unfold strlen, len. f_equal.
  induction l as [|b l IH]; simpl; [reflexivity|]. f_equal. exact IH.
Qed.

(** decodeCString never panics; a string it returns, with its
    terminator, lies within the buffer. *)
Lemma decodeCString_from_spec (p : list byte) (todo : nat) (i : Z) :
  0 <= i -> i + Z.of_nat todo = len p ->
  exists s err, decodeCString_from p todo i = Ret (s, err) /\
    (err = None -> strlen s + 1 <= len p).
Proof.
  revert i. induction todo as [|todo IH]; intros i Hi Hlen; simpl.
  - eexists _, _. split; [reflexivity|]. discriminate.
  - destruct (index_Ret p i) as (b & -> & _); [lia|].
    rewrite bind_Ret. destruct (Byte.eqb b x00).
    + rewrite slice_Ret by lia. rewrite bind_Ret.
      eexists _, _. split; [reflexivity|]. intros _.
      rewrite strlen_string_of_list_byte. unfold len in *.
      rewrite length_take, length_drop. lia.
    + apply IH; lia.
Qed.

Lemma decodeCString_spec (p : list byte) :
  exists s err, decodeCString p = Ret (s, err) /\
    (err = None -> strlen s + 1 <= len p).
Proof. apply decodeCString_from_spec; unfold len; lia. Qed.

Lemma unpackUint32_cons (b0 b1 b2 b3 : byte) (rest : list byte) :
  unpackUint32 (b0 :: b1 :: b2 :: b3 :: rest) = Ret (be32 b0 b1 b2 b3).
Proof. reflexivity. Qed.

Lemma unpackUint16_cons (b0 b1 : byte) (rest : list byte) :
  unpackUint16 (b0 :: b1 :: rest) = Ret (be16 b0 b1).
Proof. reflexivity. Qed.

Lemma log2_below (n a : Z) : 0 < n -> 0 <= a < 2 ^ n -> Z.log2 a < n.
Proof.
  intros Hn Ha. destruct (Z.eq_dec a 0) as [->|]; [simpl; lia|].
  apply Z.log2_lt_pow2; lia.
Qed.

Lemma lor_below (n a b : Z) :
  0 < n -> 0 <= a < 2 ^ n -> 0 <= b < 2 ^ n -> 0 <= Z.lor a b < 2 ^ n.
Proof.
  intros Hn Ha Hb.
  assert (Hl : 0 <= Z.lor a b) by (apply Z.lor_nonneg; lia).
  split; [exact Hl|].
  destruct (Z.eq_dec (Z.lor a b) 0) as [E|Hne].
  - rewrite E. lia.
  - apply Z.log2_lt_pow2; [lia|].
    rewrite Z.log2_lor by lia.
    pose proof (log2_below n a Hn Ha). pose proof (log2_below n b Hn Hb). lia.
Qed.

Lemma uint32_range (z : Z) : 0 <= uint32 z < 2 ^ 32.
Proof. unfold uint32. apply Z.mod_pos_bound. lia. Qed.

Lemma uint16_range (z : Z) : 0 <= uint16 z < 2 ^ 16.
Proof. unfold uint16. apply Z.mod_pos_bound. lia. Qed.

Lemma be32_range (b0 b1 b2 b3 : byte) : 0 <= be32 b0 b1 b2 b3 < 2 ^ 32.
Proof.
  unfold be32. repeat (apply lor_below; [lia| |apply uint32_range]).
  apply uint32_range.
Qed.

Lemma be16_range (b0 b1 : byte) : 0 <= be16 b0 b1 < 2 ^ 16.
Proof.
  unfold be16. repeat (apply lor_below; [lia| |apply uint16_range]).
  apply uint16_range.
Qed.

Lemma unpackUint32_spec (p : list byte) :
  4 <= len p ->
  exists r, unpackUint32 p = Ret r /\ 0 <= r < 2 ^ 32 /\
            unpackUint32 (take 4 p) = Ret r.
Proof.
  intros H. destruct p as [|b0 [|b1 [|b2 [|b3 rest]]]];
    try (unfold len in H; simpl in H; lia).
  exists (be32 b0 b1 b2 b3). split; [reflexivity|]. split; [apply be32_range|].
  reflexivity.
Qed.

Lemma unpackUint16_spec (p : list byte) :
  2 <= len p ->
  exists r, unpackUint16 p = Ret r /\ 0 <= r < 2 ^ 16 /\
            unpackUint16 (take 2 p) = Ret r.
Proof.
  intros H. destruct p as [|b0 [|b1 rest]];
    try (unfold len in H; simpl in H; lia).
  exists (be16 b0 b1). split; [reflexivity|]. split; [apply be16_range|].
  reflexivity.
Qed.

Lemma decodeUint32_spec (p : list byte) (v : Z) :
  exists r err, decodeUint32 p v = Ret (r, err) /\
    (err = None -> 4 <= len p /\ 0 <= r < 2 ^ 32 /\ unpackUint32 p = Ret r).
Proof.
  unfold decodeUint32. destruct (Z.ltb_spec (len p) 4).
  - eexists _, _. split; [reflexivity|]. discriminate.
  - destruct (unpackUint32_spec p) as (r & E & Hr & _); [lia|].
    rewrite E, bind_Ret. eexists _, _. split; [reflexivity|]. auto.
Qed.

Lemma decodeUint16_spec (p : list byte) (v : Z) :
  exists r err, decodeUint16 p v = Ret (r, err) /\
    (err = None -> 2 <= len p /\ 0 <= r < 2 ^ 16 /\ unpackUint16 p = Ret r).
Proof.
  unfold decodeUint16. destruct (Z.ltb_spec (len p) 2).
  - eexists _, _. split; [reflexivity|]. discriminate.
  - destruct (unpackUint16_spec p) as (r & E & Hr & _); [lia|].
    rewrite E, bind_Ret. eexists _, _. split; [reflexivity|]. auto.
Qed.

Lemma decodeUint8_spec (p : list byte) (v : byte) :
  exists r err, decodeUint8 p v = Ret (r, err) /\
    (err = None -> 1 <= len p /\ p !! 0%nat = Some r).
Proof.
  unfold decodeUint8. destruct (Z.ltb_spec (len p) 1).
  - eexists _, _. split; [reflexivity|]. discriminate.
  - destruct (index_Ret p 0) as (b & E & Hb); [lia|].
    rewrite E, bind_Ret. eexists _, _. split; [reflexivity|]. auto.
Qed.

(** ** The parse functions are total *)

Lemma returns_Ret {A} (a : A) : returns (Ret a).
Proof. now exists a. Qed.

#[local] Hint Resolve returns_Ret : core.

Lemma int_id (z : Z) : - 2 ^ 63 <= z < 2 ^ 63 -> int z = z.
Proof.
  intros H. unfold int.
  rewrite Z.mod_small by lia. lia.
Qed.

(** One guarded read: slice at [off], decode, leave on error. *)
Ltac guarded_read spec body off :=
  rewrite (slice_from_Ret body off) by lia; rewrite bind_Ret;
  let r := fresh "r" in let err := fresh "err" in
  let E := fresh "E" in let H := fresh "H" in
  destruct (spec (drop (Z.to_nat off) body)) as (r & err & E & H);
  unfold orReturn at 1; rewrite E, bind_Ret;
  destruct err as [?|]; [solve [auto]|];
  specialize (H eq_refl); rewrite len_drop in H by lia.

Lemma parseCommandCompleteMessage_total (body : list byte) :
  returns (parseCommandCompleteMessage body).
Proof.
  unfold parseCommandCompleteMessage.
  destruct (decodeCString_spec body) as (s & err & -> & _).
  rewrite bind_Ret. destruct err; auto.
Qed.

Lemma parseBackendKeyDataMessage_total (body : list byte) :
  returns (parseBackendKeyDataMessage body).
Proof.
  unfold parseBackendKeyDataMessage.
  destruct (decodeUint32_spec body 0) as (pid & err & -> & H).
  rewrite bind_Ret. destruct err; [auto|]. destruct (H eq_refl) as (Hl & _).
  rewrite slice_from_Ret by lia. rewrite bind_Ret.
  destruct (decodeUint32_spec (drop (Z.to_nat 4) body) 0) as (key & err & -> & _).
  rewrite bind_Ret. destruct err; auto.
Qed.

Lemma parseParameterStatusMessage_total (body : list byte) :
  returns (parseParameterStatusMessage body).
Proof.
  unfold parseParameterStatusMessage. pose proof (len_nonneg body).
  rewrite slice_from_Ret by lia. rewrite bind_Ret.
  destruct (decodeCString_spec (drop (Z.to_nat 0) body)) as (s & err & -> & H1).
  rewrite bind_Ret. destruct err; [auto|]. specialize (H1 eq_refl).
  rewrite len_drop in H1 by lia. pose proof (Nat2Z.is_nonneg (String.length s)).
  unfold strlen in *.
  rewrite slice_from_Ret by lia. rewrite bind_Ret.
  match goal with |- context [decodeCString ?p] =>
    destruct (decodeCString_spec p) as (s2 & err & -> & _) end.
  rewrite bind_Ret. destruct err; auto.
Qed.

Lemma parseErrorResponse_loop_total (body : list byte) (fuel : nat)
  (fields : gmap byte string) (offset : Z) :
  0 <= offset <= len body -> len body - offset < Z.of_nat fuel ->
  returns (parseErrorResponse_loop fuel body fields offset).
Proof.
  revert fields offset. induction fuel as [|fuel IH]; intros fields offset Ho Hf.
  - lia.
  - cbn [parseErrorResponse_loop].
    rewrite (slice_from_Ret body offset) by lia. rewrite bind_Ret.
    destruct (decodeUint8_spec (drop (Z.to_nat offset) body) x00)
      as (t & err & -> & H).
    rewrite bind_Ret. destruct err; [auto|].
    destruct (H eq_refl) as (Hl & _). rewrite len_drop in Hl by lia.
    cbv zeta. destruct (Byte.eqb t x00); [auto|].
    rewrite slice_from_Ret by lia. rewrite bind_Ret.
    match goal with |- context [decodeCString ?p] =>
      destruct (decodeCString_spec p) as (s & err & -> & Hs) end.
    rewrite bind_Ret. destruct err; [auto|]. specialize (Hs eq_refl).
    rewrite len_drop in Hs by lia.
    pose proof (Nat2Z.is_nonneg (String.length s)). unfold strlen in *.
    apply IH; lia.
Qed.

Lemma parseErrorResponseMessage_total (body : list byte) :
  returns (parseErrorResponseMessage body).
Proof.
  apply parseErrorResponse_loop_total; pose proof (len_nonneg body);
    unfold len in *; lia.
Qed.

Lemma parseRowDescription_loop_total (body : list byte) (todo : list nat)
  (fields : list Field) (offset : Z) :
  0 <= offset <= len body ->
  returns (parseRowDescription_loop body todo fields offset).
Proof.
  revert fields offset.
  induction todo as [|i todo IH]; intros fields offset Ho; [simpl; auto|].
  cbn [parseRowDescription_loop].
  guarded_read decodeCString_spec body offset. cbv zeta.
  pose proof (Nat2Z.is_nonneg (String.length r)). unfold strlen in *.
  guarded_read (fun p => decodeUint32_spec p 0) body
    (offset + (Z.of_nat (String.length r) + 1)).
  guarded_read (fun p => decodeUint16_spec p 0) body
    (offset + (Z.of_nat (String.length r) + 1) + 4).
  guarded_read (fun p => decodeUint32_spec p 0) body
    (offset + (Z.of_nat (String.length r) + 1) + 4 + 2).
  guarded_read (fun p => decodeUint16_spec p 0) body
    (offset + (Z.of_nat (String.length r) + 1) + 4 + 2 + 4).
  guarded_read (fun p => decodeUint32_spec p 0) body
    (offset + (Z.of_nat (String.length r) + 1) + 4 + 2 + 4 + 2).
  guarded_read (fun p => decodeUint16_spec p 0) body
    (offset + (Z.of_nat (String.length r) + 1) + 4 + 2 + 4 + 2 + 4).
  apply IH. lia.
Qed.

Lemma parseRowDescriptionMessage_total (body : list byte) :
  returns (parseRowDescriptionMessage body).
Proof.
  unfold parseRowDescriptionMessage.
  destruct (decodeUint16_spec body 0) as (n & err & E & H).
  unfold orReturn. rewrite E, bind_Ret. destruct err; [auto|].
  specialize (H eq_refl). cbv zeta.
  apply parseRowDescription_loop_total. lia.
Qed.

Lemma parseDataRow_loop_total (body : list byte) (todo : list nat)
  (values : list (option (list byte))) (offset : Z) :
  len body <= maxAlloc -> 0 <= offset <= len body ->
  returns (parseDataRow_loop body (len body) todo values offset).
Proof.
  intros Hmax. revert values offset.
  induction todo as [|i todo IH]; intros values offset Ho; [simpl; auto|].
  cbn [parseDataRow_loop].
  guarded_read (fun p => decodeUint32_spec p 0) body offset. cbv zeta.
  destruct (r =? 0xffffffff); [apply IH; lia|].
  unfold maxAlloc in Hmax.
  rewrite (int_id r) by lia. rewrite (int_id (offset + 4 + r)) by lia.
  destruct (Z.gtb_spec (offset + 4 + r) (len body)); [auto|].
  rewrite slice_Ret by lia. rewrite bind_Ret. apply IH. lia.
Qed.

Lemma parseDataRowMessage_total (body : list byte) :
  len body <= maxAlloc -> returns (parseDataRowMessage body).
Proof.
  intros Hmax. unfold parseDataRowMessage.
  destruct (decodeUint16_spec body 0) as (n & err & E & H).
  unfold orReturn. rewrite E, bind_Ret. destruct err; [auto|].
  specialize (H eq_refl). cbv zeta.
  apply parseDataRow_loop_total; [exact Hmax|lia].
Qed.

(** ** Data rows on the wire *)

Lemma slice_from_app (hd tl : list byte) : slice_from (hd ++ tl) (len hd) = Ret tl.
Proof.
  rewrite slice_from_Ret by (rewrite len_app; pose proof (len_nonneg hd);
                             pose proof (len_nonneg tl); lia).
  unfold len. rewrite Nat2Z.id. now rewrite drop_app_length.
Qed.

Lemma slice_app (hd d tl : list byte) :
  slice (hd ++ d ++ tl) (len hd) (len hd + len d) = Ret d.
Proof.
  pose proof (len_nonneg hd). pose proof (len_nonneg d).
  pose proof (len_nonneg tl).
  rewrite slice_Ret by (rewrite ?len_app; lia).
  unfold len. rewrite Nat2Z.id, drop_app_length.
  replace (Z.to_nat (Z.of_nat (length hd) + Z.of_nat (length d)
                     - Z.of_nat (length hd))) with (length d) by lia.
  now rewrite take_app_length.
Qed.

Lemma unpackUint32_app (lf rest : list byte) :
  length lf = 4%nat -> unpackUint32 (lf ++ rest) = unpackUint32 lf.
Proof.
  intros H. destruct lf as [|b0 [|b1 [|b2 [|b3 [|]]]]]; try discriminate.
  reflexivity.
Qed.

Lemma unpackUint16_app (cf rest : list byte) :
  length cf = 2%nat -> unpackUint16 (cf ++ rest) = unpackUint16 cf.
Proof.
  intros H. destruct cf as [|b0 [|b1 [|]]]; try discriminate. reflexivity.
Qed.

Lemma decodeUint32_app (lf rest : list byte) (size v : Z) :
  length lf = 4%nat -> unpackUint32 lf = Ret size ->
  decodeUint32 (lf ++ rest) v = Ret (size, None).
Proof.
  intros Hl Hu. unfold decodeUint32.
  destruct (Z.ltb_spec (len (lf ++ rest)) 4) as [Hlt|_].
  - rewrite len_app in Hlt. pose proof (len_nonneg rest). unfold len in *. lia.
  - rewrite unpackUint32_app, Hu by exact Hl. reflexivity.
Qed.

Lemma decodeUint16_app (cf rest : list byte) (n v : Z) :
  length cf = 2%nat -> unpackUint16 cf = Ret n ->
  decodeUint16 (cf ++ rest) v = Ret (n, None).
Proof.
  intros Hl Hu. unfold decodeUint16.
  destruct (Z.ltb_spec (len (cf ++ rest)) 2) as [Hlt|_].
  - rewrite len_app in Hlt. pose proof (len_nonneg rest). unfold len in *. lia.
  - rewrite unpackUint16_app, Hu by exact Hl. reflexivity.
Qed.

(** The loop over a well-formed run of values stores them one by one and
    stands behind the run afterwards. *)
Lemma parseDataRow_loop_values vs bvs :
  values_wire vs bvs ->
  forall (body hd rest : list byte) (k m : nat)
         (values : list (option (list byte))),
  body = hd ++ bvs ++ rest -> len body <= maxAlloc ->
  parseDataRow_loop body (len body) (seq k (length vs + m)) values (len hd)
  = parseDataRow_loop body (len body) (seq (k + length vs) m)
      (fill k vs values) (len hd + len bvs).
Proof.
  induction 1 as [|v vs bv bvs Hv Hvs IH];
    intros body hd rest k m values Hbody Hmax.
  - simpl. rewrite Nat.add_0_r. unfold len at 4. simpl. now rewrite Z.add_0_r.
  - assert (Hnext : forall values',
      parseDataRow_loop body (len body) (seq (S k) (length vs + m))
        values' (len hd + len bv)
      = parseDataRow_loop body (len body) (seq (k + length (v :: vs)) m)
          (fill (S k) vs values') (len hd + len (bv ++ bvs))).
    { intros values'. rewrite <- len_app.
      rewrite (IH body (hd ++ bv) rest (S k) m values');
        [|now rewrite Hbody, <- !app_assoc|exact Hmax].
      rewrite !len_app. simpl length.
      replace (S k + length vs)%nat with (k + S (length vs))%nat by lia.
      now rewrite Z.add_assoc. }
    simpl length. simpl seq. cbn [parseDataRow_loop fill].
    assert (Hsl : slice_from body (len hd) = Ret (bv ++ bvs ++ rest)).
    { rewrite Hbody, <- app_assoc. apply slice_from_app. }
    rewrite Hsl, bind_Ret. unfold orReturn.
    pose proof (len_nonneg hd). pose proof (len_nonneg rest).
    pose proof (len_nonneg bvs).
    destruct Hv as [|lf d Hlf Hu Hne].
    + rewrite (decodeUint32_app [xff; xff; xff; xff] _ 0xffffffff)
        by reflexivity.
      rewrite bind_Ret. cbv zeta. change (0xffffffff =? 0xffffffff) with true.
      cbv iota. apply (Hnext (<[k:=None]> values)).
    + rewrite <- app_assoc.
      rewrite (decodeUint32_app lf _ (len d)) by assumption.
      rewrite bind_Ret. cbv zeta.
      destruct (Z.eqb_spec (len d) 0xffffffff) as [|_]; [contradiction|].
      pose proof (len_nonneg d).
      assert (Hlf' : len lf = 4) by (unfold len; rewrite Hlf; reflexivity).
      assert (Hlen : len body = len hd + 4 + len d + len bvs + len rest).
      { rewrite Hbody, !len_app. lia. }
      unfold maxAlloc in Hmax.
      rewrite (int_id (len d)) by lia.
      rewrite (int_id (len hd + 4 + len d)) by lia.
      destruct (Z.gtb_spec (len hd + 4 + len d) (len body)) as [Hgt|_]; [lia|].
      assert (Hd : slice body (len hd + 4) (len hd + 4 + len d) = Ret d).
      { rewrite Hbody, <- !app_assoc, (app_assoc hd lf).
        replace (len hd + 4) with (len (hd ++ lf)) by (rewrite len_app; lia).
        apply slice_app. }
      rewrite Hd, bind_Ret.
      replace (len hd + 4 + len d) with (len hd + len (lf ++ d))
        by (rewrite len_app; lia).
      apply (Hnext (<[k:=Some d]> values)).
Qed.

Lemma orReturn_ok {A} (msg : IncomingMessage) (a : A) (k : A -> outcome parsed) :
  orReturn msg (Ret (a, None)) k = k a.
Proof. reflexivity. Qed.

Lemma fill_replicate (vs done : list (option (list byte))) (m : nat) :
  fill (length done) vs (done ++ replicate (length vs + m) None)
  = done ++ vs ++ replicate m None.
Proof.
  revert done. induction vs as [|v vs IH]; intros done; [reflexivity|].
  cbn [fill length Nat.add replicate].
  rewrite insert_app_r_alt by lia. rewrite Nat.sub_diag. cbn [insert list_insert].
  replace (S (length done)) with (length (done ++ [v]))
    by (rewrite length_app; simpl; lia).
  replace (done ++ v :: replicate (length vs + m) None)
    with ((done ++ [v]) ++ replicate (length vs + m) None)
    by now rewrite <- app_assoc.
  rewrite IH. now rewrite <- app_assoc.
Qed.

(** A well-formed data row decodes to its values, NULLs included. *)
Lemma parseDataRowMessage_values (cf bvs rest : list byte)
  (vs : list (option (list byte))) :
  length cf = 2%nat -> unpackUint16 cf = Ret (len vs) ->
  values_wire vs bvs -> len (cf ++ bvs ++ rest) <= maxAlloc ->
  parseDataRowMessage (cf ++ bvs ++ rest) = Ret (DataRowMessage vs, None).
Proof.
  intros Hcf Hn Hvs Hmax. unfold parseDataRowMessage, orReturn.
  rewrite (decodeUint16_app cf _ (len vs)) by assumption.
  rewrite bind_Ret. cbv beta iota zeta.
  replace (Z.to_nat (len vs)) with (length vs) by (unfold len; lia).
  rewrite length_replicate.
  replace 2 with (len cf) by (unfold len; rewrite Hcf; reflexivity).
  replace (length vs) with (length vs + 0)%nat at 1 by lia.
  rewrite (parseDataRow_loop_values vs bvs Hvs _ cf rest 0 0 _ eq_refl Hmax).
  simpl seq. cbn [parseDataRow_loop].
  pose proof (fill_replicate vs [] 0) as F. simpl in F.
  rewrite Nat.add_0_r in F. rewrite F. now rewrite app_nil_r.
Qed.

(** A value whose declared length reaches past the end of the body stops
    the decoding with the truncation error. *)
Lemma parseDataRowMessage_truncated (cf bpre lf tail : list byte)
  (pre : list (option (list byte))) (n size : Z) :
  length cf = 2%nat -> unpackUint16 cf = Ret n ->
  values_wire pre bpre -> len pre < n ->
  length lf = 4%nat -> unpackUint32 lf = Ret size -> size <> 0xffffffff ->
  len tail < size ->
  len (cf ++ bpre ++ lf ++ tail) <= maxAlloc ->
  parseDataRowMessage (cf ++ bpre ++ lf ++ tail)
  = Ret (DataRowMessage (pre ++ replicate (Z.to_nat n - length pre) None),
         Some (errors_New "parseDataRowMessage: truncated message")).
Proof.
  intros Hcf Hn Hpre Hlt Hlf Hu Hne Htail Hmax.
  unfold parseDataRowMessage, orReturn.
  rewrite (decodeUint16_app cf _ n) by assumption.
  rewrite bind_Ret. cbv beta iota zeta. rewrite length_replicate.
  assert (Hm : exists m, Z.to_nat n = (length pre + S m)%nat).
  { exists (Z.to_nat n - length pre - 1)%nat. unfold len in Hlt. lia. }
  destruct Hm as (m & ->).
  replace 2 with (len cf) by (unfold len; rewrite Hcf; reflexivity).
  rewrite (parseDataRow_loop_values pre bpre Hpre _ cf (lf ++ tail) 0 (S m) _
             eq_refl Hmax).
  simpl seq. cbn [parseDataRow_loop].
  rewrite <- len_app.
  assert (Hsl : slice_from (cf ++ bpre ++ lf ++ tail) (len (cf ++ bpre))
                = Ret (lf ++ tail)).
  { rewrite app_assoc. apply slice_from_app. }
  rewrite Hsl, bind_Ret.
  rewrite (decodeUint32_app lf _ size) by assumption.
  rewrite orReturn_ok. cbv beta iota zeta.
  destruct (Z.eqb_spec size 0xffffffff) as [|_]; [contradiction|].
  assert (Hsize : 0 <= size < 2 ^ 32).
  { destruct (unpackUint32_spec lf) as (r & E & Hr & _).
    - unfold len. rewrite Hlf. reflexivity.
    - congruence. }
  pose proof (len_nonneg cf). pose proof (len_nonneg bpre).
  pose proof (len_nonneg tail).
  assert (Hlf' : len lf = 4) by (unfold len; rewrite Hlf; reflexivity).
  assert (Hlen : len (cf ++ bpre ++ lf ++ tail)
                 = len (cf ++ bpre) + 4 + len tail).
  { rewrite !len_app. lia. }
  pose proof (len_nonneg (cf ++ bpre)).
  unfold maxAlloc in Hmax. rewrite Hlen in *.
  rewrite (int_id size) by lia.
  rewrite (int_id (len (cf ++ bpre) + 4 + size)) by lia.
  destruct (Z.gtb_spec (len (cf ++ bpre) + 4 + size)
              (len (cf ++ bpre) + 4 + len tail)) as [_|Hle]; [|lia].
  pose proof (fill_replicate pre [] (S m)) as F. simpl length in F.
  rewrite app_nil_l in F. rewrite F.
  now replace (length pre + S m - length pre)%nat with (S m) by lia.
Qed.

Lemma values_wire_app vs1 b1 vs2 b2 :
  values_wire vs1 b1 -> values_wire vs2 b2 ->
  values_wire (vs1 ++ vs2) (b1 ++ b2).
Proof.
  induction 1 as [|v vs bv bvs Hv Hvs IH]; intros H2; [exact H2|].
  simpl. rewrite <- app_assoc. constructor; [exact Hv|now apply IH].
Qed.

Lemma value_wire_single v bv : value_wire v bv -> values_wire [v] bv.
Proof.
  intros H. rewrite <- (app_nil_r bv). constructor; [exact H|constructor].
Qed.

Lemma value_wire_empty : value_wire (Some []) [x00; x00; x00; x00].
Proof. now apply (wire_present [x00; x00; x00; x00] []). Qed.

(** ** The frame reader *)

Lemma M_bind_Ret {S A B} (m : M S A) (k : A -> M S B) (s s' : S) (a : A) :
  m s = (Ret a, s') -> (m ≫= k) s = k a s'.
Proof. intros H. unfold mbind, M_bind. now rewrite H. Qed.

Lemma M_bind_Panic {S A B} (m : M S A) (k : A -> M S B) (s s' : S) p :
  m s = (Panic p, s') -> (m ≫= k) s = (Panic p, s').
Proof. intros H. unfold mbind, M_bind. now rewrite H. Qed.

Lemma io_ReadFull_enough (s : Socket) (n : Z) (bs rest : list byte) :
  closed s = false -> inbound s = bs ++ rest -> len bs = n ->
  io_ReadFull n (Some s) = (Ret (bs, None), Some (set_inbound rest s)).
Proof.
  intros Hc Hi Hn. unfold io_ReadFull. rewrite Hc, Hi.
  pose proof (len_nonneg rest).
  destruct (Z.leb_spec n (len (bs ++ rest))) as [_|Hlt];
    [|rewrite len_app in Hlt; lia].
  subst n. unfold len. rewrite Nat2Z.id.
  now rewrite take_app_length, drop_app_length.
Qed.

Lemma receiveMessage_header (s : Socket) (t : byte) (lf rest : list byte) (n : Z)
 :
  closed s = false -> inbound s = t :: lf ++ rest ->
  length lf = 4%nat -> unpackUint32 lf = Ret n ->
  receiveMessage (Some s)
  = (if 4 <=? n then
       '(messageContent, err) ←
          (if 4 <? n then io_ReadFull (uint32 (n - 4))
           else mret (replicate (Z.to_nat (uint32 (n - 4))) x00, None));
        match err with
        | Some e => mret (None, Some e)
        | None =>
            match messageFactoryMethods !! t with
            | None => panic (PanicString (UnknownMessageType t))
            | Some factoryMethod =>
                '(msg, err) ← pure (factoryMethod messageContent);
                mret (Some msg, err)
            end
        end
      else
        mret (None, Some (errors_New "A message should be at least 4 bytes long")))
    (Some (set_inbound rest s)).
Proof.
  intros Hc Hi Hlf Hu.
  destruct lf as [|b0 [|b1 [|b2 [|b3 [|]]]]]; try discriminate.
  unfold receiveMessage, io_ReadAtLeast.
  erewrite M_bind_Ret;
    [|apply (io_ReadFull_enough s 5 [t; b0; b1; b2; b3] rest Hc Hi eq_refl)].
  cbv beta iota.
  rewrite (M_bind_Ret _ _ _ (Some (set_inbound rest s)) t) by reflexivity.
  rewrite (M_bind_Ret _ _ _ (Some (set_inbound rest s)) [b0; b1; b2; b3])
    by reflexivity.
  rewrite (M_bind_Ret _ _ _ (Some (set_inbound rest s)) n)
    by (unfold pure; now rewrite Hu).
  reflexivity.
Qed.

Lemma unpackUint32_range (lf : list byte) (n : Z) :
  unpackUint32 lf = Ret n -> length lf = 4%nat -> 0 <= n < 2 ^ 32.
Proof.
  intros Hu Hl. destruct (unpackUint32_spec lf) as (r & E & Hr & _).
  - unfold len. rewrite Hl. reflexivity.
  - congruence.
Qed.

(** A declared length below four: the reader fails after the header. *)
Lemma receiveMessage_too_short (s : Socket) (t : byte) (lf rest : list byte)
  (n : Z) :
  closed s = false -> inbound s = t :: lf ++ rest ->
  length lf = 4%nat -> unpackUint32 lf = Ret n -> n < 4 ->
  receiveMessage (Some s)
  = (Ret (None, Some (errors_New "A message should be at least 4 bytes long")),
     Some (set_inbound rest s)).
Proof.
  intros Hc Hi Hlf Hu Hn.
  rewrite (receiveMessage_header s t lf rest n Hc Hi Hlf Hu).
  destruct (Z.leb_spec 4 n); [lia|reflexivity].
Qed.

Lemma receiveMessage_body (s : Socket) (t : byte) (lf body rest : list byte)
  (n : Z) :
  closed s = false -> inbound s = t :: lf ++ body ++ rest ->
  length lf = 4%nat -> unpackUint32 lf = Ret n -> len body = n - 4 ->
  receiveMessage (Some s)
  = match messageFactoryMethods !! t with
    | None => (Panic (PanicString (UnknownMessageType t)),
               Some (set_inbound rest s))
    | Some factoryMethod =>
        (deliver (factoryMethod body), Some (set_inbound rest s))
    end.
Proof.
  intros Hc Hi Hlf Hu Hb.
  rewrite (receiveMessage_header s t lf (body ++ rest) n Hc Hi Hlf Hu).
  pose proof (unpackUint32_range lf n Hu Hlf) as Hr.
  pose proof (len_nonneg body).
  destruct (Z.leb_spec 4 n); [|lia].
  assert (Hw : uint32 (n - 4) = n - 4)
    by (unfold uint32; apply Z.mod_small; lia).
  rewrite Hw.
  assert (Hread :
    (if 4 <? n then io_ReadFull (n - 4)
     else mret (replicate (Z.to_nat (n - 4)) x00, None))
      (Some (set_inbound (body ++ rest) s))
    = (Ret (body, None), Some (set_inbound rest s))).
  { destruct (Z.ltb_spec 4 n).
    - rewrite (io_ReadFull_enough _ (n - 4) body rest); auto.
    - assert (n = 4) by lia. subst n.
      destruct body; [|unfold len in Hb; simpl in Hb; lia].
      reflexivity. }
  rewrite (M_bind_Ret _ _ _ _ _ Hread). cbv beta iota.
  destruct (messageFactoryMethods !! t) as [f|]; [|reflexivity].
  unfold deliver, mbind, M_bind, pure, outcome_bind.
  destruct (f body) as [[msg err]| |]; reflexivity.
Qed.

(** A whole frame with a recognised tag: its body, of the declared length
    less four, goes to the tag's parse function. *)
Lemma receiveMessage_frame (s : Socket) (t : byte) (lf body rest : list byte)
  (n : Z) (factoryMethod : messageFactoryMethod) :
  closed s = false -> inbound s = t :: lf ++ body ++ rest ->
  length lf = 4%nat -> unpackUint32 lf = Ret n -> len body = n - 4 ->
  messageFactoryMethods !! t = Some factoryMethod ->
  receiveMessage (Some s)
  = (deliver (factoryMethod body), Some (set_inbound rest s)).
Proof.
  intros Hc Hi Hlf Hu Hb Hf.
  rewrite (receiveMessage_body s t lf body rest n) by assumption.
  unfold messageFactoryMethod in *. now rewrite Hf.
Qed.

(** A whole frame with a tag outside the table: the reader panics with a
    string. *)
Lemma receiveMessage_unknown (s : Socket) (t : byte) (lf body rest : list byte)
  (n : Z) :
  closed s = false -> inbound s = t :: lf ++ body ++ rest ->
  length lf = 4%nat -> unpackUint32 lf = Ret n -> len body = n - 4 ->
  messageFactoryMethods !! t = None ->
  receiveMessage (Some s)
  = (Panic (PanicString (UnknownMessageType t)), Some (set_inbound rest s)).
Proof.
  intros Hc Hi Hlf Hu Hb Hf.
  rewrite (receiveMessage_body s t lf body rest n) by assumption.
  unfold messageFactoryMethod in *. now rewrite Hf.
Qed.

Lemma messageFactoryMethods_None (t : byte) :
  messageFactoryMethods !! t = None <-> t ∉ recognized.
Proof.
  unfold messageFactoryMethods. rewrite <- not_elem_of_list_to_map.
  reflexivity.
Qed.

(** ** What a read can end with *)

Lemma set_inbound_id (s : Socket) : set_inbound (inbound s) s = s.
Proof. now destruct s. Qed.

Lemma io_ReadFull_inv (s : Socket) (n : Z) :
  exists buf err rest,
    io_ReadFull n (Some s) = (Ret (buf, err), Some (set_inbound rest s)) /\
    (length rest <= length (inbound s))%nat /\
    (err = None ->
       closed s = false /\ buf = take (Z.to_nat n) (inbound s) /\
       inbound s = buf ++ rest /\ n <= len (inbound s)).
Proof.
  unfold io_ReadFull. destruct (closed s) eqn:Hc.
  - exists (replicate (Z.to_nat n) x00), (Some net_ErrClosed), (inbound s).
    rewrite set_inbound_id. split; [reflexivity|]. split; [lia|discriminate].
  - destruct (Z.leb_spec n (len (inbound s))).
    + eexists _, None, _. split; [reflexivity|].
      rewrite length_drop. split; [lia|]. intros _.
      now rewrite take_drop.
    + eexists _, (Some _), []. split; [reflexivity|].
      split; [simpl; lia|discriminate].
Qed.

Lemma parseAuthenticationRequestMessage_total (body : list byte) :
  returns (parseAuthenticationRequestMessage body).
Proof.
  unfold parseAuthenticationRequestMessage.
  destruct (decodeUint32_spec body 0) as (r & err & -> & _).
  rewrite bind_Ret. auto.
Qed.

Lemma parseReadyForQueryMessage_total (body : list byte) :
  returns (parseReadyForQueryMessage body).
Proof.
  unfold parseReadyForQueryMessage.
  destruct (decodeUint8_spec body x00) as (r & err & -> & _).
  rewrite bind_Ret. auto.
Qed.

(** Every parse function of the table returns on a body a frame can
    carry. *)
Lemma messageFactoryMethods_total (t : byte) (f : messageFactoryMethod)
  (body : list byte) :
  messageFactoryMethods !! t = Some f -> len body <= maxAlloc ->
  returns (f body).
Proof.
  intros Hf Hmax. unfold messageFactoryMethods in Hf.
  apply elem_of_list_to_map_2 in Hf.
  repeat (apply elem_of_cons in Hf as [Hf|Hf]; [inversion Hf; subst|]).
  - apply parseAuthenticationRequestMessage_total.
  - apply parseReadyForQueryMessage_total.
  - apply parseErrorResponseMessage_total.
  - now eexists.
  - apply parseParameterStatusMessage_total.
  - apply parseBackendKeyDataMessage_total.
  - apply parseRowDescriptionMessage_total.
  - apply parseCommandCompleteMessage_total.
  - now apply parseDataRowMessage_total.
  - now apply elem_of_nil in Hf.
Qed.

(** What a call of the frame reader can end with, by whether the socket is
    closed and what its stream holds: the stream only gets shorter; a
    result without error is a message and has cost its header; the only
    panic is that of the unknown tag. *)
Lemma receiveMessage_cases (cl : bool) (inp : list byte) :
  exists r rest,
    (forall s, closed s = cl -> inbound s = inp ->
       receiveMessage (Some s) = (r, Some (set_inbound rest s))) /\
    (length rest <= length inp)%nat /\
    match r with
    | Ret (msg, None) =>
        is_Some msg /\ cl = false /\ (length rest + 5 <= length inp)%nat
    | Ret (msg, Some _) => True
    | Panic p => exists t, p = PanicString (UnknownMessageType t) /\
                           messageFactoryMethods !! t = None
    | OutOfFuel => False
    end.
Proof.
  destruct cl.
  { exists (Ret (None, Some net_ErrClosed)), inp.
    split; [|split; [lia|auto]]. intros s Hc Hi.
    rewrite <- Hi, set_inbound_id. unfold receiveMessage, io_ReadAtLeast.
    rewrite (M_bind_Ret _ _ _ (Some s)
               (replicate (Z.to_nat 5) x00, Some net_ErrClosed));
      [reflexivity|].
    unfold io_ReadFull. now rewrite Hc. }
  destruct (Z.leb_spec 5 (len inp)) as [H5|H5].
  2: { set (e := match inp with [] => io_EOF | _ => io_ErrUnexpectedEOF end).
       exists (Ret (None, Some e)), [].
       split; [|split; [simpl; lia|auto]]. intros s Hc Hi.
       unfold receiveMessage, io_ReadAtLeast.
       rewrite (M_bind_Ret _ _ _ (Some (set_inbound [] s))
                  (inp ++ replicate (Z.to_nat 5 - length inp) x00, Some e));
         [reflexivity|].
       unfold io_ReadFull. rewrite Hc, Hi.
       destruct (Z.leb_spec 5 (len inp)); [lia|reflexivity]. }
  destruct inp as [|t [|b0 [|b1 [|b2 [|b3 rest]]]]];
    try (unfold len in H5; simpl in H5; lia).
  pose proof (fun s Hc Hi => receiveMessage_header s t [b0; b1; b2; b3] rest
                (be32 b0 b1 b2 b3) Hc Hi eq_refl eq_refl) as Hh.
  pose proof (be32_range b0 b1 b2 b3) as Hr.
  set (n := be32 b0 b1 b2 b3) in *.
  destruct (Z.leb_spec 4 n) as [H4|H4].
  2: { eexists (Ret (None, Some _)), rest. split; [exact Hh|].
       split; [simpl; lia|auto]. }
  assert (Hw : uint32 (n - 4) = n - 4)
    by (unfold uint32; apply Z.mod_small; lia).
  rewrite Hw in Hh.
  assert (Hread : exists buf err rest',
    (forall s, closed s = false ->
      (if 4 <? n then io_ReadFull (n - 4)
       else mret (replicate (Z.to_nat (n - 4)) x00, None))
        (Some (set_inbound rest s))
      = (Ret (buf, err), Some (set_inbound rest' s))) /\
    (length rest' <= length rest)%nat /\ len buf <= n - 4).
  { destruct (Z.ltb_spec 4 n) as [Hlt|Hge].
    - destruct (Z.leb_spec (n - 4) (len rest)) as [Hle|Hgt].
      + exists (take (Z.to_nat (n - 4)) rest), None,
          (drop (Z.to_nat (n - 4)) rest).
        split; [|split].
        * intros s Hc. unfold io_ReadFull. cbn [closed inbound set_inbound].
          rewrite Hc. destruct (Z.leb_spec (n - 4) (len rest)); [|lia].
          reflexivity.
        * rewrite length_drop. lia.
        * unfold len in *. rewrite length_take. lia.
      + eexists _, (Some _), []. split; [|split].
        * intros s Hc. unfold io_ReadFull. cbn [closed inbound set_inbound].
          rewrite Hc. destruct (Z.leb_spec (n - 4) (len rest)); [lia|].
          reflexivity.
        * simpl. lia.
        * unfold len in *. rewrite length_app, length_replicate. lia.
    - exists (replicate (Z.to_nat (n - 4)) x00), None, rest.
      split; [reflexivity|]. split; [lia|].
      unfold len. rewrite length_replicate. lia. }
  destruct Hread as (buf & err & rest' & E & Hlen & Hbuf).
  assert (Hh' : forall s, closed s = false -> inbound s = t :: b0 :: b1 :: b2 :: b3 :: rest ->
    receiveMessage (Some s)
    = match err with
      | Some e => mret (None, Some e)
      | None =>
          match messageFactoryMethods !! t with
          | None => panic (PanicString (UnknownMessageType t))
          | Some factoryMethod =>
              '(msg, err) ← pure (factoryMethod buf); mret (Some msg, err)
          end
      end (Some (set_inbound rest' s))).
  { intros s Hc Hi. rewrite (Hh s Hc Hi).
    destruct (Z.leb_spec 4 n); [|lia].
    now rewrite (M_bind_Ret _ _ _ _ _ (E s Hc)). }
  clear Hh E.
  destruct err as [e|].
  { eexists (Ret (None, Some e)), rest'. split; [exact Hh'|].
    split; [simpl; lia|auto]. }
  destruct (messageFactoryMethods !! t) as [f|] eqn:Hf.
  - destruct (messageFactoryMethods_total t f buf Hf) as ([msg err] & Hd).
    { unfold maxAlloc. lia. }
    unfold mbind, M_bind, pure in Hh'. rewrite Hd in Hh'.
    exists (Ret (Some msg, err)), rest'. split; [exact Hh'|].
    split; [simpl; lia|]. destruct err; [exact I|].
    split; [now eexists|]. split; [reflexivity|simpl; lia].
  - eexists (Panic _), rest'. split; [exact Hh'|].
    split; [simpl; lia|]. eauto.
Qed.

(** ** Streams of frames *)

Lemma reads_on (s : Socket) (m : IncomingMessage) (rest : list byte) :
  closed s = false -> reads (inbound s) m rest ->
  ReadMessage (Some s) = (Ret (Some m, None), Some (set_inbound rest s)).
Proof.
  intros Hc Hr. unfold reads, ReadMessage in *.
  destruct (receiveMessage_cases false (inbound s)) as (r & rest' & H & _).
  rewrite (H (stream (inbound s)) eq_refl eq_refl) in Hr.
  inversion Hr; subst. now apply H.
Qed.

Lemma reads_shorter (inp rest : list byte) (m : IncomingMessage) :
  reads inp m rest -> (length rest + 5 <= length inp)%nat.
Proof.
  intros Hr. unfold reads, ReadMessage in *.
  destruct (receiveMessage_cases false inp) as (r & rest' & H & _ & Hcase).
  rewrite (H (stream inp) eq_refl eq_refl) in Hr.
  inversion Hr; subst. tauto.
Qed.

Lemma frames_app inp ms1 mid ms2 rest :
  frames inp ms1 mid -> frames mid ms2 rest -> frames inp (ms1 ++ ms2) rest.
Proof.
  induction 1; intros H2; [exact H2|]. simpl. econstructor; eauto.
Qed.

Lemma frames_app_inv inp ms1 ms2 rest :
  frames inp (ms1 ++ ms2) rest ->
  exists mid, frames inp ms1 mid /\ frames mid ms2 rest.
Proof.
  revert inp. induction ms1 as [|m ms1 IH]; intros inp H.
  - exists inp. split; [constructor|exact H].
  - inversion H; subst. destruct (IH _ H5) as (mid' & H1 & H2).
    exists mid'. split; [econstructor; eauto|exact H2].
Qed.

(** ** The connection reads one message *)

Lemma Connection_receiveMessage_reads (c : Connection) (s : Socket)
  (m : IncomingMessage) (rest : list byte) :
  socket c = Some s -> closed s = false -> reads (inbound s) m rest ->
  Connection_receiveMessage c = (Ret (Some m), on_rest rest s c).
Proof.
  intros Hs Hc Hr. unfold Connection_receiveMessage.
  rewrite (M_bind_Ret _ _ _ (on_rest rest s c) (Some m, None)); [reflexivity|].
  unfold on_socket. rewrite Hs, (reads_on s m rest Hc Hr). reflexivity.
Qed.

Lemma sendMessage_open (c : Connection) (s : Socket) (msg : OutgoingMessage) :
  socket c = Some s -> closed s = false ->
  sendMessage msg c
  = (Ret tt, set_socket (Some (set_outbound (outbound s ++ [msg]) s)) c).
Proof.
  intros Hs Hc. unfold sendMessage.
  rewrite (M_bind_Ret _ _ _
             (set_socket (Some (set_outbound (outbound s ++ [msg]) s)) c) None);
    [reflexivity|].
  unfold on_socket, SendMessage. rewrite Hs, Hc. reflexivity.
Qed.

(** One round of the receive loop of Query on a message that is not
    ready-for-query, and the round that ends the loop. *)
Lemma Query_loop_round (fuel : nat) (c : Connection) (v : QueryVars)
  (s : Socket) (m : IncomingMessage) (rest : list byte) :
  socket c = Some s -> closed s = false -> reads (inbound s) m rest ->
  isReady m = false ->
  Query_loop (S fuel) (c, v)
  = (_ ← Query_switch (Some m); Query_loop fuel) (on_rest rest s c, v).
Proof.
  intros Hs Hc Hr Hm. cbn [Query_loop].
  rewrite (M_bind_Ret _ _ _ (on_rest rest s c, v) (Some m)).
  2: { unfold on_connection. cbn [fst snd].
       now rewrite (Connection_receiveMessage_reads c s m rest). }
  rewrite (M_bind_Ret _ _ _ (on_rest rest s c, v) false).
  2: { destruct m; try discriminate; reflexivity. }
  reflexivity.
Qed.

Lemma Query_loop_ready (fuel : nat) (c : Connection) (v : QueryVars)
  (s : Socket) (status : byte) (rest : list byte) :
  socket c = Some s -> closed s = false ->
  reads (inbound s) (ReadyForQueryMessage status) rest ->
  Query_loop (S fuel) (c, v)
  = (Ret tt, (set_transactionStatus status (on_rest rest s c), v)).
Proof.
  intros Hs Hc Hr. cbn [Query_loop].
  rewrite (M_bind_Ret _ _ _ (on_rest rest s c, v)
             (Some (ReadyForQueryMessage status))).
  2: { unfold on_connection. cbn [fst snd].
       now rewrite (Connection_receiveMessage_reads c s
                      (ReadyForQueryMessage status) rest). }
  reflexivity.
Qed.

(** ** The receive loop of Query over a run of frames *)

Lemma set_socket_id (c : Connection) (s : Socket) :
  socket c = Some s -> on_rest (inbound s) s c = c.
Proof.
  intros H. unfold on_rest. rewrite set_inbound_id. destruct c; simpl in *.
  now subst.
Qed.

(** The switch neither reads nor writes the socket. *)
Lemma Query_switch_socket (msg : option IncomingMessage) (w : option Socket)
  (c : Connection) (v : QueryVars) :
  Query_switch msg (set_socket w c, v)
  = let '(r, (c', v')) := Query_switch msg (c, v) in (r, (set_socket w c', v')).
Proof.
  destruct msg as [[]|]; try reflexivity;
    unfold Query_switch, mbind, M_bind, get_resultset; cbn [snd fst];
    destruct (resultset v); reflexivity.
Qed.

Lemma Query_switches_socket (ms : list IncomingMessage) (w : option Socket)
  (c : Connection) (v : QueryVars) :
  Query_switches ms (set_socket w c, v)
  = let '(r, (c', v')) := Query_switches ms (c, v) in (r, (set_socket w c', v')).
Proof.
  revert c v. induction ms as [|m ms IH]; intros c v; [reflexivity|].
  cbn [Query_switches]. unfold mbind, M_bind.
  rewrite Query_switch_socket.
  destruct (Query_switch (Some m) (c, v)) as [[[]| |] [c' v']];
    [|reflexivity..].
  apply IH.
Qed.

Lemma Query_loop_frames inp ms rest :
  frames inp ms rest -> Forall (fun m => isReady m = false) ms ->
  forall (fuel : nat) (c c1 : Connection) (v v1 : QueryVars) (s : Socket),
  socket c = Some s -> closed s = false -> inbound s = inp ->
  (length inp < fuel)%nat ->
  Query_switches ms (c, v) = (Ret tt, (c1, v1)) ->
  exists fuel', (length rest < fuel')%nat /\
    Query_loop fuel (c, v) = Query_loop fuel' (on_rest rest s c1, v1).
Proof.
  induction 1 as [inp|inp m mid ms rest Hr Hfr IH];
    intros Hms fuel c c1 v v1 s Hs Hc Hi Hfuel Hsw.
  - inversion Hsw; subst. exists fuel. split; [exact Hfuel|].
    now rewrite set_socket_id.
  - inversion Hms as [|? ? Hm Hms']; subst.
    pose proof (reads_shorter _ _ _ Hr) as Hshort.
    destruct fuel as [|fuel]; [lia|].
    rewrite (Query_loop_round fuel c v s m mid Hs Hc Hr Hm).
    cbn [Query_switches] in Hsw. unfold mbind, M_bind in Hsw |- *.
    unfold on_rest at 1. rewrite Query_switch_socket.
    destruct (Query_switch (Some m) (c, v)) as [[[]| |] [c2 v2]];
      try discriminate.
    destruct (IH Hms' fuel (on_rest mid s c2) (on_rest mid s c1) v2 v1
                (set_inbound mid s)) as (fuel' & Hf' & E);
      [reflexivity|exact Hc|reflexivity|lia| |].
    + unfold on_rest. rewrite Query_switches_socket. now rewrite Hsw.
    + exists fuel'. split; [exact Hf'|]. exact E.
Qed.

(** Query on a response that the switch goes through without a panic and
    that ends with ready-for-query. *)
Lemma Query_frames (sql : string) (c c1 : Connection) (s : Socket)
  (ms : list IncomingMessage) (status : byte) (rest : list byte)
  (v1 : QueryVars) :
  socket c = Some s -> closed s = false ->
  frames (inbound s) (ms ++ [ReadyForQueryMessage status]) rest ->
  Forall (fun m => isReady m = false) ms ->
  Query_switches ms (c, noVars) = (Ret tt, (c1, v1)) ->
  Query sql c
  = (Ret (resultset v1, queryError v1),
     set_transactionStatus status
       (on_rest rest (set_outbound (outbound s ++ [QueryMessage sql]) s) c1)).
Proof.
  intros Hs Hc Hfr Hms Hsw.
  apply frames_app_inv in Hfr as (mid & Hfr & Hlast).
  inversion Hlast as [|? ? ? ? ? Hr Hnil]; subst. inversion Hnil; subst.
  set (s1 := set_outbound (outbound s ++ [QueryMessage sql]) s).
  destruct (Query_loop_frames _ _ _ Hfr Hms (S (length (inbound s)))
              (set_socket (Some s1) c) (set_socket (Some s1) c1) noVars v1 s1)
    as (fuel' & Hf' & E); [reflexivity|exact Hc|reflexivity|lia| |].
  { rewrite Query_switches_socket. now rewrite Hsw. }
  destruct fuel' as [|fuel']; [lia|].
  rewrite (Query_loop_ready fuel' _ v1 (set_inbound mid s1) status rest)
    in E; [|reflexivity|exact Hc|exact Hr].
  unfold Query, Query_body.
  rewrite (M_bind_Ret _ _ _ (set_socket (Some s1) c, noVars) tt).
  2: { unfold on_connection. cbn [fst snd].
       now rewrite (sendMessage_open c s _ Hs Hc). }
  unfold reading. cbn [fst]. unfold rounds. cbn [socket set_socket].
  cbn [inbound s1 set_outbound]. rewrite E. reflexivity.
Qed.

(** ** Server errors inside a query cycle *)

Lemma Query_switches_app (a b : list IncomingMessage) (st st' : QueryState) :
  Query_switches a st = (Ret tt, st') ->
  Query_switches (a ++ b) st = Query_switches b st'.
Proof.
  revert st. induction a as [|m a IH]; intros st H.
  - inversion H. reflexivity.
  - cbn [Query_switches app] in *. unfold mbind, M_bind in *.
    destruct (Query_switch (Some m) st) as [[[]| |] st2]; try discriminate.
    now apply IH.
Qed.

Lemma Query_switches_stateless (ms : list IncomingMessage) (c : Connection)
  (v : QueryVars) :
  forallb stateless ms = true ->
  Query_switches ms (c, v) = (Ret tt, (merge ms c, v)).
Proof.
  revert c. induction ms as [|m ms IH]; intros c H; [reflexivity|].
  cbn [forallb] in H. apply andb_prop in H as [Hm Hms].
  cbn [Query_switches]. unfold merge. cbn [fold_left].
  destruct m; try discriminate; apply (IH _ Hms).
Qed.

Lemma stateless_not_ready (ms : list IncomingMessage) :
  forallb stateless ms = true -> Forall (fun m => isReady m = false) ms.
Proof.
  induction ms as [|m ms IH]; intros H; [constructor|].
  cbn [forallb] in H. apply andb_prop in H as [Hm Hms].
  constructor; [|auto]. now destruct m.
Qed.

Lemma Query_ready (sql : string) (c : Connection) (s : Socket) (status : byte)
  (rest : list byte) :
  socket c = Some s -> closed s = false ->
  frames (inbound s) [ReadyForQueryMessage status] rest ->
  Query sql c
  = (Ret (None, None),
     set_transactionStatus status
       (on_rest rest (set_outbound (outbound s ++ [QueryMessage sql]) s) c)).
Proof.
  intros Hs Hc Hfr.
  apply (Query_frames sql c c s [] status rest noVars Hs Hc Hfr);
    [constructor|reflexivity].
Qed.

(** ** Teardown *)

Lemma Close_cases (c : Connection) :
  exists err c',
    Close c = (Ret err, c') /\ torn c' /\
    transactionStatus c' = transactionStatus c /\
    (torn c -> err <> None).
Proof.
  destruct c as [[s|] params pid key status];
    [destruct s as [[] inp out sec hs]|];
    (eexists _, _; split; [reflexivity|]); unfold torn; cbn;
    repeat split; auto; try discriminate.
  intros (Ht & _). discriminate.
Qed.

(** From a panic of the body, Query closes the connection and hands the
    panic value on as the error, if it is one. *)
Lemma Query_recovers (sql : string) (c c1 : Connection) (v1 : QueryVars)
  (p : PanicValue) :
  Query_body sql (c, noVars) = (Panic p, (c1, v1)) ->
  exists c',
    Query sql c = (e ← asError p; Ret (resultset v1, Some e), c') /\
    torn c' /\ transactionStatus c' = transactionStatus c1.
Proof.
  intros Hb. unfold Query. rewrite Hb.
  destruct (Close_cases c1) as (err & c' & -> & Ht & Hts & _).
  exists c'. auto.
Qed.

Lemma Query_body_torn (sql : string) (c : Connection) :
  torn c ->
  exists e, Query_body sql (c, noVars) = (Panic (PanicError e), (c, noVars)).
Proof.
  intros (Hsock & _). unfold Query_body, on_connection, sendMessage, on_socket,
    SendMessage, mbind, M_bind. cbn [fst snd].
  destruct (socket c) as [s|] eqn:Hs.
  - rewrite Hsock. eexists. cbn. f_equal. f_equal.
    destruct c; cbn in *. now subst.
  - eexists. cbn. f_equal. f_equal. destruct c; cbn in *. now subst.
Qed.

(** On a connection that was torn down, Query and Close report an error. *)
Lemma Query_torn (sql : string) (c : Connection) :
  torn c ->
  exists e c', Query sql c = (Ret (None, Some e), c') /\ torn c'.
Proof.
  intros Ht. destruct (Query_body_torn sql c Ht) as (e & Hb).
  destruct (Query_recovers sql c c noVars _ Hb) as (c' & HQ & Ht' & _).
  exists e, c'. split; [exact HQ|exact Ht'].
Qed.

Lemma Close_torn (c : Connection) :
  torn c -> exists e c', Close c = (Ret (Some e), c') /\ torn c'.
Proof.
  intros Ht. destruct (Close_cases c) as (err & c' & E & Ht' & _ & Herr).
  destruct err as [e|]; [|now destruct (Herr Ht)].
  now exists e, c'.
Qed.

(** ** Panics inside the receive loop *)

Lemma Query_switches_quiet (ms : list IncomingMessage) (c : Connection)
  (v : QueryVars) :
  forallb quiet ms = true ->
  exists v1, Query_switches ms (c, v) = (Ret tt, (merge ms c, v1)) /\
             resultset v1 = resultset v.
Proof.
  revert c v. induction ms as [|m ms IH]; intros c v H.
  - exists v. split; reflexivity.
  - cbn [forallb] in H. apply andb_prop in H as [Hm Hms].
    cbn [Query_switches]. unfold merge. cbn [fold_left].
    destruct m; try discriminate.
    + destruct (IH c {| resultset := resultset v;
                        queryError := Some (AsError (ErrorResponseMessage fields)) |}
                  Hms) as (v1 & E & Hr).
      exists v1. split; [exact E|exact Hr].
    + destruct (IH c {| resultset := resultset v;
                        queryError := Some (AsError EmptyQueryMessage) |}
                  Hms) as (v1 & E & Hr).
      exists v1. split; [exact E|exact Hr].
    + apply (IH _ v Hms).
    + apply (IH _ v Hms).
Qed.

Lemma quiet_not_ready (ms : list IncomingMessage) :
  forallb quiet ms = true -> Forall (fun m => isReady m = false) ms.
Proof.
  induction ms as [|m ms IH]; intros H; [constructor|].
  cbn [forallb] in H. apply andb_prop in H as [Hm Hms].
  constructor; [|auto]. now destruct m.
Qed.

(** The body of Query when the switch panics on the message after [ms]. *)
Lemma Query_body_switch_panic (sql : string) (c c1 c2 : Connection)
  (s : Socket) (ms : list IncomingMessage) (m : IncomingMessage)
  (rest : list byte) (v1 v2 : QueryVars) (p : PanicValue) :
  socket c = Some s -> closed s = false ->
  frames (inbound s) (ms ++ [m]) rest ->
  Forall (fun m => isReady m = false) (ms ++ [m]) ->
  Query_switches ms (c, noVars) = (Ret tt, (c1, v1)) ->
  Query_switch (Some m) (c1, v1) = (Panic p, (c2, v2)) ->
  Query_body sql (c, noVars)
  = (Panic p,
     (on_rest rest (set_outbound (outbound s ++ [QueryMessage sql]) s) c2, v2)).
Proof.
  intros Hs Hc Hfr Hnr Hsw Hp.
  apply frames_app_inv in Hfr as (mid & Hfr & Hlast).
  inversion Hlast as [|? ? ? ? ? Hr Hnil]; subst. inversion Hnil; subst.
  apply Forall_app in Hnr as [Hms Hm]. inversion Hm as [|? ? Hm' _]; subst.
  set (s1 := set_outbound (outbound s ++ [QueryMessage sql]) s).
  destruct (Query_loop_frames _ _ _ Hfr Hms (S (length (inbound s)))
              (set_socket (Some s1) c) (set_socket (Some s1) c1) noVars v1 s1)
    as (fuel' & Hf' & E); [reflexivity|exact Hc|reflexivity|lia| |].
  { rewrite Query_switches_socket. now rewrite Hsw. }
  destruct fuel' as [|fuel']; [lia|].
  rewrite (Query_loop_round fuel' _ v1 (set_inbound mid s1) m rest)
    in E; [|reflexivity|exact Hc|exact Hr|exact Hm'].
  unfold on_rest in E at 2. rewrite (M_bind_Panic _ _ _ (on_rest rest s1 c2, v2) p)
    in E.
  2: { unfold on_rest. rewrite !Query_switch_socket. now rewrite Hp. }
  unfold Query_body.
  rewrite (M_bind_Ret _ _ _ (set_socket (Some s1) c, noVars) tt).
  2: { unfold on_connection. cbn [fst snd].
       now rewrite (sendMessage_open c s _ Hs Hc). }
  unfold reading. cbn [fst]. unfold rounds. cbn [socket set_socket].
  cbn [inbound s1 set_outbound]. exact E.
Qed.

(** The body of Query when the frame after [ms] carries an unknown tag. *)
Lemma Query_body_unknown_tag (sql : string) (c c1 : Connection) (s : Socket)
  (ms : list IncomingMessage) (t : byte) (lf body rest : list byte) (n : Z)
  (v1 : QueryVars) :
  socket c = Some s -> closed s = false ->
  frames (inbound s) ms (t :: lf ++ body ++ rest) ->
  Forall (fun m => isReady m = false) ms ->
  Query_switches ms (c, noVars) = (Ret tt, (c1, v1)) ->
  length lf = 4%nat -> unpackUint32 lf = Ret n -> len body = n - 4 ->
  messageFactoryMethods !! t = None ->
  Query_body sql (c, noVars)
  = (Panic (PanicString (UnknownMessageType t)),
     (on_rest rest (set_outbound (outbound s ++ [QueryMessage sql]) s) c1, v1)).
Proof.
  intros Hs Hc Hfr Hms Hsw Hlf Hu Hb Ht.
  set (s1 := set_outbound (outbound s ++ [QueryMessage sql]) s).
  destruct (Query_loop_frames _ _ _ Hfr Hms (S (length (inbound s)))
              (set_socket (Some s1) c) (set_socket (Some s1) c1) noVars v1 s1)
    as (fuel' & Hf' & E); [reflexivity|exact Hc|reflexivity|lia| |].
  { rewrite Query_switches_socket. now rewrite Hsw. }
  destruct fuel' as [|fuel']; [simpl in Hf'; lia|].
  unfold Query_body.
  rewrite (M_bind_Ret _ _ _ (set_socket (Some s1) c, noVars) tt).
  2: { unfold on_connection. cbn [fst snd].
       now rewrite (sendMessage_open c s _ Hs Hc). }
  unfold reading. cbn [fst]. unfold rounds. cbn [socket set_socket].
  cbn [inbound s1 set_outbound]. rewrite E.
  cbn [Query_loop].
  apply M_bind_Panic. unfold on_connection. cbn [fst snd].
  unfold Connection_receiveMessage.
  erewrite M_bind_Panic; [reflexivity|].
  unfold on_socket, on_rest. cbn [socket set_socket]. unfold ReadMessage.
  rewrite (receiveMessage_unknown (set_inbound (t :: lf ++ body ++ rest) s1)
             t lf body rest n Hc eq_refl Hlf Hu Hb Ht).
  reflexivity.
Qed.

(** ** The handshake *)

Lemma initConnection_loop_read (fuel : nat) (info : ConnectionInfo)
  (c : Connection) (s : Socket) (m : IncomingMessage) (rest : list byte) :
  socket c = Some s -> closed s = false -> reads (inbound s) m rest ->
  initConnection_loop (S fuel) info c
  = (ready ← isReadyForQuery (Some m);
     if ready : bool then mret tt
     else
       _ ← match m with
           | AuthenticationRequestMessage code _ =>
               if code =? AuthenticationOK then mret tt
               else if code =? AuthenticationCleartextPassword then
                 sendMessage (PasswordMessage (Password info) code)
               else panic (PanicError AuthenticationMethodNotSupported)
           | ErrorResponseMessage fields =>
               panic (PanicError (AsError (ErrorResponseMessage fields)))
           | _ => handleStatelessMessage (Some m)
           end;
       initConnection_loop fuel info) (on_rest rest s c).
Proof.
  intros Hs Hc Hr. cbn [initConnection_loop].
  rewrite (M_bind_Ret _ _ _ (on_rest rest s c) (Some m))
    by now apply Connection_receiveMessage_reads.
  destruct m; reflexivity.
Qed.

Lemma initConnection_loop_unknown (fuel : nat) (info : ConnectionInfo)
  (c : Connection) (s : Socket) (t : byte) (lf body rest : list byte) (n : Z) :
  socket c = Some s -> closed s = false ->
  inbound s = t :: lf ++ body ++ rest ->
  length lf = 4%nat -> unpackUint32 lf = Ret n -> len body = n - 4 ->
  messageFactoryMethods !! t = None ->
  initConnection_loop (S fuel) info c
  = (Panic (PanicString (UnknownMessageType t)), on_rest rest s c).
Proof.
  intros Hs Hc Hi Hlf Hu Hb Ht. cbn [initConnection_loop].
  apply M_bind_Panic. unfold Connection_receiveMessage.
  erewrite M_bind_Panic; [reflexivity|].
  unfold on_socket, on_rest, ReadMessage. rewrite Hs.
  now rewrite (receiveMessage_unknown s t lf body rest n Hc Hi Hlf Hu Hb Ht).
Qed.

(** Connect without TLS on a socket the network hands out. *)
Lemma Connect_body_plain (net_Dial : Network) (info : ConnectionInfo)
  (s : Socket) :
  net_Dial (Address info) = inl s -> SslConfig info = None ->
  closed s = false ->
  let sent := set_outbound
                (outbound s ++ [StartupMessage (User info) (Database info)]) s in
  Connect_body net_Dial info zeroConnection
  = initConnection_loop (S (length (inbound s))) info
      (set_socket (Some sent) zeroConnection).
Proof.
  intros Hd Hssl Hc sent. unfold Connect_body. rewrite Hd, Hssl.
  unfold mbind, M_bind, modify, mret, M_ret, initConnection. cbn [fst snd].
  unfold mbind, M_bind.
  rewrite (sendMessage_open
             (set_parameters ∅ (set_socket (Some s) zeroConnection)) s _
             eq_refl Hc).
  reflexivity.
Qed.

(** ** The receive loops never run out of fuel *)

Lemma Connection_receiveMessage_cases (c : Connection) :
  exists r c',
    Connection_receiveMessage c = (r, c') /\
    match r with
    | Ret msg => is_Some msg /\ (pending c' + 5 <= pending c)%nat
    | Panic _ => True
    | OutOfFuel => False
    end.
Proof.
  unfold Connection_receiveMessage, on_socket, ReadMessage, mbind, M_bind.
  destruct (socket c) as [s|] eqn:Hs.
  - destruct (receiveMessage_cases (closed s) (inbound s))
      as (r & rest & H & Hlen & Hcase).
    rewrite (H s eq_refl eq_refl).
    destruct r as [[msg [e|]]| |].
    + eexists _, _. split; [reflexivity|exact I].
    + eexists _, _. split; [reflexivity|].
      destruct Hcase as (Hm & _ & Hshort). split; [exact Hm|].
      unfold pending. cbn. rewrite Hs. exact Hshort.
    + eexists _, _. split; [reflexivity|exact I].
    + contradiction.
  - eexists _, _. split; [reflexivity|exact I].
Qed.

Lemma Query_switch_cases (msg : option IncomingMessage) (c : Connection)
  (v : QueryVars) :
  exists r c' v',
    Query_switch msg (c, v) = (r, (c', v')) /\ r <> OutOfFuel /\
    pending c' = pending c.
Proof.
  destruct msg as [[]|]; cbn [Query_switch];
    unfold mbind, M_bind, get_resultset, set_vars, on_connection, modify, pure;
    cbn [fst snd handleStatelessMessage];
    try destruct (resultset v);
    (eexists _, _, _; split; [reflexivity|]; split; [discriminate|reflexivity]).
Qed.

Lemma isReadyForQuery_cases (msg : option IncomingMessage) (c : Connection) :
  exists b c', isReadyForQuery msg c = (Ret b, c') /\ pending c' = pending c.
Proof.
  destruct msg as [[]|]; eexists _, _; split; reflexivity.
Qed.

Lemma Query_loop_fuel (fuel : nat) :
  forall (c : Connection) (v : QueryVars),
  (pending c < fuel)%nat -> (Query_loop fuel (c, v)).1 <> OutOfFuel.
Proof.
  induction fuel as [|fuel IH]; intros c v Hf; [lia|].
  cbn [Query_loop]. unfold mbind, M_bind, on_connection. cbn [fst snd].
  destruct (Connection_receiveMessage_cases c) as (r & c1 & -> & Hr).
  destruct r as [msg| |]; [|discriminate|contradiction].
  destruct Hr as (_ & Hshort). cbn [fst snd].
  destruct (isReadyForQuery_cases msg c1) as (b & c2 & -> & Hp2).
  destruct b; [discriminate|].
  destruct (Query_switch_cases msg c2 v) as (r & c3 & v3 & -> & Hne & Hp3).
  destruct r as [[]| |]; [|discriminate|contradiction].
  apply IH. lia.
Qed.

(** Query returns or panics on every connection and every stream. *)
Lemma Query_total (sql : string) (c : Connection) :
  (Query sql c).1 <> OutOfFuel.
Proof.
  unfold Query.
  assert (Hb : (Query_body sql (c, noVars)).1 <> OutOfFuel).
  { unfold Query_body, mbind, M_bind, on_connection, reading. cbn [fst snd].
    destruct (sendMessage (QueryMessage sql) c) as [[[]| |] c1] eqn:Es;
      [|discriminate|].
    - apply Query_loop_fuel. unfold rounds, pending. cbn [fst].
      destruct (socket c1); lia.
    - exfalso. unfold sendMessage, on_socket, SendMessage, mbind, M_bind in Es.
      destruct (socket c) as [s|]; [destruct (closed s)|]; discriminate. }
  destruct (Query_body sql (c, noVars)) as [[[]|p|] [c1 v1]];
    [discriminate| |now destruct Hb].
  destruct (Close_cases c1) as (err & c' & -> & _).
  destruct p; discriminate.
Qed.

Lemma sendMessage_cases (msg : OutgoingMessage) (c : Connection) :
  exists r c', sendMessage msg c = (r, c') /\ r <> OutOfFuel /\
               pending c' = pending c.
Proof.
  unfold sendMessage, on_socket, SendMessage, mbind, M_bind, pending.
  destruct (socket c) as [s|] eqn:Hs; [destruct (closed s)|];
    (eexists _, _; split; [reflexivity|]; split; [discriminate|]);
    cbn; now rewrite ?Hs.
Qed.

Lemma handleStatelessMessage_cases (msg : option IncomingMessage)
  (c : Connection) :
  exists r c', handleStatelessMessage msg c = (r, c') /\ r <> OutOfFuel /\
               pending c' = pending c.
Proof.
  destruct msg as [[]|];
    (eexists _, _; split; [reflexivity|]; split; [discriminate|reflexivity]).
Qed.

Lemma initConnection_loop_fuel (info : ConnectionInfo) (fuel : nat) :
  forall c : Connection,
  (pending c < fuel)%nat -> (initConnection_loop fuel info c).1 <> OutOfFuel.
Proof.
  induction fuel as [|fuel IH]; intros c Hf; [lia|].
  cbn [initConnection_loop]. unfold mbind, M_bind.
  destruct (Connection_receiveMessage_cases c) as (r & c1 & -> & Hr).
  destruct r as [msg| |]; [|discriminate|contradiction].
  destruct Hr as (_ & Hshort).
  destruct (isReadyForQuery_cases msg c1) as (b & c2 & -> & Hp2).
  destruct b; [discriminate|].
  assert (Hsw : exists r c3,
    match msg with
    | Some (AuthenticationRequestMessage code _) =>
        if code =? AuthenticationOK then mret tt
        else if code =? AuthenticationCleartextPassword then
          sendMessage (PasswordMessage (Password info) code)
        else panic (PanicError AuthenticationMethodNotSupported)
    | Some (ErrorResponseMessage fields) =>
        panic (PanicError (AsError (ErrorResponseMessage fields)))
    | _ => handleStatelessMessage msg
    end c2 = (r, c3) /\ r <> OutOfFuel /\ pending c3 = pending c2).
  { destruct msg as [[]|];
      try apply handleStatelessMessage_cases;
      try (eexists _, _; split; [reflexivity|]; split;
           [discriminate|reflexivity]).
    destruct (AuthCode =? AuthenticationOK);
      [eexists _, _; split; [reflexivity|]; split; [discriminate|reflexivity]|].
    destruct (AuthCode =? AuthenticationCleartextPassword);
      [apply sendMessage_cases|].
    eexists _, _; split; [reflexivity|]; split; [discriminate|reflexivity]. }
  destruct Hsw as (r & c3 & -> & Hne & Hp3).
  destruct r as [[]| |]; [|discriminate|contradiction].
  apply IH. lia.
Qed.

Lemma Connect_ssl_cases (config : tls_Config) (c : Connection) :
  exists r c', Connect_ssl config c = (r, c') /\ r <> OutOfFuel.
Proof.
  unfold Connect_ssl. unfold mbind at 1, M_bind at 1.
  destruct (sendMessage_cases SSLRequestMessage c) as (r & c1 & -> & Hne & _).
  destruct r as [[]| |]; [|eexists _, _; split; [reflexivity|exact Hne]..].
  unfold mbind at 1, M_bind at 1, on_socket.
  destruct (socket c1) as [s1|] eqn:Hs1;
    [|eexists _, _; split; [reflexivity|discriminate]].
  destruct (io_ReadFull_inv s1 1) as (buf & err & rest & -> & _).
  unfold mbind at 1, M_bind at 1, pure.
  destruct (index buf 0) as [b| |] eqn:Eb;
    [|eexists _, _; split; [reflexivity|discriminate]|].
  2: { exfalso. revert Eb. unfold index, runtimePanic.
       destruct (0 <=? 0); [destruct (buf !! Z.to_nat 0)|]; discriminate. }
  destruct (Byte.eqb b "S"%byte);
    [|eexists _, _; split; [reflexivity|discriminate]].
  unfold mbind, M_bind, reading, modify, mret, M_ret.
  cbn [socket set_socket].
  destruct (handshake (tls_Client (set_inbound rest s1) config));
    eexists _, _; split; try reflexivity; discriminate.
Qed.

(** Connect returns or panics on every network and every stream. *)
Lemma Connect_total (net_Dial : Network) (info : ConnectionInfo) :
  Connect net_Dial info <> OutOfFuel.
Proof.
  unfold Connect.
  assert (Hb : (Connect_body net_Dial info zeroConnection).1 <> OutOfFuel).
  { unfold Connect_body. unfold mbind at 1, M_bind at 1.
    destruct (net_Dial (Address info)) as [sock|e]; [|discriminate].
    cbn [modify]. unfold mbind at 1, M_bind at 1.
    set (c0 := set_socket (Some sock) zeroConnection).
    assert (Htls : exists r c1,
      match SslConfig info with
      | None => mret tt
      | Some config => Connect_ssl config
      end c0 = (r, c1) /\ r <> OutOfFuel).
    { destruct (SslConfig info) as [config|];
        [apply Connect_ssl_cases
        |eexists _, _; split; [reflexivity|discriminate]]. }
    destruct Htls as (r & c1 & -> & Hne).
    destruct r as [[]| |]; [|discriminate|contradiction].
    unfold mbind at 1, M_bind at 1. cbn [modify].
    unfold initConnection, mbind, M_bind.
    destruct (sendMessage_cases
                (StartupMessage (User info) (Database info))
                (set_parameters ∅ c1)) as (r & c2 & -> & Hne2 & _).
    destruct r as [[]| |]; [|discriminate|contradiction].
    unfold reading. apply initConnection_loop_fuel.
    unfold rounds, pending. destruct (socket c2); lia. }
  destruct (Connect_body net_Dial info zeroConnection) as [[[]|p|] c1];
    [discriminate| |now destruct Hb].
  cbn. destruct p; discriminate.
Qed.

(** ** Counts on the wire and in the message *)

Lemma parseDataRow_loop_length (body : list byte) (bodyLen : Z)
  (todo : list nat) :
  forall (values : list (option (list byte))) (offset : Z) (m : IncomingMessage)
         (err : option error),
  parseDataRow_loop body bodyLen todo values offset = Ret (m, err) ->
  exists vs, m = DataRowMessage vs /\ length vs = length values.
Proof.
  induction todo as [|i todo IH]; intros values offset m err H.
  - inversion H. eauto.
  - cbn [parseDataRow_loop] in H.
    destruct (slice_from body offset) as [p| |]; try discriminate.
    rewrite bind_Ret in H. unfold orReturn in H.
    destruct (decodeUint32 p 0) as [[size [e|]]| |]; try discriminate;
      rewrite bind_Ret in H.
    + inversion H. eauto.
    + cbv zeta in H. destruct (size =? 0xffffffff).
      * apply IH in H as (vs & -> & Hl). exists vs. split; [reflexivity|].
        now rewrite Hl, length_insert.
      * destruct (int (offset + 4 + int size) >? bodyLen).
        -- inversion H. eauto.
        -- destruct (slice body (offset + 4) (int (offset + 4 + int size)))
             as [v| |]; try discriminate.
           rewrite bind_Ret in H.
           apply IH in H as (vs & -> & Hl). exists vs. split; [reflexivity|].
           now rewrite Hl, length_insert.
Qed.

(** A data row that decodes has as many values as its count field says. *)
Lemma parseDataRowMessage_count (body : list byte) (m : IncomingMessage) :
  parseDataRowMessage body = Ret (m, None) ->
  exists vs n, m = DataRowMessage vs /\ unpackUint16 body = Ret n /\
               length vs = Z.to_nat n.
Proof.
  unfold parseDataRowMessage, orReturn. intros H.
  destruct (decodeUint16_spec body 0) as (n & err & E & Hn).
  rewrite E, bind_Ret in H. destruct err as [e|]; [discriminate|].
  destruct (Hn eq_refl) as (_ & _ & Hu). cbv zeta in H.
  apply parseDataRow_loop_length in H as (vs & -> & Hl).
  exists vs, n. split; [reflexivity|]. split; [exact Hu|].
  now rewrite Hl, length_replicate.
Qed.

Lemma parseRowDescription_loop_length (body : list byte) (todo : list nat) :
  forall (fields : list Field) (offset : Z) (m : IncomingMessage)
         (err : option error),
  parseRowDescription_loop body todo fields offset = Ret (m, err) ->
  exists fs, m = RowDescriptionMessage fs /\ length fs = length fields.
Proof.
  induction todo as [|i todo IH]; intros fields offset m err H.
  - inversion H. eauto.
  - cbn [parseRowDescription_loop] in H.
    repeat
      (match type of H with
       | (slice_from ?b ?o ≫= _) = _ =>
           destruct (slice_from b o) as [?p| |]; try discriminate;
           rewrite bind_Ret in H; unfold orReturn in H at 1
       | (?d ≫= _) = _ =>
           destruct d as [[?r [?e|]]| |]; try discriminate;
           rewrite bind_Ret in H; cbv beta iota zeta in H;
           [inversion H; subst; eexists; split; [reflexivity|];
            now rewrite ?length_alter|]
       end).
    apply IH in H as (fs & -> & Hl). exists fs. split; [reflexivity|].
    now rewrite Hl, !length_alter.
Qed.

(** A row description that decodes has as many fields as its count field
    says. *)
Lemma parseRowDescriptionMessage_count (body : list byte) (m : IncomingMessage) :
  parseRowDescriptionMessage body = Ret (m, None) ->
  exists fs n, m = RowDescriptionMessage fs /\ unpackUint16 body = Ret n /\
               length fs = Z.to_nat n.
Proof.
  unfold parseRowDescriptionMessage, orReturn. intros H.
  destruct (decodeUint16_spec body 0) as (n & err & E & Hn).
  rewrite E, bind_Ret in H. destruct err as [e|]; [discriminate|].
  destruct (Hn eq_refl) as (_ & _ & Hu). cbv zeta in H.
  apply parseRowDescription_loop_length in H as (fs & -> & Hl).
  exists fs, n. split; [reflexivity|]. split; [exact Hu|].
  now rewrite Hl, length_replicate.
Qed.

(** ** Decode failures are fatal to Query *)

(** An error of the frame reader, whether of the transport or of a parse
    function, becomes a panic of the connection's receive: whatever message
    came with it is dropped. *)
Lemma Query_body_read_error (sql : string) (c : Connection) (s : Socket)
  (msg : option IncomingMessage) (e : error) (w : option Socket) :
  socket c = Some s -> closed s = false ->
  ReadMessage (Some (set_outbound (outbound s ++ [QueryMessage sql]) s))
  = (Ret (msg, Some e), w) ->
  Query_body sql (c, noVars) = (Panic (PanicError e), (set_socket w c, noVars)).
Proof.
  intros Hs Hc Hr. unfold Query_body.
  set (s1 := set_outbound (outbound s ++ [QueryMessage sql]) s) in *.
  rewrite (M_bind_Ret _ _ _ (set_socket (Some s1) c, noVars) tt).
  2: { unfold on_connection. cbn [fst snd].
       now rewrite (sendMessage_open c s _ Hs Hc). }
  unfold reading, rounds. cbn [fst socket set_socket Query_loop].
  apply M_bind_Panic. unfold on_connection. cbn [fst snd].
  unfold Connection_receiveMessage.
  rewrite (M_bind_Ret _ _ _ (set_socket w c) (msg, Some e)); [reflexivity|].
  unfold on_socket. cbn [socket set_socket]. now rewrite Hr.
Qed.

(** A data row cut short inside a value: Query fails with the truncation
    error and closes the connection; no row reaches the caller. *)
Example Query_truncated_data_row :
  (Query "select 1"
     (idle (frameRowDescriptionN
              ++ ["D"%byte; x00; x00; x00; x0b; x00; x01; x00; x00; x00; x05;
                  "5"%byte]))).1
  = Ret (Some {| Fields := [fieldN]; Rows := []; Result := "" |},
         Some (errors_New "parseDataRowMessage: truncated message")).
Proof. vm_compute. reflexivity. Qed.

(** A declared length below four is fatal to the query as well. *)
Example Query_declared_length_three :
  exists c',
    Query "select 1" (idle ["Z"%byte; x00; x00; x00; x03])
    = (Ret (None, Some (errors_New "A message should be at least 4 bytes long")),
       c') /\ torn c'.
Proof.
  destruct (Query_recovers "select 1" (idle ["Z"%byte; x00; x00; x00; x03])
              (set_socket
                 (Some (set_inbound []
                          (set_outbound ([] ++ [QueryMessage "select 1"])
                             (stream ["Z"%byte; x00; x00; x00; x03]))))
                 (idle ["Z"%byte; x00; x00; x00; x03]))
              noVars
              (PanicError
                 (errors_New "A message should be at least 4 bytes long")))
    as (c' & HQ & Ht & _).
  - apply (Query_body_read_error "select 1" _
             (stream ["Z"%byte; x00; x00; x00; x03]) None);
      [reflexivity|reflexivity|].
    unfold ReadMessage.
    apply (receiveMessage_too_short _ "Z"%byte [x00; x00; x00; x03] [] 3);
      [reflexivity|reflexivity|reflexivity|reflexivity|lia].
  - exists c'. split; [exact HQ|exact Ht].
Qed.

(** * The claims *)

(** Reads the frames of a concrete stream by running the reader. *)
Ltac read_frames :=
  repeat first [apply frames_nil
               |eapply frames_cons; [vm_compute; reflexivity|]].

(** C1. When the response to a query is an error response or the
    empty-query notice, before and after which the server may send
    parameter-status and backend-key messages, and then ready-for-query,
    Query records the message as the error of the query, reads on to
    ready-for-query (the stream is left behind it and the later messages
    are merged into the session), returns no resultset with that error,
    and leaves the socket open: the next Query runs on the connection. *)
Theorem Query_drains_server_error (sql : string) (c : Connection) (s : Socket)
  (pre post : list IncomingMessage) (e : IncomingMessage) (status : byte)
  (rest : list byte) :
  socket c = Some s -> closed s = false ->
  forallb stateless pre = true -> errorLike e = true ->
  forallb stateless post = true ->
  frames (inbound s) (pre ++ e :: post ++ [ReadyForQueryMessage status]) rest ->
  let sent := set_outbound (outbound s ++ [QueryMessage sql]) s in
  let c' := set_transactionStatus status
              (on_rest rest sent (merge (pre ++ post) c)) in
  Query sql c = (Ret (None, Some (AsError e)), c') /\
  socket c' = Some (set_inbound rest sent) /\
  closed (set_inbound rest sent) = false /\
  forall (sql' : string) (status' : byte) (rest' : list byte),
    frames rest [ReadyForQueryMessage status'] rest' ->
    exists c'', Query sql' c' = (Ret (None, None), c'').
Proof.
  intros Hs Hc Hpre He Hpost Hfr sent c'.
  assert (Hsw : Query_switches (pre ++ e :: post) (c, noVars)
                = (Ret tt, (merge (pre ++ post) c,
                            {| resultset := None;
                               queryError := Some (AsError e) |}))).
  { rewrite (Query_switches_app pre _ _ _
               (Query_switches_stateless pre c noVars Hpre)).
    cbn [Query_switches].
    rewrite (M_bind_Ret _ _ _
               (merge pre c, {| resultset := None;
                                queryError := Some (AsError e) |}) tt)
      by (destruct e; try discriminate; reflexivity).
    rewrite (Query_switches_stateless post _ _ Hpost).
    unfold merge. now rewrite fold_left_app. }
  split; [|split; [reflexivity|split; [exact Hc|]]].
  - replace (pre ++ e :: post ++ [ReadyForQueryMessage status])
      with ((pre ++ e :: post) ++ [ReadyForQueryMessage status]) in Hfr
      by now rewrite <- app_assoc.
    assert (Hnr : Forall (fun m => isReady m = false) (pre ++ e :: post)).
    { apply Forall_app. split; [now apply stateless_not_ready|].
      constructor; [now destruct e|now apply stateless_not_ready]. }
    exact (Query_frames sql c _ s _ status rest _ Hs Hc Hfr Hnr Hsw).
  - intros sql' status' rest' Hfr'. eexists.
    apply (Query_ready sql' c' (set_inbound rest sent) status' rest');
      [reflexivity|exact Hc|exact Hfr'].
Qed.

Lemma Query_drains_server_error_witness :
  (Query "select 1 from" (idle (frameSyntaxError ++ frameParameterX1
                                  ++ frameReadyIdle))).1
  = Ret (None, Some (AsError syntaxError)).
Proof.
  rewrite (proj1 (Query_drains_server_error "select 1 from"
                    (idle (frameSyntaxError ++ frameParameterX1
                             ++ frameReadyIdle))
                    (stream (frameSyntaxError ++ frameParameterX1
                               ++ frameReadyIdle))
                    [] [ParameterStatusMessage "x" "1"] syntaxError "I"%byte []
                    eq_refl eq_refl eq_refl eq_refl eq_refl
                    ltac:(read_frames))).
  reflexivity.
Defined.

(** C2. When the server answers the startup request with
    AuthenticationOK, ParameterStatus("x","1"), BackendKeyData(42,99) and
    ReadyForQuery('I'), and no TLS is configured, Connect succeeds with a
    connection whose parameters map "x" to "1", whose backendPid is 42 and
    backendKey 99, and whose transactionStatus is 'I'. *)
Theorem Connect_scripted_handshake (net_Dial : Network) (info : ConnectionInfo)
  (s : Socket) (salt : option (list byte)) (rest : list byte) :
  net_Dial (Address info) = inl s -> SslConfig info = None ->
  closed s = false ->
  frames (inbound s)
    [AuthenticationRequestMessage AuthenticationOK salt;
     ParameterStatusMessage "x" "1";
     BackendKeyDataMessage 42 99;
     ReadyForQueryMessage "I"%byte] rest ->
  exists connection,
    Connect net_Dial info = Ret (connection, None) /\
    parameters connection !! "x"%string = Some "1"%string /\
    backendPid connection = 42 /\ backendKey connection = 99 /\
    transactionStatus connection = "I"%byte /\
    exists s', socket connection = Some s' /\ closed s' = false /\
               inbound s' = rest.
Proof.
  intros Hd Hssl Hc Hfr.
  inversion Hfr as [|? ? i1 ? ? R1 F1]; subst.
  inversion F1 as [|? ? i2 ? ? R2 F2]; subst.
  inversion F2 as [|? ? i3 ? ? R3 F3]; subst.
  inversion F3 as [|? ? i4 ? ? R4 F4]; subst.
  inversion F4; subst.
  pose proof (reads_shorter _ _ _ R1). pose proof (reads_shorter _ _ _ R2).
  pose proof (reads_shorter _ _ _ R3). pose proof (reads_shorter _ _ _ R4).
  unfold Connect. rewrite (Connect_body_plain net_Dial info s Hd Hssl Hc).
  destruct (length (inbound s)) as [|[|[|fuel]]] eqn:Hlen; try lia.
  set (sent := set_outbound _ s).
  match goal with |- context [initConnection_loop _ _ ?c] =>
    rewrite (initConnection_loop_read _ info c sent _ i1 eq_refl Hc R1) end.
  cbn [isReadyForQuery]. unfold mbind at 1, M_bind at 1, mret at 1, M_ret at 1.
  cbv beta iota. change (AuthenticationOK =? AuthenticationOK) with true.
  cbv iota. unfold mbind at 1, M_bind at 1, mret at 1, M_ret at 1. cbv beta iota.
  match goal with |- context [initConnection_loop _ _ ?c] =>
    rewrite (initConnection_loop_read _ info c (set_inbound i1 sent) _ i2
               eq_refl Hc R2) end.
  cbn [isReadyForQuery handleStatelessMessage].
  unfold mbind at 1, M_bind at 1, mret at 1, M_ret at 1. cbv beta iota.
  unfold mbind at 1, M_bind at 1, modify at 1. cbv beta iota.
  match goal with |- context [initConnection_loop _ _ ?c] =>
    rewrite (initConnection_loop_read _ info c (set_inbound i2 sent) _ i3
               eq_refl Hc R3) end.
  cbn [isReadyForQuery handleStatelessMessage].
  unfold mbind at 1, M_bind at 1, mret at 1, M_ret at 1. cbv beta iota.
  unfold mbind at 1, M_bind at 1, modify at 1. cbv beta iota.
  match goal with |- context [initConnection_loop _ _ ?c] =>
    rewrite (initConnection_loop_read _ info c (set_inbound i3 sent) _ rest
               eq_refl Hc R4) end.
  cbn [isReadyForQuery].
  unfold mbind, M_bind, modify, mret, M_ret. cbv beta iota.
  eexists. split; [reflexivity|]. cbn.
  split; [apply lookup_insert_eq|].
  repeat split; auto. eexists. split; [reflexivity|]. split; [exact Hc|reflexivity].
Qed.

Lemma Connect_scripted_handshake_witness :
  exists connection,
    Connect (fun _ => inl (stream handshake_script)) defaultConnectionInfo
    = Ret (connection, None) /\
    parameters connection !! "x"%string = Some "1"%string /\
    backendPid connection = 42 /\ backendKey connection = 99 /\
    transactionStatus connection = "I"%byte /\
    exists s', socket connection = Some s' /\ closed s' = false /\
               inbound s' = [].
Proof.
  apply (Connect_scripted_handshake (fun _ => inl (stream handshake_script))
           defaultConnectionInfo (stream handshake_script) None []);
    [reflexivity|reflexivity|reflexivity|].
  read_frames.
Defined.

(** C3. In a data row, a value whose length field is 0xFFFFFFFF decodes to
    an absent ([nil]) value at its position, where a length field of zero
    decodes to a present empty value; and a value whose declared length
    reaches past the end of the body makes the decoding fail with the
    truncated-message error.  [pre] and [post] are the values before and
    after, [bpre] and [bpost] their bytes, [cf] the two bytes of the value
    count. *)
Theorem parseDataRowMessage_null_and_truncated
  (cf bpre bpost trailing lf tail : list byte)
  (pre post : list (option (list byte))) (n size : Z) :
  length cf = 2%nat -> values_wire pre bpre -> values_wire post bpost ->
  (unpackUint16 cf = Ret (len (pre ++ None :: post)) ->
   len (cf ++ (bpre ++ [xff; xff; xff; xff] ++ bpost) ++ trailing) <= maxAlloc ->
   parseDataRowMessage (cf ++ (bpre ++ [xff; xff; xff; xff] ++ bpost) ++ trailing)
   = Ret (DataRowMessage (pre ++ None :: post), None)) /\
  (unpackUint16 cf = Ret (len (pre ++ Some [] :: post)) ->
   len (cf ++ (bpre ++ [x00; x00; x00; x00] ++ bpost) ++ trailing) <= maxAlloc ->
   parseDataRowMessage (cf ++ (bpre ++ [x00; x00; x00; x00] ++ bpost) ++ trailing)
   = Ret (DataRowMessage (pre ++ Some [] :: post), None)) /\
  (unpackUint16 cf = Ret n -> len pre < n ->
   length lf = 4%nat -> unpackUint32 lf = Ret size -> size <> 0xffffffff ->
   len tail < size ->
   len (cf ++ bpre ++ lf ++ tail) <= maxAlloc ->
   parseDataRowMessage (cf ++ bpre ++ lf ++ tail)
   = Ret (DataRowMessage (pre ++ replicate (Z.to_nat n - length pre) None),
          Some (errors_New "parseDataRowMessage: truncated message"))).
Proof.
  intros Hcf Hpre Hpost. split; [|split].
  - intros Hn Hmax. apply parseDataRowMessage_values; try assumption.
    apply values_wire_app; [exact Hpre|].
    apply (wire_cons None post [xff; xff; xff; xff] bpost);
      [constructor|exact Hpost].
  - intros Hn Hmax. apply parseDataRowMessage_values; try assumption.
    apply values_wire_app; [exact Hpre|].
    apply (wire_cons (Some []) post [x00; x00; x00; x00] bpost);
      [exact value_wire_empty|exact Hpost].
  - intros Hn Hlt Hlf Hu Hne Htail Hmax.
    now apply parseDataRowMessage_truncated with (size := size).
Qed.

Lemma parseDataRowMessage_null_and_truncated_witness :
  parseDataRowMessage ([x00; x02] ++ ([x00; x00; x00; x01; "5"%byte]
                         ++ [xff; xff; xff; xff] ++ []) ++ [])
  = Ret (DataRowMessage ([Some ["5"%byte]] ++ None :: []), None) /\
  parseDataRowMessage ([x00; x02] ++ ([x00; x00; x00; x01; "5"%byte]
                         ++ [x00; x00; x00; x00] ++ []) ++ [])
  = Ret (DataRowMessage ([Some ["5"%byte]] ++ Some [] :: []), None) /\
  parseDataRowMessage ([x00; x02] ++ [x00; x00; x00; x01; "5"%byte]
                         ++ [x00; x00; x00; x05] ++ ["a"%byte])
  = Ret (DataRowMessage
           ([Some ["5"%byte]] ++ replicate (Z.to_nat 2 - 1) None),
         Some (errors_New "parseDataRowMessage: truncated message")).
Proof.
  destruct (parseDataRowMessage_null_and_truncated
              [x00; x02] [x00; x00; x00; x01; "5"%byte] [] []
              [x00; x00; x00; x05] ["a"%byte] [Some ["5"%byte]] [] 2 5)
    as (Hnull & Hempty & Htrunc).
  - reflexivity.
  - apply value_wire_single.
    apply (wire_present [x00; x00; x00; x01] ["5"%byte]);
      [reflexivity|reflexivity|discriminate].
  - constructor.
  - split; [|split].
    + apply Hnull; [reflexivity|]. unfold len, maxAlloc. simpl. lia.
    + apply Hempty; [reflexivity|]. unfold len, maxAlloc. simpl. lia.
    + apply Htrunc; try reflexivity; try discriminate;
        unfold len, maxAlloc; simpl; lia.
Defined.

(** C4 (amended). After a fatal failure of Query, that is a panic of its
    body, the connection is torn down: the socket is closed (or was never
    opened), the parameters are empty and backendPid and backendKey are
    zero, while transactionStatus keeps the value it had when the failure
    struck; and a later Query or Close on the connection reports an
    error. *)
Theorem Query_fatal_tears_down (sql : string) (c c1 : Connection)
  (v1 : QueryVars) (p : PanicValue) :
  Query_body sql (c, noVars) = (Panic p, (c1, v1)) ->
  exists c',
    Query sql c = (e ← asError p; Ret (resultset v1, Some e), c') /\
    torn c' /\ transactionStatus c' = transactionStatus c1 /\
    (forall sql', exists e c'', Query sql' c' = (Ret (None, Some e), c'')) /\
    (exists e c'', Close c' = (Ret (Some e), c'')).
Proof.
  intros Hb. destruct (Query_recovers sql c c1 v1 p Hb) as (c' & HQ & Ht & Hts).
  exists c'. split; [exact HQ|]. split; [exact Ht|]. split; [exact Hts|]. split.
  - intros sql'. destruct (Query_torn sql' c' Ht) as (e & c'' & E & _).
    now exists e, c''.
  - destruct (Close_torn c' Ht) as (e & c'' & E & _). now exists e, c''.
Qed.

Lemma Query_fatal_tears_down_witness :
  exists c',
    Query "select 1" (idle [])
    = (e ← asError (PanicError io_EOF); Ret (None, Some e), c') /\
    torn c' /\ transactionStatus c' = "I"%byte /\
    (forall sql', exists e c'', Query sql' c' = (Ret (None, Some e), c'')) /\
    (exists e c'', Close c' = (Ret (Some e), c'')).
Proof.
  apply (Query_fatal_tears_down "select 1" (idle [])
           (set_socket
              (Some (set_inbound []
                       (set_outbound ([] ++ [QueryMessage "select 1"])
                          (stream []))))
              (idle []))
           noVars (PanicError io_EOF)).
  vm_compute. reflexivity.
Defined.

(** After a failed Query the transaction status still reads idle, not
    zero. *)
Lemma teardown_keeps_transactionStatus :
  (Query "select 1" (idle [])).1 = Ret (None, Some io_EOF) /\
  transactionStatus (Query "select 1" (idle [])).2 = "I"%byte /\
  transactionStatus (Query "select 1" (idle [])).2 <> x00.
Proof.
  split; [vm_compute; reflexivity|].
  split; [vm_compute; reflexivity|]. vm_compute. discriminate.
Qed.

(** C5 (what the code does). When a command-complete message arrives and
    no row description came before it, [resultset] is still [nil]: storing
    the tag dereferences it, the panic is recovered, and Query closes the
    connection and returns no resultset with the runtime error. *)
Theorem Query_command_complete_without_rows (sql : string) (c : Connection)
  (s : Socket) (pre : list IncomingMessage) (result : string)
  (rest : list byte) :
  socket c = Some s -> closed s = false -> forallb quiet pre = true ->
  frames (inbound s) (pre ++ [CommandCompleteMessage result]) rest ->
  exists c',
    Query sql c = (Ret (None, Some (runtime_Error NilDereference)), c') /\
    torn c'.
Proof.
  intros Hs Hc Hpre Hfr.
  destruct (Query_switches_quiet pre c noVars Hpre) as (v1 & Hsw & Hrs).
  assert (Hnr : Forall (fun m => isReady m = false)
                  (pre ++ [CommandCompleteMessage result])).
  { apply Forall_app. split; [now apply quiet_not_ready|].
    constructor; [reflexivity|constructor]. }
  assert (Hp : Query_switch (Some (CommandCompleteMessage result))
                 (merge pre c, v1)
               = (Panic (PanicError (runtime_Error NilDereference)),
                  (merge pre c, v1))).
  { cbn [Query_switch]. unfold mbind, M_bind, get_resultset. cbn [fst snd].
    rewrite Hrs. reflexivity. }
  pose proof (Query_body_switch_panic sql c _ _ s pre _ rest v1 v1 _
                Hs Hc Hfr Hnr Hsw Hp) as Hb.
  destruct (Query_recovers sql c _ v1 _ Hb) as (c' & HQ & Ht & _).
  exists c'. split; [|exact Ht]. rewrite HQ. cbn. now rewrite Hrs.
Qed.

Lemma Query_command_complete_without_rows_witness :
  exists c',
    Query "insert into t values (1)" (idle (frameInsertComplete ++ frameReadyIdle))
    = (Ret (None, Some (runtime_Error NilDereference)), c') /\
    torn c'.
Proof.
  apply (Query_command_complete_without_rows "insert into t values (1)"
           (idle (frameInsertComplete ++ frameReadyIdle))
           (stream (frameInsertComplete ++ frameReadyIdle)) [] "INSERT 1"
           frameReadyIdle); [reflexivity|reflexivity|reflexivity|].
  read_frames.
Defined.

(** C6 (what the code does). A whole frame whose tag is not in the table
    makes the frame reader panic, and the frame is not skipped; but the
    panic value is a string, the recover handlers of Query and of Connect
    assert it to be an error, and so the operation itself panics (after
    the teardown) where it should return the failure as its error. *)
Theorem unknown_tag_escapes_as_panic (sql : string) (net_Dial : Network)
  (info : ConnectionInfo) (c : Connection) (s : Socket) (t : byte)
  (lf body rest : list byte) (n : Z) :
  closed s = false -> inbound s = t :: lf ++ body ++ rest ->
  length lf = 4%nat -> unpackUint32 lf = Ret n -> len body = n - 4 ->
  t ∉ recognized ->
  receiveMessage (Some s)
  = (Panic (PanicString (UnknownMessageType t)), Some (set_inbound rest s)) /\
  (socket c = Some s ->
   exists c',
     Query sql c = (Panic (PanicError (runtime_Error InterfaceConversion)), c')
     /\ torn c') /\
  (net_Dial (Address info) = inl s -> SslConfig info = None ->
   Connect net_Dial info
   = Panic (PanicError (runtime_Error InterfaceConversion))).
Proof.
  intros Hc Hi Hlf Hu Hb Ht. apply messageFactoryMethods_None in Ht.
  split; [|split].
  - exact (receiveMessage_unknown s t lf body rest n Hc Hi Hlf Hu Hb Ht).
  - intros Hs.
    assert (Hfr : frames (inbound s) [] (t :: lf ++ body ++ rest))
      by (rewrite Hi; constructor).
    pose proof (Query_body_unknown_tag sql c c s [] t lf body rest n noVars
                  Hs Hc Hfr (List.Forall_nil _) eq_refl Hlf Hu Hb Ht) as Hbody.
    destruct (Query_recovers sql c _ _ _ Hbody) as (c' & HQ & Htorn & _).
    exists c'. split; [exact HQ|exact Htorn].
  - intros Hd Hssl. unfold Connect.
    rewrite (Connect_body_plain net_Dial info s Hd Hssl Hc).
    match goal with |- context [initConnection_loop _ _ ?c0] =>
      rewrite (initConnection_loop_unknown _ info c0 _ t lf body rest n
                 eq_refl Hc Hi Hlf Hu Hb Ht) end.
    reflexivity.
Qed.

Lemma unknown_tag_escapes_as_panic_witness :
  receiveMessage (Some (stream frameUnknown))
  = (Panic (PanicString (UnknownMessageType "X"%byte)), Some (stream [])) /\
  (exists c',
     Query "select 1" (idle frameUnknown)
     = (Panic (PanicError (runtime_Error InterfaceConversion)), c') /\ torn c') /\
  Connect (fun _ => inl (stream frameUnknown)) defaultConnectionInfo
  = Panic (PanicError (runtime_Error InterfaceConversion)).
Proof.
  destruct (unknown_tag_escapes_as_panic "select 1"
              (fun _ => inl (stream frameUnknown)) defaultConnectionInfo
              (idle frameUnknown) (stream frameUnknown) "X"%byte
              [x00; x00; x00; x04] [] [] 4)
    as (Hread & Hquery & Hconnect);
    [reflexivity|reflexivity|reflexivity|reflexivity|reflexivity| |].
  - apply messageFactoryMethods_None. reflexivity.
  - split; [exact Hread|]. split; [apply Hquery; reflexivity|].
    apply Hconnect; reflexivity.
Defined.

(** C7. After a frame header, the body the reader takes is the declared
    length less four: a declared length below four makes the reader fail
    with an error; a declared length of exactly four is accepted and the
    empty body goes to the parse function of the tag; a longer frame hands
    over the declared length less four bytes. *)
Theorem receiveMessage_declared_length (s : Socket) (t : byte)
  (lf : list byte) (n : Z) :
  closed s = false -> length lf = 4%nat -> unpackUint32 lf = Ret n ->
  (n < 4 -> forall rest, inbound s = t :: lf ++ rest ->
     receiveMessage (Some s)
     = (Ret (None,
             Some (errors_New "A message should be at least 4 bytes long")),
        Some (set_inbound rest s))) /\
  (n = 4 -> forall rest factoryMethod, inbound s = t :: lf ++ rest ->
     messageFactoryMethods !! t = Some factoryMethod ->
     receiveMessage (Some s)
     = (deliver (factoryMethod []), Some (set_inbound rest s))) /\
  (forall body rest factoryMethod, inbound s = t :: lf ++ body ++ rest ->
     len body = n - 4 ->
     messageFactoryMethods !! t = Some factoryMethod ->
     receiveMessage (Some s)
     = (deliver (factoryMethod body), Some (set_inbound rest s))).
Proof.
  intros Hc Hlf Hu. split; [|split].
  - intros Hn rest Hi.
    exact (receiveMessage_too_short s t lf rest n Hc Hi Hlf Hu Hn).
  - intros Hn rest f Hi Hf. subst n.
    exact (receiveMessage_frame s t lf [] rest 4 f Hc Hi Hlf Hu eq_refl Hf).
  - intros body rest f Hi Hb Hf.
    exact (receiveMessage_frame s t lf body rest n f Hc Hi Hlf Hu Hb Hf).
Qed.

Lemma receiveMessage_declared_length_witness :
  receiveMessage (Some (stream (["Z"%byte] ++ [x00; x00; x00; x03] ++ [])))
  = (Ret (None, Some (errors_New "A message should be at least 4 bytes long")),
     Some (stream [])) /\
  receiveMessage (Some (stream (["I"%byte] ++ [x00; x00; x00; x04] ++ [])))
  = (Ret (Some EmptyQueryMessage, None), Some (stream [])) /\
  receiveMessage (Some (stream (["Z"%byte] ++ [x00; x00; x00; x05]
                                  ++ ["I"%byte] ++ [])))
  = (Ret (Some (ReadyForQueryMessage "I"%byte), None), Some (stream [])).
Proof.
  split; [|split].
  - apply (proj1 (receiveMessage_declared_length
                    (stream (["Z"%byte] ++ [x00; x00; x00; x03] ++ []))
                    "Z"%byte [x00; x00; x00; x03] 3
                    eq_refl eq_refl eq_refl)); [lia|reflexivity].
  - apply (proj1 (proj2 (receiveMessage_declared_length
                    (stream (["I"%byte] ++ [x00; x00; x00; x04] ++ []))
                    "I"%byte [x00; x00; x00; x04] 4
                    eq_refl eq_refl eq_refl)) eq_refl [] parseEmptyQueryMessage);
      reflexivity.
  - apply (proj2 (proj2 (receiveMessage_declared_length
                    (stream (["Z"%byte] ++ [x00; x00; x00; x05]
                               ++ ["I"%byte] ++ []))
                    "Z"%byte [x00; x00; x00; x05] 5
                    eq_refl eq_refl eq_refl)) ["I"%byte] []
                    parseReadyForQueryMessage);
      reflexivity.
Defined.

(** C8 (amended). Decoding an empty-query notice always succeeds and gives
    a value with the error methods whose message is "The provided SQL
    string was empty" and whose code is the empty string; a frame with tag
    'I' and no body reads as that value, and Query records it as the
    query's error just as it records an error response. *)
Theorem EmptyQueryMessage_decodes (body rest : list byte) (c : Connection)
  (v : QueryVars) :
  parseEmptyQueryMessage body = Ret (EmptyQueryMessage, None) /\
  message_Error EmptyQueryMessage = Some "The provided SQL string was empty"%string /\
  message_Code EmptyQueryMessage = Some ""%string /\
  reads ("I"%byte :: [x00; x00; x00; x04] ++ rest) EmptyQueryMessage rest /\
  Query_switch (Some EmptyQueryMessage) (c, v)
  = (Ret tt, (c, {| resultset := resultset v;
                    queryError := Some (AsError EmptyQueryMessage) |})).
Proof.
  split; [reflexivity|]. split; [reflexivity|]. split; [reflexivity|].
  split; [|reflexivity].
  unfold reads, ReadMessage.
  rewrite (receiveMessage_frame (stream ("I"%byte :: [x00; x00; x00; x04] ++ rest))
             "I"%byte [x00; x00; x00; x04] [] rest 4 parseEmptyQueryMessage);
    reflexivity.
Qed.

(** The message of the empty-query notice is not the string of the
    specification. *)
Lemma EmptyQueryMessage_message_differs :
  parseEmptyQueryMessage [] = Ret (EmptyQueryMessage, None) /\
  message_Error EmptyQueryMessage <> Some "the query string was empty"%string.
Proof. split; [reflexivity|discriminate]. Qed.

(** C10. Every parse function returns a pair of a message and an error on
    every body a slice can hold: no read leaves the body, so none of them
    panics, and the loops end.  (Reads outside a slice are panics of the
    embedding; [int] is the 64-bit one.) *)
Theorem parse_functions_total (body : list byte) :
  len body <= maxAlloc ->
  returns (parseRowDescriptionMessage body) /\
  returns (parseDataRowMessage body) /\
  returns (parseErrorResponseMessage body) /\
  returns (parseParameterStatusMessage body) /\
  returns (parseBackendKeyDataMessage body) /\
  returns (parseCommandCompleteMessage body).
Proof.
  intros Hmax. repeat split.
  - apply parseRowDescriptionMessage_total.
  - apply parseDataRowMessage_total, Hmax.
  - apply parseErrorResponseMessage_total.
  - apply parseParameterStatusMessage_total.
  - apply parseBackendKeyDataMessage_total.
  - apply parseCommandCompleteMessage_total.
Qed.

Lemma parse_functions_total_witness :
  returns (parseRowDescriptionMessage [x00; x01]) /\
  returns (parseDataRowMessage [x00; x01]) /\
  returns (parseErrorResponseMessage [x00; x01]) /\
  returns (parseParameterStatusMessage [x00; x01]) /\
  returns (parseBackendKeyDataMessage [x00; x01]) /\
  returns (parseCommandCompleteMessage [x00; x01]).
Proof.
  apply (parse_functions_total [x00; x01]).
  unfold len, maxAlloc. simpl. lia.
Defined.

(** ** The properties of the specification on sample traffic *)

(** A select of one row: one field "n", one row with the value "5", and
    the tag. *)
Example Query_select_one :
  (Query "select 1" (idle select_script)).1
  = Ret (Some {| Fields := [fieldN];
                 Rows := [{| Values := [Some ["5"%byte]] |}];
                 Result := "SELECT 1" |}, None).
Proof. vm_compute. reflexivity. Qed.

(** The error of the server comes back with its code. *)
Example Query_syntax_error_code :
  (Query "select 1 from" (idle (frameSyntaxError ++ frameReadyIdle))).1
  = Ret (None, Some (AsError syntaxError)) /\
  message_Code syntaxError = Some "42601"%string /\
  message_Error syntaxError = Some "Vertica ERROR 42601: syntax error"%string.
Proof. repeat split; vm_compute; reflexivity. Qed.

(** Query does not compare a data row with the row description: a row of
    two values under one field is returned as it came.  That the rows
    match the fields is the server's part of a well-formed response. *)
Example Query_accepts_mismatched_row :
  (Query "select 1"
     (idle (frameRowDescriptionN ++ frameDataRowTwo ++ frameSelectComplete
              ++ frameReadyIdle))).1
  = Ret (Some {| Fields := [fieldN];
                 Rows := [{| Values := [Some ["5"%byte]; None] |}];
                 Result := "SELECT 1" |}, None).
Proof. vm_compute. reflexivity. Qed.

(** * Further properties of the code *)

(** ** Integers off the wire *)

Lemma byteZ_range (b : byte) : 0 <= byteZ b < 256.
Proof.
  unfold byteZ. pose proof (Byte.to_N_bounded b). lia.
Qed.

Lemma land_shifted (x y k : Z) :
  0 <= k -> 0 <= y < 2 ^ k -> Z.land (x * 2 ^ k) y = 0.
Proof.
  intros Hk Hy. apply Z.bits_inj'. intros i Hi.
  rewrite Z.land_spec, Z.bits_0.
  destruct (Z.lt_ge_cases i k) as [Hlt|Hge].
  - rewrite Z.mul_pow2_bits_low by lia. reflexivity.
  - rewrite <- (Z.mod_small y (2 ^ k)) by lia.
    rewrite Z.mod_pow2_bits_high by lia. apply andb_false_r.
Qed.

Lemma lor_shifted (x y k : Z) :
  0 <= k -> 0 <= y < 2 ^ k -> Z.lor (x * 2 ^ k) y = x * 2 ^ k + y.
Proof.
  intros Hk Hy. pose proof (Z.add_lor_land (x * 2 ^ k) y) as H.
  rewrite (land_shifted x y k Hk Hy) in H. lia.
Qed.

Lemma lor4 (x0 x1 x2 x3 : Z) :
  0 <= x0 < 256 -> 0 <= x1 < 256 -> 0 <= x2 < 256 -> 0 <= x3 < 256 ->
  Z.lor (Z.lor (Z.lor (x0 * 2 ^ 24) (x1 * 2 ^ 16)) (x2 * 2 ^ 8)) x3
  = x0 * 2 ^ 24 + x1 * 2 ^ 16 + x2 * 2 ^ 8 + x3.
Proof.
  intros H0 H1 H2 H3.
  rewrite (lor_shifted x0 (x1 * 2 ^ 16) 24) by lia.
  replace (x0 * 2 ^ 24 + x1 * 2 ^ 16) with ((x0 * 2 ^ 8 + x1) * 2 ^ 16) by lia.
  rewrite (lor_shifted _ (x2 * 2 ^ 8) 16) by lia.
  replace ((x0 * 2 ^ 8 + x1) * 2 ^ 16 + x2 * 2 ^ 8)
    with ((x0 * 2 ^ 16 + x1 * 2 ^ 8 + x2) * 2 ^ 8) by lia.
  rewrite (lor_shifted _ x3 8) by lia. lia.
Qed.

Lemma be32_bigEndian (b0 b1 b2 b3 : byte) :
  be32 b0 b1 b2 b3 = bigEndian32 b0 b1 b2 b3.
Proof.
  pose proof (byteZ_range b0). pose proof (byteZ_range b1).
  pose proof (byteZ_range b2). pose proof (byteZ_range b3).
  unfold be32, bigEndian32, uint32.
  change (8 * (3 - 0)) with 24. change (8 * (3 - (0 + 1))) with 16.
  change (8 * (3 - (0 + 1 + 1))) with 8.
  change (8 * (3 - (0 + 1 + 1 + 1))) with 0.
  rewrite !Z.shiftl_mul_pow2 by lia.
  rewrite Z.mod_0_l by lia. rewrite Z.lor_0_l.
  rewrite !Z.mod_small by lia.
  rewrite Z.pow_0_r, Z.mul_1_r. now apply lor4.
Qed.

Lemma be16_bigEndian (b0 b1 : byte) : be16 b0 b1 = bigEndian16 b0 b1.
Proof.
  pose proof (byteZ_range b0). pose proof (byteZ_range b1).
  unfold be16, bigEndian16, uint16.
  change (8 * (1 - 0)) with 8. change (8 * (1 - (0 + 1))) with 0.
  rewrite !Z.shiftl_mul_pow2 by lia.
  rewrite Z.mod_0_l by lia. rewrite Z.lor_0_l.
  rewrite !Z.mod_small by lia.
  rewrite Z.pow_0_r, Z.mul_1_r. apply lor_shifted; lia.
Qed.

(** X1. decodeUint32 reads the first four bytes of a buffer as a
    big-endian number below 2^32 and ignores what follows; a buffer of
    fewer than four bytes gives the error and leaves the target as it
    was. *)
Theorem decodeUint32_big_endian (p : list byte) (v : Z) :
  (len p < 4 ->
   decodeUint32 p v
   = Ret (v, Some (errors_New
                     "decodeUint32: A buffer should be at least 4 bytes long"))) /\
  (forall b0 b1 b2 b3 rest, p = b0 :: b1 :: b2 :: b3 :: rest ->
     decodeUint32 p v = Ret (bigEndian32 b0 b1 b2 b3, None) /\
     unpackUint32 p = Ret (bigEndian32 b0 b1 b2 b3) /\
     0 <= bigEndian32 b0 b1 b2 b3 < 2 ^ 32).
Proof.
  split.
  - intros H. unfold decodeUint32.
    destruct (Z.ltb_spec (len p) 4); [reflexivity|lia].
  - intros b0 b1 b2 b3 rest ->. rewrite <- be32_bigEndian.
    split; [|split; [reflexivity|apply be32_range]].
    unfold decodeUint32.
    destruct (Z.ltb_spec (len (b0 :: b1 :: b2 :: b3 :: rest)) 4) as [H|_].
    + rewrite !len_cons in H. pose proof (len_nonneg rest). lia.
    + reflexivity.
Qed.

Lemma decodeUint32_big_endian_witness :
  decodeUint32 [x01; "u"%byte; xcb; xea; xff] 7
  = Ret (bigEndian32 x01 "u"%byte xcb xea, None) /\
  unpackUint32 [x01; "u"%byte; xcb; xea; xff]
  = Ret (bigEndian32 x01 "u"%byte xcb xea) /\
  0 <= bigEndian32 x01 "u"%byte xcb xea < 2 ^ 32.
Proof.
  apply (proj2 (decodeUint32_big_endian [x01; "u"%byte; xcb; xea; xff] 7)
           x01 "u"%byte xcb xea [xff] eq_refl).
Defined.

(** X2. decodeUint16 reads the first two bytes of a buffer as a big-endian
    number below 2^16, and decodeUint8 the first byte; shorter buffers give
    the errors and leave the target as it was. *)
Theorem decodeUint16_big_endian (p : list byte) (v : Z) (w : byte) :
  (len p < 2 ->
   decodeUint16 p v
   = Ret (v, Some (errors_New
                     "decodeUint16: A buffer should be at least 2 bytes long"))) /\
  (forall b0 b1 rest, p = b0 :: b1 :: rest ->
     decodeUint16 p v = Ret (bigEndian16 b0 b1, None) /\
     0 <= bigEndian16 b0 b1 < 2 ^ 16) /\
  (p = [] ->
   decodeUint8 p w
   = Ret (w, Some (errors_New
                     "decodeUint8: A buffer should be at least 1 bytes long"))) /\
  (forall b0 rest, p = b0 :: rest -> decodeUint8 p w = Ret (b0, None)).
Proof.
  split; [|split; [|split]].
  - intros H. unfold decodeUint16.
    destruct (Z.ltb_spec (len p) 2); [reflexivity|lia].
  - intros b0 b1 rest ->. rewrite <- be16_bigEndian.
    split; [|apply be16_range]. unfold decodeUint16.
    destruct (Z.ltb_spec (len (b0 :: b1 :: rest)) 2) as [H|_].
    + rewrite !len_cons in H. pose proof (len_nonneg rest). lia.
    + reflexivity.
  - intros ->. reflexivity.
  - intros b0 rest ->. unfold decodeUint8.
    destruct (Z.ltb_spec (len (b0 :: rest)) 1) as [H|_].
    + rewrite len_cons in H. pose proof (len_nonneg rest). lia.
    + reflexivity.
Qed.

Lemma decodeUint16_big_endian_witness :
  decodeUint16 [x01; x02; x03] 7 = Ret (bigEndian16 x01 x02, None) /\
  0 <= bigEndian16 x01 x02 < 2 ^ 16.
Proof.
  apply (proj1 (proj2 (decodeUint16_big_endian [x01; x02; x03] 7 x00))
           x01 x02 [x03] eq_refl).
Defined.

(** The value the repository's benchmarks decode. *)
Example decodeUint32_benchmark :
  decodeUint32 [x01; "u"%byte; xcb; xea] 0 = Ret (24497130, None).
Proof. reflexivity. Qed.

(** ** Strings off the wire *)

Lemma index_app_cons (done tl : list byte) (b : byte) :
  index (done ++ b :: tl) (len done) = Ret b.
Proof.
  unfold index. pose proof (len_nonneg done).
  destruct (Z.leb_spec 0 (len done)); [|lia].
  unfold len. rewrite Nat2Z.id.
  now rewrite lookup_app_r, Nat.sub_diag by lia.
Qed.

Lemma slice_prefix (done tl : list byte) :
  slice (done ++ tl) 0 (len done) = Ret done.
Proof.
  pose proof (slice_app [] done tl) as H. simpl in H.
  unfold len at 1 in H. simpl in H. exact H.
Qed.

Lemma decodeCString_from_found (s : list byte) :
  forall (done rest : list byte),
  x00 ∉ s ->
  decodeCString_from (done ++ s ++ x00 :: rest) (length (s ++ x00 :: rest))
    (len done)
  = Ret (string_of_list_byte (done ++ s), None).
Proof.
  induction s as [|b s IH]; intros done rest Hs.
  - cbn [app length decodeCString_from]. rewrite index_app_cons, bind_Ret.
    cbn [Byte.eqb]. rewrite slice_prefix, bind_Ret. now rewrite app_nil_r.
  - cbn [app length decodeCString_from]. rewrite index_app_cons, bind_Ret.
    apply not_elem_of_cons in Hs as [Hb Hs].
    destruct (Byte.eqb b x00) eqn:E.
    + apply Byte.byte_dec_bl in E. congruence.
    + replace (len done + 1) with (len (done ++ [b]))
        by (rewrite len_app; reflexivity).
      replace (done ++ b :: s ++ x00 :: rest)
        with ((done ++ [b]) ++ s ++ x00 :: rest) by now rewrite <- app_assoc.
      rewrite (IH (done ++ [b]) rest Hs). now rewrite <- app_assoc.
Qed.

Lemma decodeCString_from_missing (s : list byte) :
  forall done : list byte,
  x00 ∉ s ->
  decodeCString_from (done ++ s) (length s) (len done)
  = Ret (""%string, Some (errors_New "decodeCString: delimeter not found")).
Proof.
  induction s as [|b s IH]; intros done Hs; [reflexivity|].
  cbn [length decodeCString_from]. rewrite index_app_cons, bind_Ret.
  apply not_elem_of_cons in Hs as [Hb Hs].
  destruct (Byte.eqb b x00) eqn:E.
  - apply Byte.byte_dec_bl in E. congruence.
  - replace (len done + 1) with (len (done ++ [b]))
      by (rewrite len_app; reflexivity).
    replace (done ++ b :: s) with ((done ++ [b]) ++ s)
      by now rewrite <- app_assoc.
    apply (IH (done ++ [b]) Hs).
Qed.

Lemma decodeCString_found (s rest : list byte) :
  x00 ∉ s ->
  decodeCString (s ++ x00 :: rest) = Ret (string_of_list_byte s, None).
Proof.
  intros Hs. exact (decodeCString_from_found s [] rest Hs).
Qed.

Lemma decodeCString_missing (p : list byte) :
  x00 ∉ p ->
  decodeCString p
  = Ret (""%string, Some (errors_New "decodeCString: delimeter not found")).
Proof.
  intros Hp. exact (decodeCString_from_missing p [] Hp).
Qed.

(** X3. decodeCString returns the bytes before the first zero byte as a
    string, of the length of those bytes, whatever follows the zero; a
    buffer without a zero byte, the empty one included, gives the error
    and the empty string. *)
Theorem decodeCString_first_terminator (s rest : list byte) :
  x00 ∉ s ->
  decodeCString (s ++ x00 :: rest) = Ret (string_of_list_byte s, None) /\
  strlen (string_of_list_byte s) = len s /\
  list_byte_of_string (string_of_list_byte s) = s /\
  decodeCString s
  = Ret (""%string, Some (errors_New "decodeCString: delimeter not found")).
Proof.
  intros Hs. split; [now apply decodeCString_found|].
  split; [apply strlen_string_of_list_byte|].
  split; [apply list_byte_of_string_of_list_byte|].
  now apply decodeCString_missing.
Qed.

Lemma decodeCString_first_terminator_witness :
  decodeCString (bytes "SELECT 1" ++ x00 :: bytes "tail")
  = Ret (string_of_list_byte (bytes "SELECT 1"), None) /\
  strlen (string_of_list_byte (bytes "SELECT 1")) = len (bytes "SELECT 1") /\
  list_byte_of_string (string_of_list_byte (bytes "SELECT 1"))
  = bytes "SELECT 1" /\
  decodeCString (bytes "SELECT 1")
  = Ret (""%string, Some (errors_New "decodeCString: delimeter not found")).
Proof.
  apply (decodeCString_first_terminator (bytes "SELECT 1") (bytes "tail")).
  vm_compute. intros H.
  repeat (apply elem_of_cons in H as [H|H]; [discriminate|]).
  now apply elem_of_nil in H.
Defined.

(** ** Parameter status, backend key data, command complete *)

Lemma slice_from_zero (p : list byte) : slice_from p 0 = Ret p.
Proof.
  rewrite slice_from_Ret by (pose proof (len_nonneg p); lia). reflexivity.
Qed.

(** X4. A parameter-status body of two zero-terminated strings decodes to
    the name and the value, whatever follows; with no terminator after the
    second string the decoding fails and the message keeps the name only;
    with no terminator at all it fails with both empty. *)
Theorem parseParameterStatusMessage_strings (name value rest : list byte) :
  x00 ∉ name -> x00 ∉ value ->
  parseParameterStatusMessage (name ++ x00 :: value ++ x00 :: rest)
  = Ret (ParameterStatusMessage (string_of_list_byte name)
                                (string_of_list_byte value), None) /\
  parseParameterStatusMessage (name ++ x00 :: value)
  = Ret (ParameterStatusMessage (string_of_list_byte name) "",
         Some (errors_New "decodeCString: delimeter not found")) /\
  parseParameterStatusMessage name
  = Ret (ParameterStatusMessage "" "",
         Some (errors_New "decodeCString: delimeter not found")).
Proof.
  intros Hn Hv.
  assert (Hoff : len name + 1 = len (name ++ [x00]))
    by (rewrite len_app; reflexivity).
  split; [|split].
  - unfold parseParameterStatusMessage. cbv zeta.
    rewrite slice_from_zero, bind_Ret.
    rewrite (decodeCString_found name _ Hn), bind_Ret. cbv beta iota.
    rewrite strlen_string_of_list_byte, Z.add_0_l, Hoff.
    replace (name ++ x00 :: value ++ x00 :: rest)
      with ((name ++ [x00]) ++ value ++ x00 :: rest) by now rewrite <- app_assoc.
    rewrite slice_from_app, bind_Ret.
    now rewrite (decodeCString_found value rest Hv), bind_Ret.
  - unfold parseParameterStatusMessage. cbv zeta.
    rewrite slice_from_zero, bind_Ret.
    rewrite (decodeCString_found name _ Hn), bind_Ret. cbv beta iota.
    rewrite strlen_string_of_list_byte, Z.add_0_l, Hoff.
    replace (name ++ x00 :: value) with ((name ++ [x00]) ++ value)
      by now rewrite <- app_assoc.
    rewrite slice_from_app, bind_Ret.
    now rewrite (decodeCString_missing value Hv), bind_Ret.
  - unfold parseParameterStatusMessage. cbv zeta.
    rewrite slice_from_zero, bind_Ret.
    now rewrite (decodeCString_missing name Hn), bind_Ret.
Qed.

Ltac no_zero_byte :=
  let H := fresh in
  vm_compute; intros H;
  repeat (apply elem_of_cons in H as [H|H]; [discriminate|]);
  now apply elem_of_nil in H.

Lemma parseParameterStatusMessage_strings_witness :
  parseParameterStatusMessage
    (bytes "client_encoding" ++ x00 :: bytes "UTF8" ++ x00 :: [])
  = Ret (ParameterStatusMessage (string_of_list_byte (bytes "client_encoding"))
                                (string_of_list_byte (bytes "UTF8")), None).
Proof.
  apply (proj1 (parseParameterStatusMessage_strings
                  (bytes "client_encoding") (bytes "UTF8") []
                  ltac:(no_zero_byte) ltac:(no_zero_byte))).
Defined.

(** X5. A backend-key-data body of eight bytes or more decodes to the two
    big-endian numbers of its first eight bytes; a body of four to seven
    bytes fails after the process id was read, and a shorter one fails
    with both numbers zero. *)
Theorem parseBackendKeyDataMessage_numbers (body : list byte) :
  (forall p0 p1 p2 p3 k0 k1 k2 k3 rest,
     body = p0 :: p1 :: p2 :: p3 :: k0 :: k1 :: k2 :: k3 :: rest ->
     parseBackendKeyDataMessage body
     = Ret (BackendKeyDataMessage (bigEndian32 p0 p1 p2 p3)
                                  (bigEndian32 k0 k1 k2 k3), None)) /\
  (forall p0 p1 p2 p3 rest,
     body = p0 :: p1 :: p2 :: p3 :: rest -> len rest < 4 ->
     parseBackendKeyDataMessage body
     = Ret (BackendKeyDataMessage (bigEndian32 p0 p1 p2 p3) 0,
            Some (errors_New
                    "decodeUint32: A buffer should be at least 4 bytes long"))) /\
  (len body < 4 ->
   parseBackendKeyDataMessage body
   = Ret (BackendKeyDataMessage 0 0,
          Some (errors_New
                  "decodeUint32: A buffer should be at least 4 bytes long"))).
Proof.
  split; [|split].
  - intros p0 p1 p2 p3 k0 k1 k2 k3 rest ->.
    unfold parseBackendKeyDataMessage.
    assert (E1 : decodeUint32 (p0 :: p1 :: p2 :: p3 :: k0 :: k1 :: k2 :: k3 :: rest) 0
                 = Ret (bigEndian32 p0 p1 p2 p3, None)).
    { rewrite <- be32_bigEndian.
      apply (decodeUint32_app [p0; p1; p2; p3]); reflexivity. }
    rewrite E1, bind_Ret. cbv beta iota.
    change 4 with (len [p0; p1; p2; p3]).
    change (p0 :: p1 :: p2 :: p3 :: k0 :: k1 :: k2 :: k3 :: rest)
      with ([p0; p1; p2; p3] ++ k0 :: k1 :: k2 :: k3 :: rest).
    rewrite slice_from_app, bind_Ret.
    assert (E2 : decodeUint32 (k0 :: k1 :: k2 :: k3 :: rest) 0
                 = Ret (bigEndian32 k0 k1 k2 k3, None)).
    { rewrite <- be32_bigEndian.
      apply (decodeUint32_app [k0; k1; k2; k3]); reflexivity. }
    now rewrite E2, bind_Ret.
  - intros p0 p1 p2 p3 rest -> Hrest.
    unfold parseBackendKeyDataMessage.
    assert (E1 : decodeUint32 (p0 :: p1 :: p2 :: p3 :: rest) 0
                 = Ret (bigEndian32 p0 p1 p2 p3, None)).
    { rewrite <- be32_bigEndian.
      apply (decodeUint32_app [p0; p1; p2; p3]); reflexivity. }
    rewrite E1, bind_Ret. cbv beta iota.
    change 4 with (len [p0; p1; p2; p3]).
    change (p0 :: p1 :: p2 :: p3 :: rest) with ([p0; p1; p2; p3] ++ rest).
    rewrite slice_from_app, bind_Ret.
    unfold decodeUint32. destruct (Z.ltb_spec (len rest) 4); [|lia].
    reflexivity.
  - intros H. unfold parseBackendKeyDataMessage, decodeUint32.
    destruct (Z.ltb_spec (len body) 4); [|lia]. reflexivity.
Qed.

Lemma parseBackendKeyDataMessage_numbers_witness :
  parseBackendKeyDataMessage [x00; x00; x00; x2a; x00; x00; x00; x63]
  = Ret (BackendKeyDataMessage (bigEndian32 x00 x00 x00 x2a)
                               (bigEndian32 x00 x00 x00 x63), None).
Proof.
  apply (proj1 (parseBackendKeyDataMessage_numbers
                  [x00; x00; x00; x2a; x00; x00; x00; x63])
           x00 x00 x00 x2a x00 x00 x00 x63 [] eq_refl).
Defined.

(** ** Error responses *)

Lemma decodeUint8_cons (b : byte) (p : list byte) (v : byte) :
  decodeUint8 (b :: p) v = Ret (b, None).
Proof.
  unfold decodeUint8. destruct (Z.ltb_spec (len (b :: p)) 1) as [H|_].
  - rewrite len_cons in H. pose proof (len_nonneg p). lia.
  - reflexivity.
Qed.

Lemma parseErrorResponse_loop_fields (fs : list (byte * list byte)) :
  forall (fuel : nat) (body hd tl : list byte) (fields : gmap byte string),
  Forall (fun f => f.1 <> x00 /\ x00 ∉ f.2) fs ->
  body = hd ++ errorFields_wire fs ++ tl ->
  (length fs < fuel)%nat ->
  parseErrorResponse_loop fuel body fields (len hd)
  = match tl with
    | [] => Ret (ErrorResponseMessage (errorFields_map fs fields),
                 Some (errors_New
                   "decodeUint8: A buffer should be at least 1 bytes long"))
    | b :: _ =>
        if Byte.eqb b x00
        then Ret (ErrorResponseMessage (errorFields_map fs fields), None)
        else parseErrorResponse_loop (fuel - length fs) body
               (errorFields_map fs fields) (len hd + len (errorFields_wire fs))
    end.
Proof.
  induction fs as [|[t s] fs IH]; intros fuel body hd tl fields Hfs Hbody Hfuel.
  - cbn [errorFields_wire errorFields_map fold_left length app] in *.
    destruct fuel as [|fuel]; [lia|].
    assert (Hsl : slice_from body (len hd) = Ret tl)
      by (rewrite Hbody; apply slice_from_app).
    destruct tl as [|b tl].
    + cbn [parseErrorResponse_loop]. rewrite Hsl, bind_Ret. reflexivity.
    + destruct (Byte.eqb b x00) eqn:E.
      * cbn [parseErrorResponse_loop].
        rewrite Hsl, bind_Ret, decodeUint8_cons, bind_Ret.
        cbv beta iota zeta. now rewrite E.
      * rewrite Nat.sub_0_r. unfold len at 2. simpl length.
        now rewrite Z.add_0_r.
  - apply Forall_cons in Hfs as [[Ht Hs] Hfs']. cbn [fst snd] in *.
    destruct fuel as [|fuel]; [simpl in Hfuel; lia|].
    cbn [parseErrorResponse_loop].
    assert (Hsl : slice_from body (len hd)
                  = Ret (t :: s ++ x00 :: errorFields_wire fs ++ tl)).
    { rewrite Hbody. cbn [errorFields_wire app]. rewrite <- app_assoc.
      apply slice_from_app. }
    rewrite Hsl, bind_Ret, decodeUint8_cons, bind_Ret.
    cbv beta iota zeta.
    destruct (Byte.eqb t x00) eqn:E;
      [apply Byte.byte_dec_bl in E; contradiction|].
    assert (Hb2 : body = (hd ++ [t]) ++ s ++ x00 :: errorFields_wire fs ++ tl).
    { rewrite Hbody. cbn [errorFields_wire app]. rewrite <- !app_assoc.
      cbn [app]. reflexivity. }
    assert (Hsl2 : slice_from body (len hd + 1)
                   = Ret (s ++ x00 :: errorFields_wire fs ++ tl)).
    { replace (len hd + 1) with (len (hd ++ [t]))
        by (rewrite len_app; reflexivity).
      rewrite Hb2. apply slice_from_app. }
    rewrite Hsl2, bind_Ret.
    rewrite (decodeCString_found s _ Hs), bind_Ret. cbv beta iota.
    rewrite strlen_string_of_list_byte.
    replace (len hd + 1 + (len s + 1)) with (len (hd ++ t :: s ++ [x00]))
      by (rewrite !len_app, !len_cons, !len_app; unfold len at 3; simpl; lia).
    rewrite (IH fuel body (hd ++ t :: s ++ [x00]) tl
               (<[t := string_of_list_byte s]> fields) Hfs');
      [|rewrite Hb2, <- !app_assoc; cbn [app]; now rewrite <- !app_assoc
       |simpl in Hfuel; lia].
    cbn [errorFields_map fold_left fst snd length Nat.sub].
    destruct tl as [|b tl]; [reflexivity|].
    destruct (Byte.eqb b x00); [reflexivity|].
    f_equal. cbn [errorFields_wire]. rewrite !len_app, !len_cons, !len_app, !len_cons.
    unfold len at 3. simpl length. lia.
Qed.

Lemma errorFields_wire_length (fs : list (byte * list byte)) :
  (length fs <= length (errorFields_wire fs))%nat.
Proof.
  induction fs as [|[t s] fs IH]; [reflexivity|].
  cbn [errorFields_wire length]. rewrite length_app. simpl. lia.
Qed.

Lemma errorFields_map_other (fs : list (byte * list byte)) :
  forall (fields : gmap byte string) (t : byte),
  t ∉ fs.*1 -> errorFields_map fs fields !! t = fields !! t.
Proof.
  induction fs as [|[t' s'] fs IH]; intros fields t Ht; [reflexivity|].
  cbn [fmap list_fmap fst] in Ht. apply not_elem_of_cons in Ht as [Hne Ht].
  cbn [errorFields_map fold_left fst snd].
  change (fold_left _ fs ?m) with (errorFields_map fs m).
  rewrite (IH _ t Ht). now rewrite lookup_insert_ne.
Qed.

(** X6. An error response made of fields with non-zero type bytes and a
    terminating zero byte decodes to the map from type byte to string in
    which the last field of a type wins; the same fields without the
    terminating zero fail with the decodeUint8 error. *)
Theorem parseErrorResponseMessage_fields (fs : list (byte * list byte))
  (rest : list byte) :
  Forall (fun f => f.1 <> x00 /\ x00 ∉ f.2) fs ->
  parseErrorResponseMessage (errorFields_wire fs ++ x00 :: rest)
  = Ret (ErrorResponseMessage (errorFields_map fs ∅), None) /\
  parseErrorResponseMessage (errorFields_wire fs)
  = Ret (ErrorResponseMessage (errorFields_map fs ∅),
         Some (errors_New
                 "decodeUint8: A buffer should be at least 1 bytes long")) /\
  forall fs1 t s fs2,
    fs = fs1 ++ (t, s) :: fs2 -> t ∉ fs2.*1 ->
    errorFields_map fs ∅ !! t = Some (string_of_list_byte s).
Proof.
  intros Hfs. split; [|split].
  - unfold parseErrorResponseMessage.
    change 0 with (len (@nil byte)).
    rewrite (parseErrorResponse_loop_fields fs _ _ [] (x00 :: rest) ∅ Hfs eq_refl).
    + reflexivity.
    + pose proof (errorFields_wire_length fs). rewrite length_app. lia.
  - unfold parseErrorResponseMessage.
    change 0 with (len (@nil byte)).
    rewrite (parseErrorResponse_loop_fields fs _ _ [] [] ∅ Hfs);
      [reflexivity|now rewrite app_nil_r|].
    pose proof (errorFields_wire_length fs). lia.
  - intros fs1 t s fs2 -> Ht. unfold errorFields_map.
    rewrite fold_left_app. cbn [fold_left fst snd].
    change (fold_left _ fs2 ?m) with (errorFields_map fs2 m).
    rewrite (errorFields_map_other fs2 _ t Ht). apply lookup_insert_eq.
Qed.

Lemma parseErrorResponseMessage_fields_witness :
  parseErrorResponseMessage
    (errorFields_wire [("S"%byte, bytes "ERROR"); ("C"%byte, bytes "42601");
                       ("C"%byte, bytes "42P01")] ++ x00 :: [])
  = Ret (ErrorResponseMessage
           (errorFields_map [("S"%byte, bytes "ERROR");
                             ("C"%byte, bytes "42601");
                             ("C"%byte, bytes "42P01")] ∅), None) /\
  errorFields_map [("S"%byte, bytes "ERROR"); ("C"%byte, bytes "42601");
                   ("C"%byte, bytes "42P01")] ∅ !! "C"%byte
  = Some (string_of_list_byte (bytes "42P01")).
Proof.
  destruct (parseErrorResponseMessage_fields
              [("S"%byte, bytes "ERROR"); ("C"%byte, bytes "42601");
               ("C"%byte, bytes "42P01")] [])
    as (Hparse & _ & Hlast).
  - repeat (constructor; [split; [discriminate|no_zero_byte]|]). constructor.
  - split; [exact Hparse|].
    apply (Hlast [("S"%byte, bytes "ERROR"); ("C"%byte, bytes "42601")]
             "C"%byte (bytes "42P01") []); [reflexivity|].
    apply not_elem_of_nil.
Defined.

(** ** Row descriptions *)

Lemma decodeUint32_cons (b0 b1 b2 b3 : byte) (rest : list byte) (v : Z) :
  decodeUint32 (b0 :: b1 :: b2 :: b3 :: rest) v
  = Ret (bigEndian32 b0 b1 b2 b3, None).
Proof.
  rewrite <- be32_bigEndian.
  apply (decodeUint32_app [b0; b1; b2; b3]); reflexivity.
Qed.

Lemma decodeUint16_cons (b0 b1 : byte) (rest : list byte) (v : Z) :
  decodeUint16 (b0 :: b1 :: rest) v = Ret (bigEndian16 b0 b1, None).
Proof.
  rewrite <- be16_bigEndian.
  apply (decodeUint16_app [b0; b1]); reflexivity.
Qed.

Lemma slice_from_split (body a b : list byte) (off : Z) :
  body = a ++ b -> off = len a -> slice_from body off = Ret b.
Proof. intros -> ->. apply slice_from_app. Qed.

Lemma alter_middle {A} (f : A -> A) (done tl : list A) (x : A) :
  alter f (length done) (done ++ x :: tl) = done ++ f x :: tl.
Proof.
  induction done as [|d done IH]; [reflexivity|].
  cbn [length app]. cbn [alter list_alter]. f_equal. exact IH.
Qed.

(** The slice of the body at the offset behind the prefix [a]. *)
Ltac at_offset Hbody a :=
  match goal with
  | |- context [slice_from ?body ?off ≫= _] =>
      erewrite (slice_from_split body a _ off);
      [rewrite bind_Ret
      |rewrite Hbody; repeat rewrite <- app_assoc; cbn [app]; reflexivity
      |repeat rewrite ?len_app, ?len_cons; unfold len; simpl length; lia]
  end.

(** One round of the loop on the bytes of one field. *)
Lemma parseRowDescription_loop_field (body hd tl : list byte) (w : FieldWire)
  (todo : list nat) (done after : list Field) :
  body = hd ++ field_wire w ++ tl -> x00 ∉ wName w ->
  parseRowDescription_loop body (length done :: todo)
    (done ++ zeroField :: after) (len hd)
  = parseRowDescription_loop body todo (done ++ field_value w :: after)
      (len hd + len (field_wire w)).
Proof.
  intros Hbody Hname.
  destruct w as [name [[[t0 t1] t2] t3] [a0 a1] [[[d0 d1] d2] d3] [s0 s1]
                   [[[m0 m1] m2] m3] [f0 f1]].
  unfold field_wire, field_value in *.
  cbn [wName wTableOID wAttributeNumber wDataTypeOID wDataTypeSize
       wTypeModifier wFormatCode bytes4 bytes2 value4 value2] in *.
  cbn [parseRowDescription_loop].
  pose proof (len_nonneg hd) as Hhd. pose proof (len_nonneg name) as Hnm.
  at_offset Hbody hd.
  rewrite (decodeCString_found name _ Hname). rewrite orReturn_ok. cbv zeta.
  rewrite strlen_string_of_list_byte.
  at_offset Hbody (hd ++ name ++ [x00]).
  rewrite decodeUint32_cons, orReturn_ok. cbv zeta.
  at_offset Hbody (hd ++ name ++ [x00; t0; t1; t2; t3]).
  rewrite decodeUint16_cons, orReturn_ok. cbv zeta.
  at_offset Hbody (hd ++ name ++ [x00; t0; t1; t2; t3; a0; a1]).
  rewrite decodeUint32_cons, orReturn_ok. cbv zeta.
  at_offset Hbody (hd ++ name ++ [x00; t0; t1; t2; t3; a0; a1; d0; d1; d2; d3]).
  rewrite decodeUint16_cons, orReturn_ok. cbv zeta.
  at_offset Hbody (hd ++ name ++ [x00; t0; t1; t2; t3; a0; a1; d0; d1; d2; d3;
                                  s0; s1]).
  rewrite decodeUint32_cons, orReturn_ok. cbv zeta.
  at_offset Hbody (hd ++ name ++ [x00; t0; t1; t2; t3; a0; a1; d0; d1; d2; d3;
                                  s0; s1; m0; m1; m2; m3]).
  rewrite decodeUint16_cons, orReturn_ok. cbv zeta.
  rewrite !alter_middle. cbn.
  f_equal. repeat rewrite ?len_app, ?len_cons. unfold len. simpl length. lia.
Qed.

Lemma parseRowDescription_loop_fields (ws : list FieldWire) :
  forall (body hd tl : list byte) (m : nat) (done : list Field),
  Forall (fun w => x00 ∉ wName w) ws ->
  body = hd ++ fields_wire ws ++ tl ->
  parseRowDescription_loop body (seq (length done) (length ws + m))
    (done ++ replicate (length ws + m) zeroField) (len hd)
  = parseRowDescription_loop body (seq (length done + length ws) m)
      (done ++ map field_value ws ++ replicate m zeroField)
      (len hd + len (fields_wire ws)).
Proof.
  induction ws as [|w ws IH]; intros body hd tl m done Hws Hbody.
  - cbn. unfold len at 2. cbn. now rewrite Nat.add_0_r, Z.add_0_r.
  - apply Forall_cons in Hws as [Hw Hws].
    unfold fields_wire in *. cbn [map concat length Nat.add seq replicate] in *.
    rewrite (parseRowDescription_loop_field body hd
               (concat (map field_wire ws) ++ tl) w _ done _)
      by (rewrite ?Hbody, <- ?app_assoc; auto).
    replace (len hd + len (field_wire w)) with (len (hd ++ field_wire w))
      by now rewrite len_app.
    replace (done ++ field_value w :: replicate (length ws + m) zeroField)
      with ((done ++ [field_value w]) ++ replicate (length ws + m) zeroField)
      by now rewrite <- app_assoc.
    replace (S (length done)) with (length (done ++ [field_value w]))
      by (rewrite length_app; simpl; lia).
    rewrite (IH body (hd ++ field_wire w) tl m (done ++ [field_value w]) Hws)
      by now rewrite Hbody, <- !app_assoc.
    rewrite !len_app, length_app, <- !app_assoc. cbn [length app].
    replace (length done + 1 + length ws)%nat
      with (length done + S (length ws))%nat by lia.
    now rewrite Z.add_assoc.
Qed.

(** X7. A row description whose count field says [length ws] and whose
    fields follow, each a zero-terminated name and eighteen bytes, decodes
    to the fields in order: the name as a string and the six numbers
    big-endian.  Bytes behind the last field are ignored. *)
Theorem parseRowDescriptionMessage_fields (c0 c1 : byte) (ws : list FieldWire)
  (tl : list byte) :
  Forall (fun w => x00 ∉ wName w) ws ->
  bigEndian16 c0 c1 = len ws ->
  parseRowDescriptionMessage (c0 :: c1 :: fields_wire ws ++ tl)
  = Ret (RowDescriptionMessage (map field_value ws), None).
Proof.
  intros Hws Hcount. unfold parseRowDescriptionMessage.
  rewrite decodeUint16_cons, orReturn_ok. cbv zeta.
  rewrite Hcount.
  replace (Z.to_nat (len ws)) with (length ws) by (unfold len; lia).
  rewrite length_replicate.
  pose proof (parseRowDescription_loop_fields ws
                (c0 :: c1 :: fields_wire ws ++ tl) [c0; c1] tl 0 [] Hws eq_refl)
    as H.
  cbn [length app Nat.add] in H. rewrite Nat.add_0_r in H.
  change (len [c0; c1]) with 2 in H.
  etransitivity; [exact H|].
  cbn [seq parseRowDescription_loop replicate]. now rewrite app_nil_r.
Qed.

Lemma parseRowDescriptionMessage_fields_witness :
  parseRowDescriptionMessage
    (x00 :: x01
       :: fields_wire
            [{| wName := bytes "n"; wTableOID := (x00, x00, x01, x00);
                wAttributeNumber := (x00, x02);
                wDataTypeOID := (x00, x00, x00, x06);
                wDataTypeSize := (x00, x08);
                wTypeModifier := (xff, xff, xff, xff);
                wFormatCode := (x00, x00) |}] ++ [])
  = Ret (RowDescriptionMessage
           [{| Name := "n"; TableOID := 256; AttributeNumber := 2;
               DataTypeOID := 6; DataTypeSize := 8;
               TypeModifier := 4294967295; FormatCode := 0 |}], None).
Proof.
  apply (parseRowDescriptionMessage_fields x00 x01
           [{| wName := bytes "n"; wTableOID := (x00, x00, x01, x00);
               wAttributeNumber := (x00, x02);
               wDataTypeOID := (x00, x00, x00, x06);
               wDataTypeSize := (x00, x08);
               wTypeModifier := (xff, xff, xff, xff);
               wFormatCode := (x00, x00) |}] []).
  - constructor; [no_zero_byte|constructor].
  - reflexivity.
Defined.

(** ** Counts and short rows *)

(** X8. Whatever a data row or a row description decodes to, with or
    without an error, the message holds exactly as many values, or
    fields, as the two count bytes say; a body too short for the count
    gives the error and an empty message. *)
Theorem decoded_length_is_wire_count (c0 c1 : byte) (rest : list byte)
  (m : IncomingMessage) (err : option error) :
  (parseDataRowMessage (c0 :: c1 :: rest) = Ret (m, err) ->
   exists vs, m = DataRowMessage vs /\ len vs = bigEndian16 c0 c1) /\
  (parseRowDescriptionMessage (c0 :: c1 :: rest) = Ret (m, err) ->
   exists fs, m = RowDescriptionMessage fs /\ len fs = bigEndian16 c0 c1) /\
  parseDataRowMessage [c0]
  = Ret (DataRowMessage [],
         Some (errors_New
                 "decodeUint16: A buffer should be at least 2 bytes long")) /\
  parseRowDescriptionMessage [c0]
  = Ret (RowDescriptionMessage [],
         Some (errors_New
                 "decodeUint16: A buffer should be at least 2 bytes long")).
Proof.
  pose proof (be16_range c0 c1) as Hr. rewrite be16_bigEndian in Hr.
  split; [|split; [|split; reflexivity]].
  - unfold parseDataRowMessage. rewrite decodeUint16_cons, orReturn_ok.
    cbv zeta. intros H.
    apply parseDataRow_loop_length in H as (vs & -> & Hl).
    exists vs. split; [reflexivity|].
    unfold len. rewrite Hl, length_replicate. lia.
  - unfold parseRowDescriptionMessage. rewrite decodeUint16_cons, orReturn_ok.
    cbv zeta. intros H.
    apply parseRowDescription_loop_length in H as (fs & -> & Hl).
    exists fs. split; [reflexivity|].
    unfold len. rewrite Hl, length_replicate. lia.
Qed.

Lemma decoded_length_is_wire_count_witness :
  exists vs,
    DataRowMessage [Some ["5"%byte]] = DataRowMessage vs /\
    len vs = bigEndian16 x00 x01.
Proof.
  apply (proj1 (decoded_length_is_wire_count x00 x01
                  [x00; x00; x00; x01; "5"%byte]
                  (DataRowMessage [Some ["5"%byte]]) None)).
  vm_compute. reflexivity.
Defined.

(** X9. A data row that declares more values than its body holds fails at
    the missing length field with the decodeUint32 error; the values read
    so far stay in the message and the others are absent. *)
Theorem parseDataRowMessage_missing_values (cf bpre tail : list byte)
  (pre : list (option (list byte))) (n : Z) :
  length cf = 2%nat -> unpackUint16 cf = Ret n ->
  values_wire pre bpre -> len pre < n -> len tail < 4 ->
  len (cf ++ bpre ++ tail) <= maxAlloc ->
  parseDataRowMessage (cf ++ bpre ++ tail)
  = Ret (DataRowMessage (pre ++ replicate (Z.to_nat n - length pre) None),
         Some (errors_New
                 "decodeUint32: A buffer should be at least 4 bytes long")).
Proof.
  intros Hcf Hn Hpre Hlt Htail Hmax.
  unfold parseDataRowMessage, orReturn.
  rewrite (decodeUint16_app cf _ n) by assumption.
  rewrite bind_Ret. cbv beta iota zeta. rewrite length_replicate.
  assert (Hm : exists m, Z.to_nat n = (length pre + S m)%nat).
  { exists (Z.to_nat n - length pre - 1)%nat. unfold len in Hlt. lia. }
  destruct Hm as (m & ->).
  replace 2 with (len cf) by (unfold len; rewrite Hcf; reflexivity).
  rewrite (parseDataRow_loop_values pre bpre Hpre _ cf tail 0 (S m) _
             eq_refl Hmax).
  simpl seq. cbn [parseDataRow_loop].
  rewrite <- len_app.
  assert (Hsl : slice_from (cf ++ bpre ++ tail) (len (cf ++ bpre)) = Ret tail).
  { rewrite app_assoc. apply slice_from_app. }
  rewrite Hsl, bind_Ret. unfold decodeUint32.
  destruct (Z.ltb_spec (len tail) 4); [|lia]. cbn.
  pose proof (fill_replicate pre [] (S m)) as F. simpl length in F.
  rewrite app_nil_l in F. rewrite F.
  now replace (length pre + S m - length pre)%nat with (S m) by lia.
Qed.

Lemma parseDataRowMessage_missing_values_witness :
  parseDataRowMessage ([x00; x02] ++ [x00; x00; x00; x01; "5"%byte] ++ [x00])
  = Ret (DataRowMessage ([Some ["5"%byte]] ++ replicate (Z.to_nat 2 - 1) None),
         Some (errors_New
                 "decodeUint32: A buffer should be at least 4 bytes long")).
Proof.
  apply (parseDataRowMessage_missing_values [x00; x02]
           [x00; x00; x00; x01; "5"%byte] [x00] [Some ["5"%byte]] 2);
    try reflexivity.
  - apply value_wire_single.
    apply (wire_present [x00; x00; x00; x01] ["5"%byte]);
      [reflexivity|reflexivity|discriminate].
  - unfold len, maxAlloc. simpl. lia.
Defined.

(** ** Short streams *)

Lemma io_ReadFull_short (s : Socket) (n : Z) :
  closed s = false -> len (inbound s) < n ->
  io_ReadFull n (Some s)
  = (Ret (inbound s ++ replicate (Z.to_nat n - length (inbound s)) x00,
          Some (match inbound s with
                | [] => io_EOF
                | _ => io_ErrUnexpectedEOF
                end)),
     Some (set_inbound [] s)).
Proof.
  intros Hc Hn. unfold io_ReadFull. rewrite Hc.
  destruct (Z.leb_spec n (len (inbound s))); [lia|reflexivity].
Qed.

Lemma receiveMessage_no_header (s : Socket) :
  closed s = false -> len (inbound s) < 5 ->
  receiveMessage (Some s)
  = (Ret (None, Some (match inbound s with
                      | [] => io_EOF
                      | _ => io_ErrUnexpectedEOF
                      end)),
     Some (set_inbound [] s)).
Proof.
  intros Hc H5. unfold receiveMessage, io_ReadAtLeast.
  rewrite (M_bind_Ret _ _ _ _ _ (io_ReadFull_short s 5 Hc H5)). reflexivity.
Qed.

(** X10. On an open socket whose stream ends inside a frame the reader
    returns no message and an error: io.EOF when the stream ends right
    before the header or right after it, io.ErrUnexpectedEOF when it ends
    inside the header or inside the body.  The tag is not looked at before
    the body is read, so this holds for unknown tags too. *)
Theorem receiveMessage_short_stream (s : Socket) :
  closed s = false ->
  (len (inbound s) < 5 ->
   receiveMessage (Some s)
   = (Ret (None, Some (match inbound s with
                       | [] => io_EOF
                       | _ => io_ErrUnexpectedEOF
                       end)),
      Some (set_inbound [] s))) /\
  (forall t lf rest n,
     inbound s = t :: lf ++ rest -> length lf = 4%nat ->
     unpackUint32 lf = Ret n -> len rest < n - 4 ->
     receiveMessage (Some s)
     = (Ret (None, Some (match rest with
                         | [] => io_EOF
                         | _ => io_ErrUnexpectedEOF
                         end)),
        Some (set_inbound [] s))).
Proof.
  intros Hc. split.
  - now apply receiveMessage_no_header.
  - intros t lf rest n Hi Hlf Hu Hrest.
    rewrite (receiveMessage_header s t lf rest n Hc Hi Hlf Hu).
    pose proof (unpackUint32_range lf n Hu Hlf) as Hr.
    pose proof (len_nonneg rest).
    destruct (Z.leb_spec 4 n); [|lia]. destruct (Z.ltb_spec 4 n); [|lia].
    assert (Hw : uint32 (n - 4) = n - 4)
      by (unfold uint32; apply Z.mod_small; lia).
    rewrite Hw.
    rewrite (M_bind_Ret _ _ _ _ _
               (io_ReadFull_short (set_inbound rest s) (n - 4) Hc Hrest)).
    reflexivity.
Qed.

Lemma receiveMessage_short_stream_witness :
  receiveMessage (Some (stream ["Z"%byte; x00; x00]))
  = (Ret (None, Some io_ErrUnexpectedEOF), Some (stream [])) /\
  receiveMessage (Some (stream ("D"%byte :: [x00; x00; x00; x0b] ++ [x00; x01])))
  = (Ret (None, Some io_ErrUnexpectedEOF), Some (stream [])) /\
  receiveMessage (Some (stream ("X"%byte :: [x00; x00; x00; x05] ++ [])))
  = (Ret (None, Some io_EOF), Some (stream [])).
Proof.
  split; [|split].
  - apply (proj1 (receiveMessage_short_stream (stream ["Z"%byte; x00; x00])
                    eq_refl)).
    unfold len. simpl. lia.
  - apply (proj2 (receiveMessage_short_stream
                    (stream ("D"%byte :: [x00; x00; x00; x0b] ++ [x00; x01]))
                    eq_refl) "D"%byte [x00; x00; x00; x0b] [x00; x01] 11);
      try reflexivity.
  - apply (proj2 (receiveMessage_short_stream
                    (stream ("X"%byte :: [x00; x00; x00; x05] ++ []))
                    eq_refl) "X"%byte [x00; x00; x00; x05] [] 5);
      try reflexivity.
Defined.

(** ** Close *)

(** X11. Close never panics and always tears the connection down: on an
    open socket it writes the terminate message, closes the socket, resets
    the parameters and the backend identifiers, keeps the transaction
    status and reports no error; a second Close changes nothing and
    reports the error of writing to the closed socket. *)
Theorem Close_tears_down_and_repeats (c : Connection) :
  exists err c1,
    Close c = (Ret err, c1) /\ torn c1 /\
    transactionStatus c1 = transactionStatus c /\
    (forall s, socket c = Some s -> closed s = false ->
       err = None /\
       socket c1 = Some (set_closed true
                           (set_outbound (outbound s ++ [TerminateMessage]) s))) /\
    exists e, Close c1 = (Ret (Some e), c1).
Proof.
  destruct c as [[s|] params pid key status];
    [destruct s as [[] inp out sec hs]|];
    (eexists _, _; split; [reflexivity|]); unfold torn; cbn;
    (split; [repeat split; auto|]); (split; [reflexivity|]);
    (split; [intros s Hs Hc; inversion Hs; subst; try discriminate;
             split; reflexivity
            |eexists; reflexivity]).
Qed.

(** ** Connect: the ways it fails before the handshake *)

(** X12. When the dial fails, Connect returns the dial error with a
    connection that has no socket, no parameters and zero identifiers. *)
Theorem Connect_dial_error (net_Dial : Network) (info : ConnectionInfo)
  (dialError : error) :
  net_Dial (Address info) = inr dialError ->
  Connect net_Dial info = Ret (zeroConnection, Some dialError) /\
  torn zeroConnection.
Proof.
  intros Hd. unfold Connect, Connect_body, mbind, M_bind. rewrite Hd.
  split; [reflexivity|]. unfold torn. cbn. auto.
Qed.

Lemma Connect_dial_error_witness :
  Connect (fun _ => inr (errors_New "connection refused")) defaultConnectionInfo
  = Ret (zeroConnection, Some (errors_New "connection refused")) /\
  torn zeroConnection.
Proof.
  apply (Connect_dial_error (fun _ => inr (errors_New "connection refused"))
           defaultConnectionInfo (errors_New "connection refused")).
  reflexivity.
Defined.

Lemma io_ReadFull_one (s : Socket) :
  closed s = false ->
  exists err,
    io_ReadFull 1 (Some s)
    = (Ret ([hd x00 (inbound s)], err), Some (set_inbound (tail (inbound s)) s)).
Proof.
  intros Hc. unfold io_ReadFull. rewrite Hc.
  destruct (inbound s) as [|b rest] eqn:Hi.
  - eexists. reflexivity.
  - assert (H : (1 <=? len (b :: rest)) = true).
    { apply Z.leb_le. rewrite len_cons. pose proof (len_nonneg rest). lia. }
    rewrite H. eexists. reflexivity.
Qed.

Lemma Connect_ssl_refused (config : tls_Config) (c : Connection) (s : Socket) :
  socket c = Some s -> closed s = false -> head (inbound s) <> Some "S"%byte ->
  Connect_ssl config c
  = (Panic (PanicError SslNotSupported),
     set_socket
       (Some (set_inbound (tail (inbound s))
                (set_outbound (outbound s ++ [SSLRequestMessage]) s))) c).
Proof.
  intros Hs Hc Hhead. unfold Connect_ssl.
  rewrite (M_bind_Ret _ _ _ _ _ (sendMessage_open c s SSLRequestMessage Hs Hc)).
  destruct (io_ReadFull_one
              (set_outbound (outbound s ++ [SSLRequestMessage]) s) Hc)
    as [err Hr].
  unfold mbind, M_bind, on_socket, pure.
  cbn [socket set_socket]. rewrite Hr. cbn [inbound set_outbound].
  destruct (inbound s) as [|b rest] eqn:Hi.
  - reflexivity.
  - cbn. change (Z.to_nat 0) with 0%nat. cbn.
    destruct (Byte.eqb b "S"%byte) eqn:E; [|reflexivity].
    apply Byte.byte_dec_bl in E. subst b. now destruct Hhead.
Qed.

Lemma Connect_ssl_accepted (config : tls_Config) (c : Connection) (s : Socket)
  (rest : list byte) :
  socket c = Some s -> closed s = false -> inbound s = "S"%byte :: rest ->
  Connect_ssl config c
  = (match handshake s with
     | Some e => Panic (PanicError e)
     | None => Ret tt
     end, set_socket (Some (upgraded s)) c).
Proof.
  intros Hs Hc Hi. unfold Connect_ssl.
  rewrite (M_bind_Ret _ _ _ _ _ (sendMessage_open c s SSLRequestMessage Hs Hc)).
  destruct (io_ReadFull_one
              (set_outbound (outbound s ++ [SSLRequestMessage]) s) Hc)
    as [err Hr].
  unfold mbind, M_bind, on_socket, pure, upgraded.
  cbn [socket set_socket]. rewrite Hr. cbn [inbound set_outbound]. rewrite Hi.
  cbn. change (Z.to_nat 0) with 0%nat. cbn.
  destruct (handshake s); reflexivity.
Qed.

Lemma initConnection_loop_plain (info : ConnectionInfo) (fuel : nat) :
  forall c, initConnection_loop fuel info c
            = initConnection_loop fuel (plain info) c.
Proof.
  induction fuel as [|fuel IH]; intros c; [reflexivity|].
  cbn [initConnection_loop]. unfold mbind, M_bind.
  destruct (Connection_receiveMessage c) as [[msg| |] c1]; try reflexivity.
  destruct (isReadyForQuery msg c1) as [[[]| |] c2]; try reflexivity.
  destruct msg as [[]|]; cbn [Password plain];
    match goal with
    | |- (let (_, _) := ?m in _) = _ =>
        destruct m as [[[]| |] c3]; try reflexivity; apply IH
    end.
Qed.

Lemma initConnection_plain (info : ConnectionInfo) (c : Connection) :
  initConnection (plain info) c = initConnection info c.
Proof.
  unfold initConnection, mbind, M_bind, reading. cbn [User Database plain].
  destruct (sendMessage _ _) as [[[]| |] c1]; try reflexivity.
  now rewrite <- initConnection_loop_plain.
Qed.

(** X13. With a TLS configuration Connect first writes the SSL request and
    reads one byte.  Any answer but 'S', no answer included, makes it fail
    with the SSL-unsupported error: the socket is closed and nothing but
    the SSL request was written.  After 'S' a failed TLS handshake is
    returned as the error; a successful one is followed by the same
    handshake as without TLS, run over the wrapped socket. *)
Theorem Connect_ssl_negotiation (net_Dial : Network) (info : ConnectionInfo)
  (config : tls_Config) (s : Socket) :
  net_Dial (Address info) = inl s -> SslConfig info = Some config ->
  closed s = false ->
  (head (inbound s) <> Some "S"%byte ->
   exists c,
     Connect net_Dial info = Ret (c, Some SslNotSupported) /\ torn c /\
     socket c
     = Some (set_closed true
               (set_inbound (tail (inbound s))
                  (set_outbound (outbound s ++ [SSLRequestMessage]) s)))) /\
  (head (inbound s) = Some "S"%byte ->
   forall e, handshake s = Some e ->
   exists c,
     Connect net_Dial info = Ret (c, Some e) /\ torn c /\
     socket c = Some (set_closed true (upgraded s))) /\
  (head (inbound s) = Some "S"%byte -> handshake s = None ->
   Connect net_Dial info = Connect (fun _ => inl (upgraded s)) (plain info)).
Proof.
  intros Hd Hssl Hc.
  assert (Hbody : Connect_body net_Dial info zeroConnection
    = (_ ← Connect_ssl config; _ ← modify (set_parameters ∅);
       initConnection info) (set_socket (Some s) zeroConnection)).
  { unfold Connect_body. rewrite Hd, Hssl. reflexivity. }
  split; [|split].
  - intros Hhead. unfold Connect. rewrite Hbody.
    rewrite (M_bind_Panic _ _ _ _ _
               (Connect_ssl_refused config
                  (set_socket (Some s) zeroConnection) s eq_refl Hc Hhead)).
    eexists. split; [reflexivity|]. split; [|reflexivity].
    unfold torn. cbn. auto.
  - intros Hhead e He. destruct (inbound s) as [|b rest] eqn:Hi;
      [discriminate|]. cbn in Hhead. inversion Hhead; subst b.
    unfold Connect. rewrite Hbody.
    pose proof (Connect_ssl_accepted config
                  (set_socket (Some s) zeroConnection) s rest eq_refl Hc Hi) as H.
    rewrite He in H. rewrite (M_bind_Panic _ _ _ _ _ H).
    eexists. split; [reflexivity|]. split; [|reflexivity].
    unfold torn. cbn. auto.
  - intros Hhead He. destruct (inbound s) as [|b rest] eqn:Hi;
      [discriminate|]. cbn in Hhead. inversion Hhead; subst b.
    unfold Connect. rewrite Hbody.
    pose proof (Connect_ssl_accepted config
                  (set_socket (Some s) zeroConnection) s rest eq_refl Hc Hi) as H.
    rewrite He in H. rewrite (M_bind_Ret _ _ _ _ _ H).
    unfold Connect_body. cbn [plain Address SslConfig].
    assert (E : (_ ← modify (set_parameters ∅); initConnection info)
                  (set_socket (Some (upgraded s))
                     (set_socket (Some s) zeroConnection))
                = (_ ← modify (set_socket (Some (upgraded s)));
                   _ ← mret tt;
                   _ ← modify (set_parameters ∅);
                   initConnection (plain info)) zeroConnection).
    { unfold mbind, M_bind, modify, mret, M_ret. cbv beta iota zeta.
      symmetry. apply initConnection_plain. }
    now rewrite E.
Qed.

Lemma Connect_ssl_negotiation_witness :
  exists c,
    Connect (fun _ => inl (stream ["N"%byte])) sslConnectionInfo
    = Ret (c, Some SslNotSupported) /\ torn c /\
    socket c
    = Some (set_closed true
              (set_inbound []
                 (set_outbound [SSLRequestMessage] (stream ["N"%byte])))).
Proof.
  refine (proj1 (Connect_ssl_negotiation (fun _ => inl (stream ["N"%byte]))
                   sslConnectionInfo TLSConfig (stream ["N"%byte])
                   eq_refl eq_refl eq_refl) _).
  cbn. discriminate.
Defined.

(** ** The handshake over a run of frames *)

Lemma merge1_socket (w : option Socket) (c : Connection) (m : IncomingMessage) :
  merge1 (set_socket w c) m = set_socket w (merge1 c m).
Proof. destruct m; reflexivity. Qed.

Lemma merge_socket (ms : list IncomingMessage) (w : option Socket) :
  forall c, merge ms (set_socket w c) = set_socket w (merge ms c).
Proof.
  unfold merge. induction ms as [|m ms IH]; intros c; [reflexivity|].
  cbn [fold_left]. rewrite merge1_socket. apply IH.
Qed.

Lemma merge_keeps_socket (ms : list IncomingMessage) :
  forall c, socket (merge ms c) = socket c.
Proof.
  unfold merge. induction ms as [|m ms IH]; intros c; [reflexivity|].
  cbn [fold_left]. rewrite IH. destruct m; reflexivity.
Qed.

Lemma exchanged_nil (s : Socket) : exchanged [] (inbound s) s = s.
Proof. unfold exchanged. destruct s; cbn. now rewrite app_nil_r. Qed.

Lemma exchanged_step (out1 out2 : list OutgoingMessage) (mid rest : list byte)
  (s : Socket) :
  exchanged out2 rest (exchanged out1 mid s) = exchanged (out1 ++ out2) rest s.
Proof. unfold exchanged. destruct s; cbn. now rewrite app_assoc. Qed.

Lemma set_socket_twice (w w' : option Socket) (c : Connection) :
  set_socket w (set_socket w' c) = set_socket w c.
Proof. reflexivity. Qed.

Lemma set_socket_same (c : Connection) (s : Socket) :
  socket c = Some s -> set_socket (Some s) c = c.
Proof. destruct c; cbn; intros <-; reflexivity. Qed.

(** One round of the loop of initConnection on a greeting message. *)
Lemma initConnection_loop_greeting (fuel : nat) (info : ConnectionInfo)
  (c : Connection) (s : Socket) (m : IncomingMessage) (mid : list byte) :
  socket c = Some s -> closed s = false -> reads (inbound s) m mid ->
  greeting m = true ->
  initConnection_loop (S fuel) info c
  = initConnection_loop fuel info
      (set_socket (Some (exchanged (answers info [m]) mid s)) (merge1 c m)).
Proof.
  intros Hs Hc Hr Hg.
  rewrite (initConnection_loop_read fuel info c s m mid Hs Hc Hr).
  destruct m as [| |code salt| | | | | |]; try discriminate; cbn in Hg.
  - cbn [isReadyForQuery answers merge1]. unfold mbind, M_bind.
    cbn [mret M_ret].
    destruct (code =? AuthenticationOK) eqn:E0.
    + apply Z.eqb_eq in E0. subst code. cbn.
      unfold on_rest, exchanged. now rewrite app_nil_r.
    + cbn in Hg. rewrite Hg.
      rewrite (sendMessage_open (on_rest mid s c) (set_inbound mid s)
                 (PasswordMessage (Password info) code) eq_refl Hc).
      reflexivity.
  - cbn. unfold on_rest, exchanged. now rewrite app_nil_r.
  - cbn. unfold on_rest, exchanged. now rewrite app_nil_r.
Qed.

Lemma answers_cons (info : ConnectionInfo) (m : IncomingMessage)
  (ms : list IncomingMessage) :
  answers info (m :: ms) = answers info [m] ++ answers info ms.
Proof.
  destruct m as [| |code salt| | | | | |]; try reflexivity.
  cbn. now destruct (code =? AuthenticationCleartextPassword).
Qed.

Lemma initConnection_loop_frames (info : ConnectionInfo) inp ms rest :
  frames inp ms rest -> forallb greeting ms = true ->
  forall (fuel : nat) (c : Connection) (s : Socket),
  socket c = Some s -> closed s = false -> inbound s = inp ->
  (length inp < fuel)%nat ->
  exists fuel', (length rest < fuel')%nat /\
    initConnection_loop fuel info c
    = initConnection_loop fuel' info
        (set_socket (Some (exchanged (answers info ms) rest s)) (merge ms c)).
Proof.
  induction 1 as [inp|inp m mid ms rest Hr Hfr IH];
    intros Hms fuel c s Hs Hc Hi Hfuel.
  - exists fuel. split; [exact Hfuel|]. subst inp.
    cbn [answers merge fold_left]. rewrite exchanged_nil.
    now rewrite set_socket_same.
  - cbn [forallb] in Hms. apply andb_true_iff in Hms as [Hm Hms].
    pose proof (reads_shorter _ _ _ Hr) as Hshort.
    destruct fuel as [|fuel]; [lia|]. subst inp.
    rewrite (initConnection_loop_greeting fuel info c s m mid Hs Hc Hr Hm).
    destruct (IH Hms fuel
                (set_socket (Some (exchanged (answers info [m]) mid s))
                   (merge1 c m))
                (exchanged (answers info [m]) mid s))
      as (fuel' & Hf' & E); [reflexivity|exact Hc|reflexivity|lia|].
    exists fuel'. split; [exact Hf'|]. rewrite E.
    rewrite exchanged_step, <- answers_cons, merge_socket, set_socket_twice.
    reflexivity.
Qed.

Lemma Connect_body_greeted (net_Dial : Network) (info : ConnectionInfo)
  (s : Socket) (ms : list IncomingMessage) (rest : list byte) :
  net_Dial (Address info) = inl s -> SslConfig info = None ->
  closed s = false -> frames (inbound s) ms rest ->
  forallb greeting ms = true ->
  exists fuel, (length rest < fuel)%nat /\
    Connect_body net_Dial info zeroConnection
    = initConnection_loop fuel info (greeted info ms rest s).
Proof.
  intros Hd Hssl Hc Hfr Hms.
  rewrite (Connect_body_plain net_Dial info s Hd Hssl Hc). cbv zeta.
  set (sent := set_outbound
                 (outbound s ++ [StartupMessage (User info) (Database info)]) s).
  destruct (initConnection_loop_frames info _ _ _ Hfr Hms
              (S (length (inbound s))) (set_socket (Some sent) zeroConnection)
              sent eq_refl Hc eq_refl) as (fuel & Hfuel & E); [lia|].
  exists fuel. split; [exact Hfuel|]. rewrite E. unfold greeted.
  rewrite merge_socket, set_socket_twice. f_equal. f_equal. f_equal.
  unfold sent, exchanged. destruct s; cbn. now rewrite <- app_assoc.
Qed.

Lemma Connection_receiveMessage_error (c : Connection) (s : Socket)
  (msg : option IncomingMessage) (e : error) (w : option Socket) :
  socket c = Some s -> ReadMessage (Some s) = (Ret (msg, Some e), w) ->
  Connection_receiveMessage c = (Panic (PanicError e), set_socket w c).
Proof.
  intros Hs Hr. unfold Connection_receiveMessage, mbind, M_bind, on_socket.
  rewrite Hs, Hr. reflexivity.
Qed.

Lemma Connection_receiveMessage_ends (c : Connection) (s : Socket) :
  socket c = Some s -> closed s = false -> (length (inbound s) < 5)%nat ->
  Connection_receiveMessage c
  = (Panic (PanicError (endOfStream (inbound s))),
     set_socket (Some (set_inbound [] s)) c).
Proof.
  intros Hs Hc H5.
  apply (Connection_receiveMessage_error c s None); [exact Hs|].
  unfold ReadMessage. apply receiveMessage_no_header; [exact Hc|].
  unfold len. lia.
Qed.

(** The last round of the handshake: what the loop does on a message it
    does not go past. *)
Lemma initConnection_loop_ready (fuel : nat) (info : ConnectionInfo)
  (c : Connection) (s : Socket) (status : byte) (rest : list byte) :
  socket c = Some s -> closed s = false ->
  reads (inbound s) (ReadyForQueryMessage status) rest ->
  initConnection_loop (S fuel) info c
  = (Ret tt, set_transactionStatus status (on_rest rest s c)).
Proof.
  intros Hs Hc Hr.
  now rewrite (initConnection_loop_read fuel info c s _ rest Hs Hc Hr).
Qed.

Lemma initConnection_loop_refusal (fuel : nat) (info : ConnectionInfo)
  (c : Connection) (s : Socket) (m : IncomingMessage) (e : error)
  (rest : list byte) :
  socket c = Some s -> closed s = false -> reads (inbound s) m rest ->
  refusal m = Some e ->
  initConnection_loop (S fuel) info c
  = (Panic (PanicError e), on_rest rest s c).
Proof.
  intros Hs Hc Hr He.
  rewrite (initConnection_loop_read fuel info c s _ rest Hs Hc Hr).
  destruct m as [fields| |code salt| | | | | |]; try discriminate.
  - cbn in He. inversion He; subst e. reflexivity.
  - cbn in He. cbn [isReadyForQuery]. unfold mbind, M_bind. cbn [mret M_ret].
    destruct (code =? AuthenticationOK); [discriminate|].
    destruct (code =? AuthenticationCleartextPassword); [discriminate|].
    cbn in He. inversion He; subst e. reflexivity.
Qed.

Lemma initConnection_loop_unexpected (fuel : nat) (info : ConnectionInfo)
  (c : Connection) (s : Socket) (m : IncomingMessage) (rest : list byte) :
  socket c = Some s -> closed s = false -> reads (inbound s) m rest ->
  unexpected m = true ->
  initConnection_loop (S fuel) info c
  = (Panic (PanicString (UnexpectedMessage (Some m))), on_rest rest s c).
Proof.
  intros Hs Hc Hr Hu.
  rewrite (initConnection_loop_read fuel info c s _ rest Hs Hc Hr).
  destruct m; try discriminate; reflexivity.
Qed.

Lemma greeted_socket (info : ConnectionInfo) (ms : list IncomingMessage)
  (rest : list byte) (s : Socket) :
  socket (greeted info ms rest s)
  = Some (exchanged
            (StartupMessage (User info) (Database info) :: answers info ms)
            rest s).
Proof. reflexivity. Qed.

Lemma torn_reset (c : Connection) (s : Socket) :
  torn (set_backendKey 0 (set_backendPid 0 (set_parameters ∅
          (set_socket (Some (Socket_Close s)) c)))).
Proof. unfold torn. cbn. auto. Qed.

(** X14. Without TLS, when the server answers the startup message with
    session updates and authentication requests that are satisfied or ask
    for the clear-text password, and then with ready-for-query, Connect
    returns without an error: the socket is open, every clear-text request
    has been answered with the password, in order, after the startup
    message, the parameters and backend identifiers are those the server
    sent last, and the transaction status is the one of ready-for-query. *)
Theorem Connect_handshake (net_Dial : Network) (info : ConnectionInfo)
  (s : Socket) (ms : list IncomingMessage) (status : byte)
  (rest : list byte) :
  net_Dial (Address info) = inl s -> SslConfig info = None ->
  closed s = false ->
  frames (inbound s) (ms ++ [ReadyForQueryMessage status]) rest ->
  forallb greeting ms = true ->
  Connect net_Dial info
  = Ret (set_transactionStatus status (greeted info ms rest s), None) /\
  open (greeted info ms rest s).
Proof.
  intros Hd Hssl Hc Hfr Hms.
  apply frames_app_inv in Hfr as (mid & Hfr & Hlast).
  inversion Hlast as [|? ? ? ? ? Hr Hnil]; subst. inversion Hnil; subst.
  destruct (Connect_body_greeted net_Dial info s ms mid Hd Hssl Hc Hfr Hms)
    as (fuel & Hfuel & E).
  destruct fuel as [|fuel]; [lia|].
  split.
  - unfold Connect. rewrite E.
    rewrite (initConnection_loop_ready fuel info _ _ status rest
               (greeted_socket info ms mid s) Hc Hr).
    reflexivity.
  - eexists. split; [apply greeted_socket|exact Hc].
Qed.

Lemma Connect_handshake_witness :
  Connect (fun _ => inl (stream (frameAuthenticationCleartext
                                   ++ handshake_script)))
    passwordConnectionInfo
  = Ret (set_transactionStatus "I"%byte
           (greeted passwordConnectionInfo password_greeting []
              (stream (frameAuthenticationCleartext ++ handshake_script))),
         None) /\
  open (greeted passwordConnectionInfo password_greeting []
          (stream (frameAuthenticationCleartext ++ handshake_script))).
Proof.
  apply (Connect_handshake
           (fun _ => inl (stream (frameAuthenticationCleartext
                                    ++ handshake_script)))
           passwordConnectionInfo
           (stream (frameAuthenticationCleartext ++ handshake_script))
           password_greeting "I"%byte []); try reflexivity.
  unfold password_greeting. cbn [app]. read_frames.
Defined.

Example Connect_sends_password :
  outbound <$> socket
    (greeted passwordConnectionInfo password_greeting []
       (stream (frameAuthenticationCleartext ++ handshake_script)))
  = Some [StartupMessage "dbadmin" ""; PasswordMessage "secret" 3].
Proof. reflexivity. Qed.

(** X15. When, after such greetings, the server asks for an
    authentication method other than OK or clear text, or sends an error
    response, Connect returns the error (the fixed not-supported error, or
    the error response itself) with a connection that is torn down:
    socket closed, parameters and backend identifiers reset.  Nothing is
    written after the refusal. *)
Theorem Connect_handshake_refused (net_Dial : Network) (info : ConnectionInfo)
  (s : Socket) (ms : list IncomingMessage) (m : IncomingMessage) (e : error)
  (rest : list byte) :
  net_Dial (Address info) = inl s -> SslConfig info = None ->
  closed s = false ->
  frames (inbound s) (ms ++ [m]) rest ->
  forallb greeting ms = true -> refusal m = Some e ->
  exists c,
    Connect net_Dial info = Ret (c, Some e) /\ torn c /\
    socket c
    = Some (set_closed true
              (exchanged
                 (StartupMessage (User info) (Database info) :: answers info ms)
                 rest s)).
Proof.
  intros Hd Hssl Hc Hfr Hms He.
  apply frames_app_inv in Hfr as (mid & Hfr & Hlast).
  inversion Hlast as [|? ? ? ? ? Hr Hnil]; subst. inversion Hnil; subst.
  destruct (Connect_body_greeted net_Dial info s ms mid Hd Hssl Hc Hfr Hms)
    as (fuel & Hfuel & E).
  destruct fuel as [|fuel]; [lia|].
  unfold Connect. rewrite E.
  rewrite (initConnection_loop_refusal fuel info _ _ m e rest
             (greeted_socket info ms mid s) Hc Hr He).
  eexists. split; [reflexivity|]. split; [apply torn_reset|reflexivity].
Qed.

Lemma Connect_handshake_refused_witness :
  exists c,
    Connect (fun _ => inl (stream (frameAuthenticationMD5 ++ handshake_script)))
      defaultConnectionInfo
    = Ret (c, Some AuthenticationMethodNotSupported) /\ torn c /\
    socket c
    = Some (set_closed true
              (exchanged [StartupMessage "dbadmin" ""] handshake_script
                 (stream (frameAuthenticationMD5 ++ handshake_script)))).
Proof.
  apply (Connect_handshake_refused
           (fun _ => inl (stream (frameAuthenticationMD5 ++ handshake_script)))
           defaultConnectionInfo
           (stream (frameAuthenticationMD5 ++ handshake_script))
           [] (AuthenticationRequestMessage 5 None)); try reflexivity.
  cbn [app]. read_frames.
Defined.

(** X16. When, after such greetings, the server sends a message the
    handshake has no case for (the empty-query notice, a command
    completion, a row description or a data row), the panic carries a
    string, the type assertion of the recover handler fails, and Connect
    does not return: it panics with the interface-conversion error. *)
Theorem Connect_unexpected_message (net_Dial : Network)
  (info : ConnectionInfo) (s : Socket) (ms : list IncomingMessage)
  (m : IncomingMessage) (rest : list byte) :
  net_Dial (Address info) = inl s -> SslConfig info = None ->
  closed s = false ->
  frames (inbound s) (ms ++ [m]) rest ->
  forallb greeting ms = true -> unexpected m = true ->
  Connect net_Dial info = runtimePanic InterfaceConversion.
Proof.
  intros Hd Hssl Hc Hfr Hms Hu.
  apply frames_app_inv in Hfr as (mid & Hfr & Hlast).
  inversion Hlast as [|? ? ? ? ? Hr Hnil]; subst. inversion Hnil; subst.
  destruct (Connect_body_greeted net_Dial info s ms mid Hd Hssl Hc Hfr Hms)
    as (fuel & Hfuel & E).
  destruct fuel as [|fuel]; [lia|].
  unfold Connect. rewrite E.
  rewrite (initConnection_loop_unexpected fuel info _ _ m rest
             (greeted_socket info ms mid s) Hc Hr Hu).
  reflexivity.
Qed.

Lemma Connect_unexpected_message_witness :
  Connect (fun _ => inl (stream (frameAuthenticationOK ++ frameInsertComplete)))
    defaultConnectionInfo
  = runtimePanic InterfaceConversion.
Proof.
  apply (Connect_unexpected_message
           (fun _ => inl (stream (frameAuthenticationOK ++ frameInsertComplete)))
           defaultConnectionInfo
           (stream (frameAuthenticationOK ++ frameInsertComplete))
           [AuthenticationRequestMessage 0 None]
           (CommandCompleteMessage "INSERT 1") []); try reflexivity.
  cbn [app]. read_frames.
Defined.

(** X17. When the stream ends during the handshake, after such greetings
    and with fewer than five bytes left, Connect returns the error of the
    read (io.EOF at a frame boundary, io.ErrUnexpectedEOF inside a header)
    with a connection that is torn down. *)
Theorem Connect_stream_ends (net_Dial : Network) (info : ConnectionInfo)
  (s : Socket) (ms : list IncomingMessage) (rest : list byte) :
  net_Dial (Address info) = inl s -> SslConfig info = None ->
  closed s = false ->
  frames (inbound s) ms rest -> forallb greeting ms = true ->
  (length rest < 5)%nat ->
  exists c,
    Connect net_Dial info = Ret (c, Some (endOfStream rest)) /\ torn c /\
    socket c
    = Some (set_closed true
              (exchanged
                 (StartupMessage (User info) (Database info) :: answers info ms)
                 [] s)).
Proof.
  intros Hd Hssl Hc Hfr Hms H5.
  destruct (Connect_body_greeted net_Dial info s ms rest Hd Hssl Hc Hfr Hms)
    as (fuel & Hfuel & E).
  destruct fuel as [|fuel]; [lia|].
  unfold Connect. rewrite E. cbn [initConnection_loop].
  rewrite (M_bind_Panic _ _ _ _ _
             (Connection_receiveMessage_ends _ _
                (greeted_socket info ms rest s) Hc H5)).
  eexists. split; [reflexivity|]. split; [apply torn_reset|reflexivity].
Qed.

Lemma Connect_stream_ends_witness :
  exists c,
    Connect (fun _ => inl (stream (frameAuthenticationOK ++ [x5a; x00])))
      defaultConnectionInfo
    = Ret (c, Some io_ErrUnexpectedEOF) /\ torn c /\
    socket c
    = Some (set_closed true
              (exchanged [StartupMessage "dbadmin" ""] []
                 (stream (frameAuthenticationOK ++ [x5a; x00])))).
Proof.
  apply (Connect_stream_ends
           (fun _ => inl (stream (frameAuthenticationOK ++ [x5a; x00])))
           defaultConnectionInfo
           (stream (frameAuthenticationOK ++ [x5a; x00]))
           [AuthenticationRequestMessage 0 None] [x5a; x00]);
    try reflexivity.
  - cbn [app]. read_frames.
  - cbn. lia.
Defined.

(** ** Open or torn down *)

Lemma M_bind_Ret_inv {S A B} (m : M S A) (k : A -> M S B) (s s' : S) (b : B) :
  (m ≫= k) s = (Ret b, s') ->
  exists a s1, m s = (Ret a, s1) /\ k a s1 = (Ret b, s').
Proof.
  unfold mbind, M_bind. destruct (m s) as [[a| |] s1]; intros H;
    try discriminate.
  now exists a, s1.
Qed.

Lemma Connection_receiveMessage_open (c c' : Connection)
  (msg : option IncomingMessage) :
  Connection_receiveMessage c = (Ret msg, c') -> open c'.
Proof.
  unfold Connection_receiveMessage, on_socket, ReadMessage, mbind, M_bind.
  destruct (socket c) as [s|] eqn:Hs; [|discriminate].
  destruct (receiveMessage_cases (closed s) (inbound s))
    as (r & rest & H & Hlen & Hcase).
  rewrite (H s eq_refl eq_refl).
  destruct r as [[m [e|]]| |]; try discriminate.
  destruct Hcase as (_ & Hc & _).
  intros E. inversion E; subst. eexists. split; [reflexivity|].
  cbn. now symmetry.
Qed.

Lemma sendMessage_keeps_open (msg : OutgoingMessage) (c c' : Connection) :
  open c -> sendMessage msg c = (Ret tt, c') -> open c'.
Proof.
  intros (s & Hs & Hc). rewrite (sendMessage_open c s msg Hs Hc).
  intros E. inversion E; subst. eexists. split; [reflexivity|exact Hc].
Qed.

Lemma isReadyForQuery_keeps_open (msg : option IncomingMessage)
  (c c' : Connection) (b : bool) :
  open c -> isReadyForQuery msg c = (Ret b, c') -> open c'.
Proof.
  intros Ho. destruct msg as [[]|]; cbn; intros E; inversion E; subst;
    exact Ho.
Qed.

Lemma handleStatelessMessage_keeps_open (msg : option IncomingMessage)
  (c c' : Connection) :
  open c -> handleStatelessMessage msg c = (Ret tt, c') -> open c'.
Proof.
  intros Ho. destruct msg as [[]|]; cbn; intros E; inversion E; subst;
    exact Ho.
Qed.

Lemma initConnection_loop_open (info : ConnectionInfo) (fuel : nat) :
  forall c c', initConnection_loop fuel info c = (Ret tt, c') -> open c'.
Proof.
  induction fuel as [|fuel IH]; intros c c' E; [discriminate|].
  cbn [initConnection_loop] in E.
  apply M_bind_Ret_inv in E as (msg & c1 & Hrecv & E).
  apply Connection_receiveMessage_open in Hrecv.
  apply M_bind_Ret_inv in E as (ready & c2 & Hready & E).
  apply (isReadyForQuery_keeps_open _ _ _ _ Hrecv) in Hready.
  destruct ready.
  - inversion E; subst. exact Hready.
  - apply M_bind_Ret_inv in E as ([] & c3 & Hstep & E).
    now apply IH in E.
Qed.

Lemma resetConnection_torn (c : Connection) : torn (resetConnection c).2.
Proof.
  unfold torn, resetConnection, modify. cbn. destruct (socket c); cbn; auto.
Qed.

(** X18. Connect ends in one of three ways and never in between: it
    returns no error and a connection whose socket is open; or it returns
    an error and a connection that is torn down (socket closed or never
    opened, parameters and backend identifiers reset); or, when the panic
    it recovers from carries a string, it panics with the
    interface-conversion error. *)
Theorem Connect_outcomes (net_Dial : Network) (info : ConnectionInfo) :
  (exists c, Connect net_Dial info = Ret (c, None) /\ open c) \/
  (exists c e, Connect net_Dial info = Ret (c, Some e) /\ torn c) \/
  Connect net_Dial info = runtimePanic InterfaceConversion.
Proof.
  pose proof (Connect_total net_Dial info) as Htotal.
  unfold Connect in *.
  destruct (Connect_body net_Dial info zeroConnection) as [[[]| [e|txt] |] c]
    eqn:E.
  - left. exists c. split; [reflexivity|].
    unfold Connect_body in E.
    apply M_bind_Ret_inv in E as (? & c1 & _ & E).
    apply M_bind_Ret_inv in E as (? & c2 & _ & E).
    apply M_bind_Ret_inv in E as (? & c3 & _ & E).
    unfold initConnection in E.
    apply M_bind_Ret_inv in E as (? & c4 & _ & E).
    unfold reading in E. now apply initConnection_loop_open in E.
  - right. left. eexists _, e. split; [reflexivity|].
    apply resetConnection_torn.
  - right. right. reflexivity.
  - now destruct Htotal.
Qed.

Lemma Query_switch_keeps (msg : option IncomingMessage) (c c' : Connection)
  (v v' : QueryVars) :
  Query_switch msg (c, v) = (Ret tt, (c', v')) ->
  (open c -> open c') /\
  (serverError (queryError v) -> serverError (queryError v')).
Proof.
  destruct msg as [[]|]; cbn [Query_switch];
    unfold mbind, M_bind, get_resultset, set_vars, on_connection, modify, pure;
    cbn [fst snd handleStatelessMessage];
    try destruct (resultset v); intros E; inversion E; subst; cbn;
    (split; [tauto|]); try tauto;
    intros _; eexists; (split; [|reflexivity]); reflexivity.
Qed.

Lemma Query_loop_keeps (fuel : nat) :
  forall (c c' : Connection) (v v' : QueryVars),
  Query_loop fuel (c, v) = (Ret tt, (c', v')) ->
  serverError (queryError v) ->
  open c' /\ serverError (queryError v').
Proof.
  induction fuel as [|fuel IH]; intros c c' v v' E Hv; [discriminate|].
  cbn [Query_loop] in E.
  apply M_bind_Ret_inv in E as (msg & [c1 v1] & Hrecv & E).
  unfold on_connection in Hrecv. cbn [fst snd] in Hrecv.
  destruct (Connection_receiveMessage c) as [r c0] eqn:Hr.
  inversion Hrecv; subst. apply Connection_receiveMessage_open in Hr.
  apply M_bind_Ret_inv in E as (ready & [c2 v2] & Hready & E).
  unfold on_connection in Hready. cbn [fst snd] in Hready.
  destruct (isReadyForQuery msg c1) as [r2 c0] eqn:Hr2.
  inversion Hready; subst.
  apply (isReadyForQuery_keeps_open _ _ _ _ Hr) in Hr2.
  destruct ready.
  - inversion E; subst. split; assumption.
  - apply M_bind_Ret_inv in E as ([] & [c3 v3] & Hstep & E).
    apply Query_switch_keeps in Hstep as [_ Hv3].
    apply (IH _ _ _ _ E). now apply Hv3.
Qed.

(** X19. The stream of the socket is finite and a read at its end
    reports the end, it does not block.  On such a stream Query ends in one
    of three ways and never in between.  It
    returns without an error of its own, and then the socket is open and
    the error it returns, if any, is an error response or the empty-query
    notice of the server; or it returns an error with a connection that is
    torn down; or, when the panic it recovers from carries a string, it
    panics with the interface-conversion error, the connection torn down
    as well. *)
Theorem Query_outcomes (sql : string) (c : Connection) :
  exists r c',
    Query sql c = (r, c') /\
    match r with
    | Ret (rs, err) =>
        (open c' /\ serverError err) \/ (is_Some err /\ torn c')
    | Panic p => p = PanicError (runtime_Error InterfaceConversion) /\ torn c'
    | OutOfFuel => False
    end.
Proof.
  pose proof (Query_total sql c) as Htotal.
  destruct (Query_body sql (c, noVars)) as [[[]| p |] [c1 v1]] eqn:E.
  - exists (Ret (resultset v1, queryError v1)), c1. split.
    + unfold Query. now rewrite E.
    + left. unfold Query_body in E.
      apply M_bind_Ret_inv in E as (? & [c2 v2] & Hsend & E).
      unfold on_connection in Hsend. cbn [fst snd] in Hsend.
      destruct (sendMessage (QueryMessage sql) c) as [r0 c0].
      inversion Hsend; subst.
      unfold reading in E. apply Query_loop_keeps in E; [exact E|exact I].
  - destruct (Query_recovers sql c c1 v1 p E) as (c' & Hq & Ht & _).
    destruct p as [e|txt].
    + eexists _, c'. split; [exact Hq|]. right. cbn. split; [eauto|exact Ht].
    + eexists _, c'. split; [exact Hq|]. cbn. split; [reflexivity|exact Ht].
  - exfalso. apply Htotal. unfold Query. now rewrite E.
Qed.

(** ** The result of a query *)

Lemma merge_app (a b : list IncomingMessage) (c : Connection) :
  merge (a ++ b) c = merge b (merge a c).
Proof. unfold merge. apply fold_left_app. Qed.

Lemma lastError_app (a b : list IncomingMessage) :
  lastError (a ++ b) = from_option Some (lastError a) (lastError b).
Proof.
  unfold lastError, errorsOf. rewrite omap_app, last_app.
  now destruct (last _).
Qed.

Lemma from_option_Some {A} (x : option A) : from_option Some None x = x.
Proof. now destruct x. Qed.

Lemma switched_eq (c c' : Connection) (fs : list Field) (r r' : list Row)
  (t t' : string) (e e' : option error) :
  c = c' -> r = r' -> t = t' -> e = e' ->
  (Ret tt : outcome unit,
   (c, {| resultset := Some {| Fields := fs; Rows := r; Result := t |};
          queryError := e |}))
  = (Ret tt,
     (c', {| resultset := Some {| Fields := fs; Rows := r'; Result := t' |};
             queryError := e' |})).
Proof. now intros -> -> -> ->. Qed.

(** The switch over messages that continue the resultset in force. *)
Lemma Query_switches_continues (post : list IncomingMessage) :
  forallb continues post = true ->
  forall (c : Connection) (rs : Resultset) (e : option error),
  Query_switches post (c, {| resultset := Some rs; queryError := e |})
  = (Ret tt,
     (merge post c,
      {| resultset :=
           Some {| Fields := Fields rs; Rows := Rows rs ++ rowsOf post;
                   Result := default (Result rs) (last (tagsOf post)) |};
         queryError := from_option Some e (lastError post) |})).
Proof.
  induction post as [|m post IH]; intros Hpost c rs e.
  - cbn. rewrite app_nil_r. now destruct rs.
  - cbn [forallb] in Hpost. apply andb_true_iff in Hpost as [Hm Hpost].
    specialize (IH Hpost).
    change (m :: post) with ([m] ++ post) at 2 3 4 5.
    rewrite merge_app, lastError_app.
    unfold rowsOf, tagsOf. rewrite !omap_app, last_app. fold (rowsOf post).
    fold (tagsOf post).
    destruct m; try discriminate; cbn [Query_switches];
      unfold Query_switch, set_vars, modify, get_resultset, on_connection,
        handleStatelessMessage, mbind, M_bind;
      cbn [fst snd resultset queryError]; unfold modify;
      cbv beta iota zeta; rewrite IH;
      cbn [omap list_omap last lastError errorsOf errorLike from_option
           default Fields Rows Result merge fold_left merge1 app];
      apply switched_eq; try reflexivity;
      try (now rewrite app_nil_r);
      try (now rewrite <- app_assoc);
      try (now destruct (lastError post));
      try (now destruct (last (tagsOf post))).
Qed.

Lemma orderly_not_ready (ms : list IncomingMessage) :
  forall d, orderly d ms = true -> Forall (fun m => isReady m = false) ms.
Proof.
  induction ms as [|m ms IH]; intros d H; [constructor|].
  destruct m; cbn [orderly] in H; try discriminate;
    try (apply andb_true_iff in H as [_ H]);
    (constructor; [reflexivity|eauto]).
Qed.

Lemma continues_not_ready (ms : list IncomingMessage) :
  forallb continues ms = true -> Forall (fun m => isReady m = false) ms.
Proof.
  induction ms as [|m ms IH]; intros H; [constructor|].
  cbn [forallb] in H. apply andb_true_iff in H as [Hm Hms].
  constructor; [|auto]. now destruct m.
Qed.

(** The switch over an orderly response: it does not panic, the session
    updates are merged, the last error is recorded, and a resultset is
    there exactly when a row description came. *)
Lemma Query_switches_orderly (ms : list IncomingMessage) :
  forall (d : bool) (c : Connection) (v : QueryVars),
  orderly d ms = true -> (d = true -> is_Some (resultset v)) ->
  exists v1,
    Query_switches ms (c, v) = (Ret tt, (merge ms c, v1)) /\
    queryError v1 = from_option Some (queryError v) (lastError ms) /\
    (is_Some (resultset v) -> is_Some (resultset v1)) /\
    (forallb quiet ms = true -> resultset v1 = resultset v) /\
    (resultset v1 = None -> forallb quiet ms = true).
Proof.
  induction ms as [|m ms IH]; intros d c v Hms Hd.
  - exists v. cbn. repeat split; auto.
  - change (m :: ms) with ([m] ++ ms) at 2 3.
    rewrite merge_app, lastError_app.
    destruct m as [fields| |code salt|status|name value|Pid Key|result|fs|values];
      cbn [orderly] in Hms; try discriminate;
      try (apply andb_true_iff in Hms as [Hm Hms]);
      cbn [Query_switches forallb quiet stateless errorLike orb andb];
      unfold Query_switch, set_vars, modify, get_resultset, on_connection,
        handleStatelessMessage, mbind, M_bind;
      cbn [fst snd]; unfold modify; cbv beta iota zeta.
    + destruct (IH d c {| resultset := resultset v;
                          queryError := Some (AsError (ErrorResponseMessage fields)) |}
                  Hms Hd) as (v1 & E & He & Hrs).
      exists v1. split; [exact E|]. split; [|exact Hrs].
      rewrite He. cbn. now destruct (lastError ms).
    + destruct (IH d c {| resultset := resultset v;
                          queryError := Some (AsError EmptyQueryMessage) |}
                  Hms Hd) as (v1 & E & He & Hrs).
      exists v1. split; [exact E|]. split; [|exact Hrs].
      rewrite He. cbn. now destruct (lastError ms).
    + destruct (IH d (merge [ParameterStatusMessage name value] c) v Hms Hd)
        as (v1 & E & He & Hrs).
      exists v1. split; [exact E|]. split; [|exact Hrs].
      rewrite He. cbn. now destruct (lastError ms).
    + destruct (IH d (merge [BackendKeyDataMessage Pid Key] c) v Hms Hd)
        as (v1 & E & He & Hrs).
      exists v1. split; [exact E|]. split; [|exact Hrs].
      rewrite He. cbn. now destruct (lastError ms).
    + subst d. destruct (Hd eq_refl) as [rs Hv]. rewrite Hv.
      destruct (IH true c
                  {| resultset := Some {| Fields := Fields rs; Rows := Rows rs;
                                          Result := result |};
                     queryError := queryError v |} Hms (fun _ => mk_is_Some _ _ eq_refl))
        as (v1 & E & He & H1 & H2 & H3).
      exists v1. split; [exact E|]. split.
      { rewrite He. cbn. now destruct (lastError ms). }
      split; [intros _; apply H1; cbn; eauto|].
      split; [discriminate|].
      intros Hn. destruct H1 as [? H1]; [cbn; eauto|]. congruence.
    + destruct (IH true c
                  {| resultset := Some {| Fields := fs; Rows := [];
                                          Result := "" |};
                     queryError := queryError v |} Hms (fun _ => mk_is_Some _ _ eq_refl))
        as (v1 & E & He & H1 & H2 & H3).
      exists v1. split; [exact E|]. split.
      { rewrite He. cbn. now destruct (lastError ms). }
      split; [intros _; apply H1; cbn; eauto|].
      split; [discriminate|].
      intros Hn. destruct H1 as [? H1]; [cbn; eauto|]. congruence.
    + subst d. destruct (Hd eq_refl) as [rs Hv]. rewrite Hv.
      destruct (IH true c
                  {| resultset := Some {| Fields := Fields rs;
                                          Rows := Rows rs ++ [{| Values := values |}];
                                          Result := Result rs |};
                     queryError := queryError v |} Hms (fun _ => mk_is_Some _ _ eq_refl))
        as (v1 & E & He & H1 & H2 & H3).
      exists v1. split; [exact E|]. split.
      { rewrite He. cbn. now destruct (lastError ms). }
      split; [intros _; apply H1; cbn; eauto|].
      split; [discriminate|].
      intros Hn. destruct H1 as [? H1]; [cbn; eauto|]. congruence.
Qed.

(** The body of Query after the frames of [ms]: the loop goes on behind
    them. *)
Lemma Query_body_frames (sql : string) (c c1 : Connection) (s : Socket)
  (ms : list IncomingMessage) (rest : list byte) (v1 : QueryVars) :
  socket c = Some s -> closed s = false ->
  frames (inbound s) ms rest ->
  Forall (fun m => isReady m = false) ms ->
  Query_switches ms (c, noVars) = (Ret tt, (c1, v1)) ->
  exists fuel, (length rest < fuel)%nat /\
    Query_body sql (c, noVars)
    = Query_loop fuel
        (on_rest rest (set_outbound (outbound s ++ [QueryMessage sql]) s) c1,
         v1).
Proof.
  intros Hs Hc Hfr Hms Hsw.
  set (s1 := set_outbound (outbound s ++ [QueryMessage sql]) s).
  destruct (Query_loop_frames _ _ _ Hfr Hms (S (length (inbound s)))
              (set_socket (Some s1) c) (set_socket (Some s1) c1) noVars v1 s1)
    as (fuel & Hfuel & E); [reflexivity|exact Hc|reflexivity|lia| |].
  { rewrite Query_switches_socket. now rewrite Hsw. }
  exists fuel. split; [exact Hfuel|].
  unfold Query_body.
  rewrite (M_bind_Ret _ _ _ (set_socket (Some s1) c, noVars) tt).
  2: { unfold on_connection. cbn [fst snd].
       now rewrite (sendMessage_open c s _ Hs Hc). }
  unfold reading. cbn [fst]. unfold rounds. cbn [socket set_socket].
  cbn [inbound s1 set_outbound]. exact E.
Qed.

(** X20. When the response to a query is orderly (data rows and command
    tags only after a row description, and otherwise only errors, notices
    and session updates) and ends with ready-for-query, Query returns the
    last error response or empty-query notice as its error, or none if the
    server sent none; it returns a resultset exactly when a row description
    came; the session updates are merged into the connection, the
    transaction status is taken from ready-for-query, and the socket stays
    open. *)
Theorem Query_reports_last_error (sql : string) (c : Connection) (s : Socket)
  (ms : list IncomingMessage) (status : byte) (rest : list byte) :
  socket c = Some s -> closed s = false ->
  frames (inbound s) (ms ++ [ReadyForQueryMessage status]) rest ->
  orderly false ms = true ->
  exists rs,
    Query sql c = (Ret (rs, lastError ms), answered sql ms status rest s c) /\
    (rs = None <-> forallb quiet ms = true) /\
    open (answered sql ms status rest s c).
Proof.
  intros Hs Hc Hfr Hms.
  destruct (Query_switches_orderly ms false c noVars Hms)
    as (v1 & Hsw & He & _ & Hq & Hn); [discriminate|].
  exists (resultset v1). split; [|split].
  - rewrite (Query_frames sql c _ s ms status rest v1 Hs Hc Hfr
               (orderly_not_ready ms false Hms) Hsw).
    rewrite He. cbn [queryError noVars]. now rewrite from_option_Some.
  - split; [exact Hn|exact Hq].
  - eexists. split; [reflexivity|exact Hc].
Qed.

Lemma Query_reports_last_error_witness :
  exists rs,
    Query "selec" (idle (frameSyntaxError ++ frameParameterX1 ++ frameReadyIdle))
    = (Ret (rs, Some (AsError syntaxError)),
       answered "selec" [syntaxError; ParameterStatusMessage "x" "1"] "I"%byte
         [] (stream (frameSyntaxError ++ frameParameterX1 ++ frameReadyIdle))
         (idle (frameSyntaxError ++ frameParameterX1 ++ frameReadyIdle))) /\
    (rs = None
     <-> forallb quiet [syntaxError; ParameterStatusMessage "x" "1"] = true) /\
    open (answered "selec" [syntaxError; ParameterStatusMessage "x" "1"]
            "I"%byte []
            (stream (frameSyntaxError ++ frameParameterX1 ++ frameReadyIdle))
            (idle (frameSyntaxError ++ frameParameterX1 ++ frameReadyIdle))).
Proof.
  apply (Query_reports_last_error "selec"
           (idle (frameSyntaxError ++ frameParameterX1 ++ frameReadyIdle))
           (stream (frameSyntaxError ++ frameParameterX1 ++ frameReadyIdle))
           [syntaxError; ParameterStatusMessage "x" "1"] "I"%byte []);
    try reflexivity.
  cbn [app]. read_frames.
Defined.

(** The switch over a response that ends with a row description and
    messages that continue its resultset. *)
Lemma Query_switches_described (pre post : list IncomingMessage)
  (fs : list Field) (c : Connection) :
  orderly false pre = true -> forallb continues post = true ->
  Query_switches (pre ++ RowDescriptionMessage fs :: post) (c, noVars)
  = (Ret tt,
     (merge (pre ++ RowDescriptionMessage fs :: post) c,
      {| resultset :=
           Some {| Fields := fs; Rows := rowsOf post;
                   Result := default ""%string (last (tagsOf post)) |};
         queryError := lastError (pre ++ RowDescriptionMessage fs :: post) |})).
Proof.
  intros Hpre Hpost.
  destruct (Query_switches_orderly pre false c noVars Hpre)
    as (v1 & Hsw & He & _); [discriminate|].
  rewrite (Query_switches_app _ _ _ _ Hsw).
  cbn [Query_switches]. unfold mbind, M_bind.
  cbn [Query_switch set_vars modify].
  rewrite (Query_switches_continues post Hpost).
  cbn [Fields Rows Result app].
  apply switched_eq; try reflexivity.
  - rewrite merge_app. change (RowDescriptionMessage fs :: post)
      with ([RowDescriptionMessage fs] ++ post).
    now rewrite merge_app.
  - cbn [snd]. rewrite He. cbn [queryError noVars].
    rewrite from_option_Some. rewrite lastError_app.
    change (RowDescriptionMessage fs :: post)
      with ([RowDescriptionMessage fs] ++ post).
    rewrite (lastError_app [_] post). cbn. now destruct (lastError post).
Qed.

Lemma described_not_ready (pre post : list IncomingMessage) (fs : list Field) :
  orderly false pre = true -> forallb continues post = true ->
  Forall (fun m => isReady m = false)
    (pre ++ RowDescriptionMessage fs :: post).
Proof.
  intros Hpre Hpost. apply Forall_app. split.
  - now apply (orderly_not_ready pre false).
  - constructor; [reflexivity|now apply continues_not_ready].
Qed.

(** X21. The resultset of a query is that of the last row description:
    when an orderly response is followed by a row description, by data
    rows, command tags, errors, notices and session updates in any order,
    and by ready-for-query, Query returns the fields of that row
    description, the rows of the data rows after it, in order and whatever
    their number of values, and the last command tag after it (the empty
    string if there is none); what came before the row description is
    dropped from the resultset; the error is the last one of the whole
    response. *)
Theorem Query_resultset (sql : string) (c : Connection) (s : Socket)
  (pre post : list IncomingMessage) (fs : list Field) (status : byte)
  (rest : list byte) :
  socket c = Some s -> closed s = false ->
  frames (inbound s)
    ((pre ++ RowDescriptionMessage fs :: post) ++ [ReadyForQueryMessage status])
    rest ->
  orderly false pre = true -> forallb continues post = true ->
  Query sql c
  = (Ret (Some {| Fields := fs; Rows := rowsOf post;
                  Result := default ""%string (last (tagsOf post)) |},
          lastError (pre ++ RowDescriptionMessage fs :: post)),
     answered sql (pre ++ RowDescriptionMessage fs :: post) status rest s c).
Proof.
  intros Hs Hc Hfr Hpre Hpost.
  now rewrite (Query_frames sql c _ s _ status rest _ Hs Hc Hfr
                 (described_not_ready pre post fs Hpre Hpost)
                 (Query_switches_described pre post fs c Hpre Hpost)).
Qed.

Lemma Query_resultset_witness :
  Query "select 1; select 2" (idle two_selects_script)
  = (Ret (Some {| Fields := [fieldN];
                  Rows := [{| Values := [Some ["5"%byte]; None] |}];
                  Result := "" |}, None),
     answered "select 1; select 2"
       (first_select ++ RowDescriptionMessage [fieldN]
          :: [DataRowMessage [Some ["5"%byte]; None]])
       "I"%byte [] (stream two_selects_script) (idle two_selects_script)).
Proof.
  apply (Query_resultset "select 1; select 2" (idle two_selects_script)
           (stream two_selects_script) first_select
           [DataRowMessage [Some ["5"%byte]; None]] [fieldN] "I"%byte []);
    try reflexivity.
  unfold first_select. cbn [app]. read_frames.
Defined.

Lemma Query_recovers_error (sql : string) (c c1 : Connection)
  (v1 : QueryVars) (e : error) :
  Query_body sql (c, noVars) = (Panic (PanicError e), (c1, v1)) ->
  exists c', Query sql c = (Ret (resultset v1, Some e), c') /\ torn c'.
Proof.
  intros Hb. destruct (Query_recovers sql c c1 v1 _ Hb) as (c' & HQ & Ht & _).
  exists c'. split; [exact HQ|exact Ht].
Qed.

Lemma Query_recovers_string (sql : string) (c c1 : Connection)
  (v1 : QueryVars) (txt : PanicText) :
  Query_body sql (c, noVars) = (Panic (PanicString txt), (c1, v1)) ->
  exists c', Query sql c = (runtimePanic InterfaceConversion, c') /\ torn c'.
Proof.
  intros Hb. destruct (Query_recovers sql c c1 v1 _ Hb) as (c' & HQ & Ht & _).
  exists c'. split; [exact HQ|exact Ht].
Qed.

(** X22. A data row that arrives before any row description finds no
    resultset to add to: appending to the rows of the nil resultset panics
    with the nil-dereference error, and Query returns no resultset with
    that error and tears the connection down. *)
Theorem Query_data_row_without_description (sql : string) (c : Connection)
  (s : Socket) (pre : list IncomingMessage)
  (values : list (option (list byte))) (rest : list byte) :
  socket c = Some s -> closed s = false -> forallb quiet pre = true ->
  frames (inbound s) (pre ++ [DataRowMessage values]) rest ->
  exists c',
    Query sql c = (Ret (None, Some (runtime_Error NilDereference)), c') /\
    torn c'.
Proof.
  intros Hs Hc Hpre Hfr.
  destruct (Query_switches_quiet pre c noVars Hpre) as (v1 & Hsw & Hrs).
  assert (Hnr : Forall (fun m => isReady m = false)
                  (pre ++ [DataRowMessage values])).
  { apply Forall_app. split; [now apply quiet_not_ready|].
    constructor; [reflexivity|constructor]. }
  assert (Hp : Query_switch (Some (DataRowMessage values)) (merge pre c, v1)
               = (Panic (PanicError (runtime_Error NilDereference)),
                  (merge pre c, v1))).
  { cbn [Query_switch]. unfold mbind, M_bind, get_resultset. cbn [fst snd].
    rewrite Hrs. reflexivity. }
  pose proof (Query_body_switch_panic sql c _ _ s pre _ rest v1 v1 _
                Hs Hc Hfr Hnr Hsw Hp) as Hb.
  destruct (Query_recovers_error sql c _ v1 _ Hb) as (c' & HQ & Ht).
  exists c'. split; [|exact Ht]. rewrite HQ. cbn in Hrs. now rewrite Hrs.
Qed.

Lemma Query_data_row_without_description_witness :
  exists c',
    Query "select 1" (idle (frameParameterX1 ++ frameDataRow5 ++ frameReadyIdle))
    = (Ret (None, Some (runtime_Error NilDereference)), c') /\
    torn c'.
Proof.
  apply (Query_data_row_without_description "select 1"
           (idle (frameParameterX1 ++ frameDataRow5 ++ frameReadyIdle))
           (stream (frameParameterX1 ++ frameDataRow5 ++ frameReadyIdle))
           [ParameterStatusMessage "x" "1"] [Some ["5"%byte]] frameReadyIdle);
    try reflexivity.
  cbn [app]. read_frames.
Defined.

(** X23. An authentication request in the response to a query is a
    message the loop has no case for: the panic carries a string, the type
    assertion of the recover handler fails after Close has torn the
    connection down, and Query does not return: it panics with the
    interface-conversion error. *)
Theorem Query_unexpected_message (sql : string) (c : Connection) (s : Socket)
  (pre : list IncomingMessage) (code : Z) (salt : option (list byte))
  (rest : list byte) :
  socket c = Some s -> closed s = false -> orderly false pre = true ->
  frames (inbound s) (pre ++ [AuthenticationRequestMessage code salt]) rest ->
  exists c',
    Query sql c = (runtimePanic InterfaceConversion, c') /\ torn c'.
Proof.
  intros Hs Hc Hpre Hfr.
  destruct (Query_switches_orderly pre false c noVars Hpre)
    as (v1 & Hsw & _); [discriminate|].
  assert (Hnr : Forall (fun m => isReady m = false)
                  (pre ++ [AuthenticationRequestMessage code salt])).
  { apply Forall_app. split; [now apply (orderly_not_ready pre false)|].
    constructor; [reflexivity|constructor]. }
  pose proof (Query_body_switch_panic sql c _ _ s pre _ rest v1 v1 _
                Hs Hc Hfr Hnr Hsw eq_refl) as Hb.
  exact (Query_recovers_string sql c _ v1 _ Hb).
Qed.

Lemma Query_unexpected_message_witness :
  exists c',
    Query "select 1" (idle (frameSyntaxError ++ frameAuthenticationOK))
    = (runtimePanic InterfaceConversion, c') /\ torn c'.
Proof.
  apply (Query_unexpected_message "select 1"
           (idle (frameSyntaxError ++ frameAuthenticationOK))
           (stream (frameSyntaxError ++ frameAuthenticationOK))
           [syntaxError] 0 None []);
    try reflexivity.
  cbn [app]. read_frames.
Defined.

Lemma Query_loop_ends (fuel : nat) (c : Connection) (v : QueryVars)
  (s : Socket) :
  socket c = Some s -> closed s = false -> (length (inbound s) < 5)%nat ->
  Query_loop (S fuel) (c, v)
  = (Panic (PanicError (endOfStream (inbound s))),
     (set_socket (Some (set_inbound [] s)) c, v)).
Proof.
  intros Hs Hc H5. cbn [Query_loop].
  apply M_bind_Panic. unfold on_connection. cbn [fst snd].
  now rewrite (Connection_receiveMessage_ends c s Hs Hc H5).
Qed.

(** X24. When the stream ends in the middle of a response, with fewer
    than five bytes left after a row description and the messages that
    continue it, Query returns the error of the read together with the
    resultset built so far, rows included, and tears the connection
    down. *)
Theorem Query_stream_ends (sql : string) (c : Connection) (s : Socket)
  (pre post : list IncomingMessage) (fs : list Field) (rest : list byte) :
  socket c = Some s -> closed s = false ->
  frames (inbound s) (pre ++ RowDescriptionMessage fs :: post) rest ->
  orderly false pre = true -> forallb continues post = true ->
  (length rest < 5)%nat ->
  exists c',
    Query sql c
    = (Ret (Some {| Fields := fs; Rows := rowsOf post;
                    Result := default ""%string (last (tagsOf post)) |},
            Some (endOfStream rest)), c') /\
    torn c'.
Proof.
  intros Hs Hc Hfr Hpre Hpost H5.
  destruct (Query_body_frames sql c _ s _ rest _ Hs Hc Hfr
              (described_not_ready pre post fs Hpre Hpost)
              (Query_switches_described pre post fs c Hpre Hpost))
    as (fuel & Hfuel & Hb).
  destruct fuel as [|fuel]; [lia|].
  rewrite (Query_loop_ends fuel
             (on_rest rest (set_outbound (outbound s ++ [QueryMessage sql]) s)
                (merge (pre ++ RowDescriptionMessage fs :: post) c)) _
             (set_inbound rest
                (set_outbound (outbound s ++ [QueryMessage sql]) s))
             eq_refl Hc H5) in Hb.
  exact (Query_recovers_error sql c _ _ _ Hb).
Qed.

Lemma Query_stream_ends_witness :
  exists c',
    Query "select 1"
      (idle (frameRowDescriptionN ++ frameDataRow5 ++ ["D"%byte; x00]))
    = (Ret (Some {| Fields := [fieldN];
                    Rows := [{| Values := [Some ["5"%byte]] |}];
                    Result := "" |},
            Some io_ErrUnexpectedEOF), c') /\
    torn c'.
Proof.
  apply (Query_stream_ends "select 1"
           (idle (frameRowDescriptionN ++ frameDataRow5 ++ ["D"%byte; x00]))
           (stream (frameRowDescriptionN ++ frameDataRow5 ++ ["D"%byte; x00]))
           [] [DataRowMessage [Some ["5"%byte]]] [fieldN] ["D"%byte; x00]);
    try reflexivity.
  - cbn [app]. read_frames.
  - cbn. lia.
Defined.

(** ** Frames of the fixed messages *)

(** X25. A frame is a tag, a four-byte big-endian length that counts
    itself, and a body.  The reader takes a frame with tag R, Z or C off
    the stream as the authentication request with the big-endian code of
    the first four body bytes and no salt, as ready-for-query with the
    first body byte as the status, and as the command completion with the
    body up to its first zero byte as the tag; body bytes beyond these are
    skipped, and the stream is left right behind the frame. *)
Theorem fixed_frames_read (lf : list byte) (n : Z) (extra rest : list byte) :
  length lf = 4%nat -> unpackUint32 lf = Ret n ->
  (forall b0 b1 b2 b3, len extra = n - 8 ->
     reads ("R"%byte :: lf ++ (b0 :: b1 :: b2 :: b3 :: extra) ++ rest)
       (AuthenticationRequestMessage (bigEndian32 b0 b1 b2 b3) None) rest) /\
  (forall b, len extra = n - 5 ->
     reads ("Z"%byte :: lf ++ (b :: extra) ++ rest)
       (ReadyForQueryMessage b) rest) /\
  (forall tag, x00 ∉ tag -> len tag + 1 + len extra = n - 4 ->
     reads ("C"%byte :: lf ++ (tag ++ x00 :: extra) ++ rest)
       (CommandCompleteMessage (string_of_list_byte tag)) rest).
Proof.
  intros Hlf Hu. split; [|split].
  - intros b0 b1 b2 b3 He. unfold reads, ReadMessage.
    rewrite (receiveMessage_frame (stream _) "R"%byte lf
               (b0 :: b1 :: b2 :: b3 :: extra) rest n
               parseAuthenticationRequestMessage eq_refl eq_refl Hlf Hu);
      [|rewrite !len_cons; lia|reflexivity].
    unfold parseAuthenticationRequestMessage.
    now rewrite decodeUint32_cons.
  - intros b He. unfold reads, ReadMessage.
    rewrite (receiveMessage_frame (stream _) "Z"%byte lf (b :: extra) rest n
               parseReadyForQueryMessage eq_refl eq_refl Hlf Hu);
      [|rewrite !len_cons; lia|reflexivity].
    unfold parseReadyForQueryMessage. now rewrite decodeUint8_cons.
  - intros tag Htag He. unfold reads, ReadMessage.
    rewrite (receiveMessage_frame (stream _) "C"%byte lf (tag ++ x00 :: extra)
               rest n parseCommandCompleteMessage eq_refl eq_refl Hlf Hu);
      [|rewrite len_app, len_cons; lia|reflexivity].
    unfold parseCommandCompleteMessage.
    now rewrite (decodeCString_found tag extra Htag).
Qed.

Lemma fixed_frames_read_witness :
  reads ("R"%byte :: [x00; x00; x00; x08] ++ [x00; x00; x00; x03] ++ frameReadyIdle)
    (AuthenticationRequestMessage (bigEndian32 x00 x00 x00 x03) None)
    frameReadyIdle /\
  reads ("Z"%byte :: [x00; x00; x00; x08] ++ ["T"%byte; x01; x02; x03] ++ [])
    (ReadyForQueryMessage "T"%byte) [] /\
  reads ("C"%byte :: [x00; x00; x00; x0d] ++ (bytes "INSERT 1" ++ x00 :: []) ++ [])
    (CommandCompleteMessage (string_of_list_byte (bytes "INSERT 1"))) [].
Proof.
  split; [|split].
  - apply (proj1 (fixed_frames_read [x00; x00; x00; x08] 8 [] frameReadyIdle
                    eq_refl eq_refl)).
    reflexivity.
  - apply (proj1 (proj2 (fixed_frames_read [x00; x00; x00; x08] 8
                           [x01; x02; x03] [] eq_refl eq_refl))).
    reflexivity.
  - apply (proj2 (proj2 (fixed_frames_read [x00; x00; x00; x0d] 13 [] []
                           eq_refl eq_refl))).
    + no_zero_byte.
    + reflexivity.
Defined.

(** ** Frames that fail to decode *)

Lemma Query_loop_read_error (fuel : nat) (c : Connection) (v : QueryVars)
  (s : Socket) (msg : option IncomingMessage) (e : error) (w : option Socket) :
  socket c = Some s -> ReadMessage (Some s) = (Ret (msg, Some e), w) ->
  Query_loop (S fuel) (c, v) = (Panic (PanicError e), (set_socket w c, v)).
Proof.
  intros Hs Hr. cbn [Query_loop].
  apply M_bind_Panic. unfold on_connection. cbn [fst snd].
  now rewrite (Connection_receiveMessage_error c s msg e w Hs Hr).
Qed.

(** Query on a response whose next frame decodes with an error. *)
Lemma Query_body_malformed (sql : string) (c c1 : Connection) (s : Socket)
  (ms : list IncomingMessage) (t : byte) (lf body rest : list byte) (n : Z)
  (factoryMethod : messageFactoryMethod) (msg : IncomingMessage) (e : error)
  (v1 : QueryVars) :
  socket c = Some s -> closed s = false ->
  frames (inbound s) ms (t :: lf ++ body ++ rest) ->
  Forall (fun m => isReady m = false) ms ->
  Query_switches ms (c, noVars) = (Ret tt, (c1, v1)) ->
  length lf = 4%nat -> unpackUint32 lf = Ret n -> len body = n - 4 ->
  messageFactoryMethods !! t = Some factoryMethod ->
  factoryMethod body = Ret (msg, Some e) ->
  exists c', Query sql c = (Ret (resultset v1, Some e), c') /\ torn c'.
Proof.
  intros Hs Hc Hfr Hnr Hsw Hlf Hu Hlen Hf Hparse.
  destruct (Query_body_frames sql c c1 s ms _ v1 Hs Hc Hfr Hnr Hsw)
    as (fuel & Hfuel & Hb).
  destruct fuel as [|fuel]; [lia|].
  set (s1 := set_inbound (t :: lf ++ body ++ rest)
               (set_outbound (outbound s ++ [QueryMessage sql]) s)) in *.
  assert (Hr : ReadMessage (Some s1)
               = (Ret (Some msg, Some e), Some (set_inbound rest s1))).
  { unfold ReadMessage.
    rewrite (receiveMessage_frame s1 t lf body rest n factoryMethod Hc eq_refl
               Hlf Hu Hlen Hf).
    now rewrite Hparse. }
  rewrite (Query_loop_read_error fuel
             (on_rest (t :: lf ++ body ++ rest)
                (set_outbound (outbound s ++ [QueryMessage sql]) s) c1)
             v1 s1 _ e _ eq_refl Hr) in Hb.
  exact (Query_recovers_error sql c _ _ _ Hb).
Qed.

(** X26. When, in an orderly response, a frame with a known tag has a body
    its parse function decodes with an error, the message is dropped and
    Query returns that error with the resultset built so far, and tears
    the connection down.  The resultset is none when only errors, notices
    and session updates came before the frame; after a row description it
    has the fields of the last one, the rows of the data rows after it and
    the last command tag after it. *)
Theorem Query_malformed_frame (sql : string) (c : Connection) (s : Socket)
  (ms : list IncomingMessage) (t : byte) (lf body rest : list byte) (n : Z)
  (factoryMethod : messageFactoryMethod) (msg : IncomingMessage) (e : error) :
  socket c = Some s -> closed s = false ->
  frames (inbound s) ms (t :: lf ++ body ++ rest) ->
  length lf = 4%nat -> unpackUint32 lf = Ret n -> len body = n - 4 ->
  messageFactoryMethods !! t = Some factoryMethod ->
  factoryMethod body = Ret (msg, Some e) ->
  (forallb quiet ms = true ->
   exists c', Query sql c = (Ret (None, Some e), c') /\ torn c') /\
  (forall pre fs post,
     ms = pre ++ RowDescriptionMessage fs :: post ->
     orderly false pre = true -> forallb continues post = true ->
     exists c',
       Query sql c
       = (Ret (Some {| Fields := fs; Rows := rowsOf post;
                       Result := default ""%string (last (tagsOf post)) |},
               Some e), c') /\
       torn c').
Proof.
  intros Hs Hc Hfr Hlf Hu Hlen Hf Hparse. split.
  - intros Hq.
    destruct (Query_switches_quiet ms c noVars Hq) as (v1 & Hsw & Hrs).
    destruct (Query_body_malformed sql c _ s ms t lf body rest n factoryMethod
                msg e v1 Hs Hc Hfr (quiet_not_ready ms Hq) Hsw Hlf Hu Hlen Hf
                Hparse) as (c' & HQ & Ht).
    exists c'. split; [|exact Ht]. rewrite HQ. now rewrite Hrs.
  - intros pre fs post -> Hpre Hpost.
    exact (Query_body_malformed sql c _ s _ t lf body rest n factoryMethod
             msg e _ Hs Hc Hfr (described_not_ready pre post fs Hpre Hpost)
             (Query_switches_described pre post fs c Hpre Hpost)
             Hlf Hu Hlen Hf Hparse).
Qed.

Lemma Query_malformed_frame_witness :
  exists c',
    Query "select 1"
      (idle (frameRowDescriptionN ++ frameDataRow5
               ++ "Z"%byte :: [x00; x00; x00; x04] ++ [] ++ []))
    = (Ret (Some {| Fields := [fieldN];
                    Rows := [{| Values := [Some ["5"%byte]] |}];
                    Result := "" |},
            Some (errors_New
                    "decodeUint8: A buffer should be at least 1 bytes long")),
       c') /\
    torn c'.
Proof.
  apply (proj2 (Query_malformed_frame "select 1"
                  (idle (frameRowDescriptionN ++ frameDataRow5
                           ++ "Z"%byte :: [x00; x00; x00; x04] ++ [] ++ []))
                  (stream (frameRowDescriptionN ++ frameDataRow5
                             ++ "Z"%byte :: [x00; x00; x00; x04] ++ [] ++ []))
                  [RowDescriptionMessage [fieldN];
                   DataRowMessage [Some ["5"%byte]]]
                  "Z"%byte [x00; x00; x00; x04] [] [] 4
                  parseReadyForQueryMessage (ReadyForQueryMessage x00)
                  (errors_New
                     "decodeUint8: A buffer should be at least 1 bytes long")
                  eq_refl eq_refl ltac:(cbn [app]; read_frames)
                  eq_refl eq_refl eq_refl eq_refl eq_refl)
           [] [fieldN] [DataRowMessage [Some ["5"%byte]]]);
    reflexivity.
Defined.

(** * Rows and fields *)

(** The reader takes wire frames off the stream as the messages their
    bodies decode to. *)
Lemma framed_frames inp fs rest :
  framed inp fs rest ->
  forall ms,
  Forall2 (fun f m => len f.2 < 2 ^ 32 -> decodes f.1 f.2 m) fs ms ->
  frames inp ms rest.
Proof.
  induction 1 as [inp|t lf body mid fs rest n Hlf Hu Hlen Hfr IH];
    intros ms Hms.
  - inversion Hms; subst. apply frames_nil.
  - inversion Hms as [|? m ? ms' Hm Hms']; subst.
    pose proof (unpackUint32_range lf n Hu Hlf) as Hn.
    destruct Hm as (factoryMethod & Hf & Hparse); [cbn [snd]; lia|].
    cbn [fst snd] in Hf, Hparse.
    apply (frames_cons _ m mid); [|now apply IH].
    unfold reads, ReadMessage.
    rewrite (receiveMessage_frame (stream (t :: lf ++ body ++ mid)) t lf body
               mid n factoryMethod eq_refl eq_refl Hlf Hu Hlen Hf).
    now rewrite Hparse.
Qed.

Lemma rowDescription_decodes (c0 c1 : byte) (ws : list FieldWire) :
  Forall (fun w => x00 ∉ wName w) ws -> bigEndian16 c0 c1 = len ws ->
  decodes "T"%byte (c0 :: c1 :: fields_wire ws)
    (RowDescriptionMessage (map field_value ws)).
Proof.
  intros Hws Hcount. exists parseRowDescriptionMessage.
  split; [reflexivity|]. unfold parseRowDescriptionMessage.
  rewrite decodeUint16_cons, orReturn_ok. cbv zeta. rewrite Hcount.
  replace (Z.to_nat (len ws)) with (length ws) by (unfold len; lia).
  rewrite length_replicate.
  pose proof (parseRowDescription_loop_fields ws
                (c0 :: c1 :: fields_wire ws) [c0; c1] [] 0 [] Hws) as H.
  rewrite app_nil_r in H. specialize (H eq_refl).
  cbn [length app Nat.add] in H. rewrite Nat.add_0_r in H.
  change (len [c0; c1]) with 2 in H.
  etransitivity; [exact H|].
  cbn [seq parseRowDescription_loop replicate]. now rewrite app_nil_r.
Qed.

Lemma dataRow_decodes (c0 c1 : byte) (vs : list (option (list byte)))
  (body : list byte) :
  dataRow_wire c0 c1 vs body -> len body < 2 ^ 32 ->
  decodes "D"%byte body (DataRowMessage vs).
Proof.
  intros (bvs & -> & Hvs & Hcount) Hlen. exists parseDataRowMessage.
  split; [reflexivity|].
  assert (E : c0 :: c1 :: bvs = [c0; c1] ++ bvs ++ [])
    by now rewrite app_nil_r.
  rewrite E. apply parseDataRowMessage_values; [reflexivity| |exact Hvs|].
  - rewrite unpackUint16_cons, be16_bigEndian. now rewrite Hcount.
  - rewrite <- E. unfold maxAlloc. lia.
Qed.

Lemma dataRows_decode (c0 c1 : byte) (rows : list (list (option (list byte))))
  (bodies : list (list byte)) :
  Forall2 (dataRow_wire c0 c1) rows bodies ->
  Forall2 (fun f m => len f.2 < 2 ^ 32 -> decodes f.1 f.2 m)
    (map (pair "D"%byte) bodies) (map DataRowMessage rows).
Proof.
  induction 1 as [|vs body rows bodies Hrow _ IH]; [constructor|].
  cbn [map]. constructor; [|exact IH].
  cbn [fst snd]. intros Hlen. exact (dataRow_decodes c0 c1 vs body Hrow Hlen).
Qed.

Lemma closing_continues (post : list IncomingMessage) :
  forallb closing post = true -> forallb continues post = true.
Proof.
  induction post as [|m post IH]; intros H; [reflexivity|].
  cbn [forallb] in *. apply andb_true_iff in H as [Hm Hpost].
  rewrite (IH Hpost), andb_true_r. now destruct m.
Qed.

Lemma closing_no_rows (post : list IncomingMessage) :
  forallb closing post = true -> rowsOf post = [].
Proof.
  induction post as [|m post IH]; intros H; [reflexivity|].
  cbn [forallb] in H. apply andb_true_iff in H as [Hm Hpost].
  destruct m; try discriminate; cbn; now apply IH.
Qed.

Lemma dataRows_continue (rows : list (list (option (list byte)))) :
  forallb continues (map DataRowMessage rows) = true /\
  rowsOf (map DataRowMessage rows)
  = map (fun vs => {| Values := vs |}) rows /\
  tagsOf (map DataRowMessage rows) = [] /\
  errorsOf (map DataRowMessage rows) = [].
Proof.
  induction rows as [|vs rows (H1 & H2 & H3 & H4)]; [now repeat split|].
  repeat split; cbn; [exact H1|now rewrite <- H2|exact H3|exact H4].
Qed.

Lemma rowsOf_app (a b : list IncomingMessage) :
  rowsOf (a ++ b) = rowsOf a ++ rowsOf b.
Proof. apply omap_app. Qed.

Lemma tagsOf_app (a b : list IncomingMessage) :
  tagsOf (a ++ b) = tagsOf a ++ tagsOf b.
Proof. apply omap_app. Qed.

(** C9. A valid row-description/data-row sequence on the wire is a frame
    with tag T whose body has two count bytes and that many fields, and
    frames with tag D whose bodies have the same two count bytes and that
    many values each.  When the response to a query ends with such a
    sequence, with command tags, errors, notices and session updates after
    it, and with ready-for-query, Query returns a resultset: its fields are
    the decoded fields, its rows are the rows of the data-row frames in
    order, and every row has as many values as the resultset has
    fields.  What came before the row description may be any orderly
    response. *)
Theorem Query_rows_match_fields (sql : string) (c : Connection) (s : Socket)
  (pre post : list IncomingMessage) (c0 c1 : byte) (ws : list FieldWire)
  (rows : list (list (option (list byte)))) (bodies : list (list byte))
  (status : byte) (mid behind rest : list byte) :
  socket c = Some s -> closed s = false ->
  frames (inbound s) pre mid -> orderly false pre = true ->
  framed mid
    (("T"%byte, c0 :: c1 :: fields_wire ws) :: map (pair "D"%byte) bodies)
    behind ->
  Forall (fun w => x00 ∉ wName w) ws -> bigEndian16 c0 c1 = len ws ->
  Forall2 (dataRow_wire c0 c1) rows bodies ->
  frames behind (post ++ [ReadyForQueryMessage status]) rest ->
  forallb closing post = true ->
  let r := {| Fields := map field_value ws;
              Rows := map (fun vs => {| Values := vs |}) rows;
              Result := default ""%string (last (tagsOf post)) |} in
  (exists c', Query sql c = (Ret (Some r, lastError (pre ++ post)), c')) /\
  length (Fields r) = length ws /\
  length (Rows r) = length bodies /\
  forall (i : nat) (row : Row),
    Rows r !! i = Some row -> length (Values row) = length (Fields r).
Proof.
  intros Hs Hc Hpre Hord Hwire Hws Hcount Hrows Hpost Hclosing r.
  destruct (dataRows_continue rows) as (Hcont & Hrs & Htags & Herrs).
  assert (Hfr : frames (inbound s)
                  ((pre ++ RowDescriptionMessage (map field_value ws)
                          :: map DataRowMessage rows ++ post)
                     ++ [ReadyForQueryMessage status]) rest).
  { replace ((pre ++ RowDescriptionMessage (map field_value ws)
                    :: map DataRowMessage rows ++ post)
                ++ [ReadyForQueryMessage status])
      with (pre ++ (RowDescriptionMessage (map field_value ws)
                      :: map DataRowMessage rows)
              ++ post ++ [ReadyForQueryMessage status])
      by (rewrite <- !app_assoc; cbn [app]; rewrite <- ?app_assoc;
          reflexivity).
    apply (frames_app _ _ mid); [exact Hpre|].
    apply (frames_app _ _ behind); [|exact Hpost].
    apply (framed_frames _ _ _ Hwire). constructor.
    - intros _. now apply rowDescription_decodes.
    - exact (dataRows_decode c0 c1 rows bodies Hrows). }
  assert (Hall : forallb continues (map DataRowMessage rows ++ post) = true).
  { rewrite forallb_app, Hcont. cbn. now apply closing_continues. }
  split; [|split; [|split]].
  - eexists.
    rewrite (Query_frames sql c _ s _ status rest _ Hs Hc Hfr
               (described_not_ready pre _ _ Hord Hall)
               (Query_switches_described pre _ _ c Hord Hall)).
    cbn [resultset queryError]. unfold r.
    rewrite rowsOf_app, tagsOf_app, Hrs, Htags.
    rewrite (closing_no_rows post Hclosing), app_nil_r. cbn [app].
    f_equal. f_equal. f_equal.
    rewrite !lastError_app.
    change (RowDescriptionMessage (map field_value ws)
              :: map DataRowMessage rows ++ post)
      with ([RowDescriptionMessage (map field_value ws)]
              ++ map DataRowMessage rows ++ post).
    rewrite !lastError_app. unfold lastError at 2 3.
    rewrite Herrs. cbn. now destruct (lastError post).
  - unfold r. cbn [Fields]. apply length_map.
  - unfold r. cbn [Rows]. rewrite length_map.
    exact (Forall2_length _ _ _ Hrows).
  - intros i row Hrow. unfold r in *. cbn [Fields Rows] in *.
    rewrite length_map. rewrite list_lookup_fmap in Hrow.
    destruct (rows !! i) as [vs|] eqn:Hvs; [|discriminate].
    cbn in Hrow. inversion Hrow; subst row. cbn [Values].
    destruct (Forall2_lookup_l _ _ _ _ _ Hrows Hvs)
      as (body & _ & bvs & _ & _ & Hn).
    unfold len in *. lia.
Qed.

Lemma Query_rows_match_fields_witness :
  (exists c',
     Query "select 1" (idle select_script)
     = (Ret (Some {| Fields := [fieldN];
                     Rows := [{| Values := [Some ["5"%byte]] |}];
                     Result := "SELECT 1" |}, None), c')) /\
  length [fieldN] = 1%nat /\
  length [{| Values := [Some ["5"%byte]] |}] = 1%nat /\
  forall (i : nat) (row : Row),
    [{| Values := [Some ["5"%byte]] |}] !! i = Some row ->
    length (Values row) = length [fieldN].
Proof.
  apply (Query_rows_match_fields "select 1" (idle select_script)
           (stream select_script) [] [CommandCompleteMessage "SELECT 1"]
           x00 x01 [wireN] [[Some ["5"%byte]]]
           [[x00; x01; x00; x00; x00; x01; "5"%byte]] "I"%byte
           select_script (frameSelectComplete ++ frameReadyIdle) []).
  - reflexivity.
  - reflexivity.
  - apply frames_nil.
  - reflexivity.
  - apply (framed_cons "T"%byte [x00; x00; x00; x1a]
             (x00 :: x01 :: fields_wire [wireN])
             (frameDataRow5 ++ frameSelectComplete ++ frameReadyIdle) _ _ 26);
      [reflexivity..|].
    apply (framed_cons "D"%byte [x00; x00; x00; x0b]
             [x00; x01; x00; x00; x00; x01; "5"%byte]
             (frameSelectComplete ++ frameReadyIdle) [] _ 11);
      [reflexivity..|].
    apply framed_nil.
  - constructor; [no_zero_byte|constructor].
  - reflexivity.
  - constructor; [|constructor].
    exists [x00; x00; x00; x01; "5"%byte].
    split; [reflexivity|]. split; [|reflexivity].
    apply value_wire_single.
    apply (wire_present [x00; x00; x00; x01] ["5"%byte]);
      [reflexivity|reflexivity|discriminate].
  - cbn [app]. read_frames.
  - reflexivity.
Defined.
